(** * Backup-collection route of duplidash: a shallow embedding

    The development embeds the [POST] handler of the backup-collection
    route (the file that imports [dbOps], [parseDurationToSeconds] and
    [dbUtils], with its helper [makeRequest]) and proves properties of the
    collection pipeline: validation of the request, the order of the remote
    requests and of the store operations, the per-entry filter, the
    deduplication gate, the status rule and the failure bookkeeping.

    JavaScript values are modelled by the type [jsval]; the handler is
    written in a state-and-exception monad whose state holds the persisted
    store, the log of the observable operations (requests, upserts, lookups
    and inserts), the number of identifiers drawn from [uuidv4] and the
    three counters of the handler. The modules [dbOps] and [dbUtils] and
    the function [parseDurationToSeconds] are not part of the sources at
    hand; they are modelled from the specification.

    The module [Menu] embeds the three asynchronous functions of the
    database maintenance menu as runs that record the calls they make. *)

From Stdlib Require Import List String Ascii Bool Arith ZArith QArith Lia.
From Stdlib Require Import DecimalString.
From Stdlib Require DecimalZ DecimalPos.
Import ListNotations.

Set Warnings "-notation-for-abbreviation".

Close Scope Q_scope.
Open Scope string_scope.
Open Scope nat_scope.

(** ** JavaScript values *)

Module JS.

(** A JavaScript number: a finite double is represented by its value, a
    fraction in lowest terms; the infinities and NaN are separate. *)
Inductive number : Type :=
| Finite (q : Q)
| Infinity (negative : bool)
| NaN.

(** The values that [JSON.parse] and property access can produce. An object
    is the list of its own properties, one entry per key. *)
#[local] Unset Elimination Schemes.
Inductive jsval : Type :=
| Undefined
| Null
| Bool (b : bool)
| Num (n : number)
| Str (s : string)
| Arr (elems : list jsval)
| Obj (props : list (string * jsval)).
#[local] Set Elimination Schemes.

Definition num_of_nat (n : nat) : number := Finite (inject_Z (Z.of_nat n)).
Definition zero : jsval := Num (num_of_nat 0).
Definition one : jsval := Num (num_of_nat 1).

(** *** Representation equality (decidable) *)

Definition Q_eqb (a b : Q) : bool :=
  Z.eqb (Qnum a) (Qnum b) && Pos.eqb (Qden a) (Qden b).

Definition number_eqb (a b : number) : bool :=
  match a, b with
  | Finite x, Finite y => Q_eqb x y
  | Infinity x, Infinity y => Bool.eqb x y
  | NaN, NaN => true
  | _, _ => false
  end.

Fixpoint jsval_eqb (a b : jsval) {struct a} : bool :=
  match a, b with
  | Undefined, Undefined => true
  | Null, Null => true
  | Bool x, Bool y => Bool.eqb x y
  | Num x, Num y => number_eqb x y
  | Str x, Str y => String.eqb x y
  | Arr xs, Arr ys =>
      (fix elems_eqb (l1 l2 : list jsval) {struct l1} : bool :=
         match l1, l2 with
         | [], [] => true
         | x :: l1', y :: l2' => jsval_eqb x y && elems_eqb l1' l2'
         | _, _ => false
         end) xs ys
  | Obj ps, Obj qs =>
      (fix props_eqb (l1 l2 : list (string * jsval)) {struct l1} : bool :=
         match l1, l2 with
         | [], [] => true
         | (k1, x) :: l1', (k2, y) :: l2' =>
             String.eqb k1 k2 && jsval_eqb x y && props_eqb l1' l2'
         | _, _ => false
         end) ps qs
  | _, _ => false
  end.

(** *** Truthiness, property access and coercions *)

(** [!!v]. *)
Definition truthy (v : jsval) : bool :=
  match v with
  | Undefined | Null => false
  | Bool b => b
  | Num (Finite q) => negb (Z.eqb (Qnum q) 0)
  | Num (Infinity _) => true
  | Num NaN => false
  | Str s => negb (String.eqb s "")
  | Arr _ | Obj _ => true
  end.

(** [a || b]. *)
Definition or_else (a b : jsval) : jsval := if truthy a then a else b.

(** [c ? 1 : 0]. *)
Definition flag (c : jsval) : jsval := if truthy c then one else zero.

Fixpoint lookup (k : string) (props : list (string * jsval)) : jsval :=
  match props with
  | [] => Undefined
  | (k', v) :: rest => if String.eqb k' k then v else lookup k rest
  end.

Definition nullish (v : jsval) : bool :=
  match v with
  | Undefined | Null => true
  | _ => false
  end.

(** [v.k] for a [v] that is neither [null] nor [undefined], and for a key
    [k] that no prototype defines (every key the handler reads is such a
    key): the own property of an object, [undefined] otherwise. *)
Definition field (v : jsval) (k : string) : jsval :=
  match v with
  | Obj props => lookup k props
  | _ => Undefined
  end.

(** [v?.k]. *)
Definition opt_field (v : jsval) (k : string) : jsval := field v k.

(** [v === s] for a string literal [s]. *)
Definition is_string (v : jsval) (s : string) : bool :=
  match v with
  | Str s' => String.eqb s' s
  | _ => false
  end.

(** [a === b] on numbers. *)
Definition number_strict_equal (a b : number) : bool :=
  match a, b with
  | Finite x, Finite y => Qeq_bool x y
  | Infinity x, Infinity y => Bool.eqb x y
  | _, _ => false
  end.

(** [a === b], where [a] is the value at position [i] and [b] the value at
    position [j] of arrays decoded from one response: primitives compare by
    value, arrays and objects by reference, and two positions hold the same
    reference only when they are the same position. *)
Definition strict_equal_at (i j : nat) (a b : jsval) : bool :=
  match a, b with
  | Undefined, Undefined => true
  | Null, Null => true
  | Bool x, Bool y => Bool.eqb x y
  | Num x, Num y => number_strict_equal x y
  | Str x, Str y => String.eqb x y
  | (Arr _ | Obj _), (Arr _ | Obj _) => Nat.eqb i j
  | _, _ => false
  end.

(** [n > 0] on numbers. *)
Definition number_positive (n : number) : bool :=
  match n with
  | Finite q => Z.ltb 0 (Qnum q)
  | Infinity negative => negb negative
  | NaN => false
  end.

(** *** Correctness of the representation equality *)

Lemma Q_eqb_eq (a b : Q) : Q_eqb a b = true <-> a = b.
Proof.
  destruct a as [an ad], b as [bn bd]; unfold Q_eqb; simpl.
  rewrite andb_true_iff, Z.eqb_eq, Pos.eqb_eq.
  split; [intros [-> ->]; reflexivity | intros E; inversion E; auto].
Qed.

Lemma number_eqb_eq (a b : number) : number_eqb a b = true <-> a = b.
Proof.
  destruct a as [x|x|], b as [y|y|]; simpl;
    try (split; [discriminate | intros E; inversion E]); try tauto.
  - rewrite Q_eqb_eq. split; [intros ->; reflexivity | intros E; inversion E; auto].
  - rewrite Bool.eqb_true_iff.
    split; [intros ->; reflexivity | intros E; inversion E; auto].
Qed.

Lemma jsval_eqb_eq : forall a b : jsval, jsval_eqb a b = true <-> a = b.
Proof.
  fix IH 1.
  intros a b; destruct a as [| |x|x|x|xs|ps], b as [| |y|y|y|ys|qs]; simpl;
    try (split; [discriminate | intros E; inversion E]); try tauto.
  - rewrite Bool.eqb_true_iff.
    split; [intros ->; reflexivity | intros E; inversion E; auto].
  - rewrite number_eqb_eq.
    split; [intros ->; reflexivity | intros E; inversion E; auto].
  - rewrite String.eqb_eq.
    split; [intros ->; reflexivity | intros E; inversion E; auto].
  - revert ys; induction xs as [|x xs IHxs]; intros [|y ys];
      try (split; [discriminate | intros E; inversion E]); try tauto.
    rewrite andb_true_iff, (IH x y), IHxs.
    split; [intros [-> E]; inversion E; reflexivity
           | intros E; inversion E; auto].
  - revert qs; induction ps as [|[k x] ps IHps]; intros [|[k' y] qs];
      try (split; [discriminate | intros E; inversion E]); try tauto.
    rewrite !andb_true_iff, String.eqb_eq, (IH x y), IHps.
    split; [intros [[-> ->] E]; inversion E; reflexivity
           | intros E; inversion E; auto].
Qed.

Lemma jsval_eqb_refl (a : jsval) : jsval_eqb a a = true.
Proof. apply jsval_eqb_eq; reflexivity. Qed.

Lemma jsval_eqb_neq (a b : jsval) : jsval_eqb a b = false <-> a <> b.
Proof.
  rewrite <- jsval_eqb_eq. destruct (jsval_eqb a b); split; congruence.
Qed.

End JS.
Export JS.

(** ** Exceptions and results *)

(** The exceptions the handler can meet: the ones it throws itself with
    [new Error(message)], the ones of the runtime (property access on
    [null] or [undefined] and calls of a missing method are [TypeError],
    [toISOString] of an invalid date is [RangeError], [JSON.parse] of a
    malformed text is [SyntaxError]) and the errors of a connection. *)
Inductive Exn : Type :=
| Error (message : string)
| TypeError
| RangeError
| SyntaxError
| ConnectionError (message : string).

Inductive result (A : Type) : Type :=
| Ok (a : A)
| Throw (e : Exn).
Arguments Ok {A} a.
Arguments Throw {A} e.

Definition rbind {A B} (r : result A) (k : A -> result B) : result B :=
  match r with
  | Ok a => k a
  | Throw e => Throw e
  end.

(** [v.k] in general: a [TypeError] when [v] is [null] or [undefined]. *)
Definition getprop (v : jsval) (k : string) : result jsval :=
  if nullish v then Throw TypeError else Ok (field v k).

(** The receiver of [find], [map] and [filter]: a decoded JSON value has
    these methods only when it is an array. *)
Definition as_array (v : jsval) : result (list jsval) :=
  match v with
  | Arr elems => Ok elems
  | _ => Throw TypeError
  end.

Fixpoint map_result {A B} (f : A -> result B) (l : list A) : result (list B) :=
  match l with
  | [] => Ok []
  | x :: rest =>
      rbind (f x) (fun y => rbind (map_result f rest) (fun ys => Ok (y :: ys)))
  end.

(** The list with the position of each element. *)
Fixpoint indexed_from {A} (i : nat) (l : list A) : list (nat * A) :=
  match l with
  | [] => []
  | x :: rest => (i, x) :: indexed_from (S i) rest
  end.

Definition indexed {A} (l : list A) : list (nat * A) := indexed_from 0 l.

(** ** The persistence sink *)

Module Sink.

(** The named parameters bound by [dbOps.insertBackup.run], in the order of
    the object literal of the handler. *)
Record BackupRow : Type := {
  id : jsval;
  machine_id : jsval;
  backup_name : jsval;
  backup_id : jsval;
  date : jsval;
  status : jsval;
  duration_seconds : jsval;
  size : jsval;
  uploaded_size : jsval;
  examined_files : jsval;
  warnings : jsval;
  errors : jsval;
  messages_array : jsval;
  warnings_array : jsval;
  errors_array : jsval;
  deleted_files : jsval;
  deleted_folders : jsval;
  modified_files : jsval;
  opened_files : jsval;
  added_files : jsval;
  size_of_modified_files : jsval;
  size_of_added_files : jsval;
  size_of_examined_files : jsval;
  size_of_opened_files : jsval;
  not_processed_files : jsval;
  added_folders : jsval;
  too_large_files : jsval;
  files_with_error : jsval;
  modified_folders : jsval;
  modified_symlinks : jsval;
  added_symlinks : jsval;
  deleted_symlinks : jsval;
  partial_backup : jsval;
  dryrun : jsval;
  main_operation : jsval;
  parsed_result : jsval;
  interrupted : jsval;
  version : jsval;
  begin_time : jsval;
  end_time : jsval;
  warnings_actual_length : jsval;
  errors_actual_length : jsval;
  messages_actual_length : jsval;
  bytes_downloaded : jsval;
  known_file_size : jsval;
  last_backup_date : jsval;
  backup_list_count : jsval;
  reported_quota_error : jsval;
  reported_quota_warning : jsval;
  backend_main_operation : jsval;
  backend_parsed_result : jsval;
  backend_interrupted : jsval;
  backend_version : jsval;
  backend_begin_time : jsval;
  backend_duration : jsval;
  backend_warnings_actual_length : jsval;
  backend_errors_actual_length : jsval
}.

(** The deduplication triple: machine id, backup name, start time. *)
Definition DedupKey : Type := (jsval * jsval * jsval)%type.

Definition key_of (row : BackupRow) : DedupKey :=
  (machine_id row, backup_name row, date row).

Definition key_eqb (a b : DedupKey) : bool :=
  let '(m1, n1, d1) := a in
  let '(m2, n2, d2) := b in
  jsval_eqb m1 m2 && jsval_eqb n1 n2 && jsval_eqb d1 d2.

(** The persisted state: the machine table (id, name) and the backup-run
    table, oldest row first. *)
Record Store : Type := {
  machines : list (jsval * jsval);
  backups : list BackupRow
}.

(** Modelled from the spec: [dbUtils.checkDuplicateBackup] lives in
    [@/lib/db-utils], which is not part of the sources at hand. The spec
    describes it as a read-only lookup against the persisted runs on the
    exact-match triple (machine id, backup name, start time). *)
Definition checkDuplicateBackup (s : Store) (k : DedupKey) : bool :=
  existsb (fun row => key_eqb (key_of row) k) (backups s).

(** What the sink does with a record whose triple is already present: the
    spec leaves both ways open (no-op or error). *)
Inductive ConflictPolicy : Type :=
| IgnoreConflict
| RaiseConflict.

(** Modelled from the spec: [dbOps.insertBackup] lives in [@/lib/db], which
    is not part of the sources at hand. The spec describes it as the insert
    of a new run record that must reject (no-op or error) a record whose
    deduplication triple already exists. [None] is the error. *)
Definition insertBackup (policy : ConflictPolicy) (s : Store) (row : BackupRow)
  : option Store :=
  if checkDuplicateBackup s (key_of row) then
    match policy with
    | IgnoreConflict => Some s
    | RaiseConflict => None
    end
  else Some {| machines := machines s; backups := backups s ++ [row] |}.

Fixpoint upsert (id name : jsval) (table : list (jsval * jsval))
  : list (jsval * jsval) :=
  match table with
  | [] => [(id, name)]
  | (id', name') :: rest =>
      if jsval_eqb id' id then (id, name) :: rest
      else (id', name') :: upsert id name rest
  end.

(** Modelled from the spec: [dbOps.upsertMachine] lives in [@/lib/db], which
    is not part of the sources at hand. The spec describes it as an upsert
    by id: the same id with a changed name overwrites the name and never
    duplicates the row. *)
Definition upsertMachine (s : Store) (id name : jsval) : Store :=
  {| machines := upsert id name (machines s); backups := backups s |}.

Definition machine_name (s : Store) (id : jsval) : option jsval :=
  option_map snd (find (fun m => jsval_eqb (fst m) id) (machines s)).

End Sink.
Export Sink.

(** ** Durations *)

Module Duration.

Definition colon : ascii := ":"%char.
Definition dot : ascii := "."%char.

(** The ten decimal digits. *)
Inductive digit : Type := D0 | D1 | D2 | D3 | D4 | D5 | D6 | D7 | D8 | D9.

Definition digit_Z (d : digit) : Z :=
  match d with
  | D0 => 0 | D1 => 1 | D2 => 2 | D3 => 3 | D4 => 4
  | D5 => 5 | D6 => 6 | D7 => 7 | D8 => 8 | D9 => 9
  end%Z.

Definition digit_char (d : digit) : ascii :=
  match d with
  | D0 => "0" | D1 => "1" | D2 => "2" | D3 => "3" | D4 => "4"
  | D5 => "5" | D6 => "6" | D7 => "7" | D8 => "8" | D9 => "9"
  end%char.

Definition digit_value (c : ascii) : option Z :=
  let n := Z.of_N (N_of_ascii c) in
  if (48 <=? n)%Z && (n <=? 57)%Z then Some (n - 48)%Z else None.

(** The value of a run of decimal digits, most significant first. *)
Fixpoint number_value (acc : Z) (cs : list ascii) : option Z :=
  match cs with
  | [] => Some acc
  | c :: rest =>
      match digit_value c with
      | Some d => number_value (10 * acc + d)%Z rest
      | None => None
      end
  end.

(** A non-empty run of decimal digits. *)
Definition digits (cs : list ascii) : option Z :=
  match cs with
  | [] => None
  | _ => number_value 0%Z cs
  end.

(** Exactly two decimal digits. *)
Definition two_digits (cs : list ascii) : option Z :=
  match cs with
  | [_; _] => digits cs
  | _ => None
  end.

(** The pieces of a text between the occurrences of a separator. *)
Fixpoint split_on (sep : ascii) (cs : list ascii) : list (list ascii) :=
  match cs with
  | [] => [[]]
  | c :: rest =>
      if Ascii.eqb c sep then [] :: split_on sep rest
      else
        match split_on sep rest with
        | [] => [[c]]
        | piece :: pieces => (c :: piece) :: pieces
        end
  end.

(** The text [[days.]HH:MM:SS[.fractional]] as total whole seconds; [None]
    when the text does not have this format. *)
Definition parse_duration (s : string) : option Z :=
  match split_on colon (list_ascii_of_string s) with
  | [dh; mm; sf] =>
      let days_hours :=
        match split_on dot dh with
        | [hh] => Some (0%Z, hh)
        | [dd; hh] => option_map (fun d => (d, hh)) (digits dd)
        | _ => None
        end in
      let seconds :=
        match split_on dot sf with
        | [ss] => Some ss
        | [ss; fractional] => option_map (fun _ => ss) (digits fractional)
        | _ => None
        end in
      match days_hours, seconds with
      | Some (d, hh), Some ss =>
          match two_digits hh, two_digits mm, two_digits ss with
          | Some h, Some m, Some sec =>
              Some (d * 86400 + h * 3600 + m * 60 + sec)%Z
          | _, _, _ => None
          end
      | _, _ => None
      end
  | _ => None
  end.

(** Modelled from the spec: [parseDurationToSeconds] lives in [@/lib/db],
    which is not part of the sources at hand. The spec describes it as the
    conversion of a duration string of format
    [[days.]HH:MM:SS[.fractional]] to total whole seconds, where an absent
    or unparsable input yields 0 and not an error. *)
Definition parseDurationToSeconds (duration : jsval) : Z :=
  match duration with
  | Str s =>
      match parse_duration s with
      | Some seconds => seconds
      | None => 0%Z
      end
  | _ => 0%Z
  end.

(** The text of a duration, from its digits. *)
Definition digit_chars (ds : list digit) : list ascii := map digit_char ds.

Definition digits_Z (ds : list digit) : Z :=
  fold_left (fun acc d => 10 * acc + digit_Z d)%Z ds 0%Z.

Definition render (days : option (digit * list digit))
  (h1 h2 m1 m2 s1 s2 : digit) (fractional : option (digit * list digit))
  : string :=
  string_of_list_ascii
    (match days with
     | Some (d, ds) => digit_chars (d :: ds) ++ [dot]
     | None => []
     end
     ++ digit_chars [h1; h2] ++ [colon]
     ++ digit_chars [m1; m2] ++ [colon]
     ++ digit_chars [s1; s2]
     ++ match fractional with
        | Some (f, fs) => dot :: digit_chars (f :: fs)
        | None => []
        end).

Definition days_Z (days : option (digit * list digit)) : Z :=
  match days with
  | Some (d, ds) => digits_Z (d :: ds)
  | None => 0%Z
  end.

Example parse_sample :
  parse_duration "1.02:03:04" = Some 93784%Z
  /\ parse_duration "00:00:05.1234567" = Some 5%Z
  /\ parse_duration "12:34" = None
  /\ render (Some (D1, [])) D0 D2 D0 D3 D0 D4 None = "1.02:03:04".
Proof. repeat split; reflexivity. Qed.

End Duration.
Export Duration.

(** ** Requests, responses and the log of operations *)

Module Http.

(** The url and the options handed to [makeRequest]; [agent] holds the
    [rejectUnauthorized] setting of the https agent when there is one. *)
Record Request : Type := {
  url : string;
  method : option string;
  headers : list (string * string);
  agent : option bool;
  body : option string
}.

(** What the remote end sends back: the [statusCode] and [statusMessage] of
    the incoming message, and the concatenated chunks. *)
Record Incoming : Type := {
  statusCode : option nat;
  statusMessage : option string;
  data : string
}.

(** The object [makeRequest] resolves to. *)
Record Resolved : Type := {
  ok : bool;
  status : nat;
  statusText : string;
  json : jsval
}.

End Http.

(** The observable operations of one invocation. *)
Inductive Event : Type :=
| Requested (request : Http.Request)
| MachineUpserted (id name : jsval)
| DuplicateChecked (key : DedupKey) (found : bool)
| BackupInserted (row : BackupRow).

(** What the handler answers. *)
Inductive Response : Type :=
| BadRequest (error : string)
| ServerError (error : Exn)
| NoBackupsFound
| Stats (processed skipped errors : nat).

(** The state an invocation runs in: the persisted store, the operations
    performed so far (most recent first), the number of identifiers drawn
    from [uuidv4], and the counters of the handler. *)
Record State : Type := {
  db : Store;
  events : list Event;
  uuids : nat;
  processedCount : nat;
  skippedCount : nat;
  errorCount : nat
}.

Definition initial (store : Store) : State :=
  {| db := store; events := []; uuids := 0;
     processedCount := 0; skippedCount := 0; errorCount := 0 |}.

(** The operations in the order they happened. *)
Definition timeline (st : State) : list Event := rev (events st).

Definition with_db (store : Store) (st : State) : State :=
  {| db := store; events := events st; uuids := uuids st;
     processedCount := processedCount st; skippedCount := skippedCount st;
     errorCount := errorCount st |}.

Definition record_event (ev : Event) (st : State) : State :=
  {| db := db st; events := ev :: events st; uuids := uuids st;
     processedCount := processedCount st; skippedCount := skippedCount st;
     errorCount := errorCount st |}.

(** ** The state-and-exception monad *)

Definition M (A : Type) : Type := State -> result A * State.

Definition ret {A} (a : A) : M A := fun st => (Ok a, st).

Definition bind {A B} (m : M A) (k : A -> M B) : M B :=
  fun st =>
    match m st with
    | (Ok a, st') => k a st'
    | (Throw e, st') => (Throw e, st')
    end.

Definition throw {A} (e : Exn) : M A := fun st => (Throw e, st).

Definition lift {A} (r : result A) : M A := fun st => (r, st).

(** [try { body } catch (error) { handler }]: the state reached when the
    exception was thrown is kept. *)
Definition try_catch {A} (body : M A) (handler : Exn -> M A) : M A :=
  fun st =>
    match body st with
    | (Ok a, st') => (Ok a, st')
    | (Throw e, st') => handler e st'
    end.

Declare Scope js_scope.
Delimit Scope js_scope with js.
Notation "x <- m ;; k" := (bind m (fun x => k))
  (at level 61, m at next level, right associativity) : js_scope.
Notation "m ;; k" := (bind m (fun _ => k))
  (at level 61, right associativity) : js_scope.

Open Scope js_scope.

(** [for (const x of l) { body }]. *)
Fixpoint for_of {A} (l : list A) (body : A -> M unit) : M unit :=
  match l with
  | [] => ret tt
  | x :: rest => body x ;; for_of rest body
  end.

Definition incr_processed : M unit := fun st =>
  (Ok tt, {| db := db st; events := events st; uuids := uuids st;
             processedCount := S (processedCount st);
             skippedCount := skippedCount st; errorCount := errorCount st |}).

Definition incr_skipped : M unit := fun st =>
  (Ok tt, {| db := db st; events := events st; uuids := uuids st;
             processedCount := processedCount st;
             skippedCount := S (skippedCount st); errorCount := errorCount st |}).

Definition incr_error : M unit := fun st =>
  (Ok tt, {| db := db st; events := events st; uuids := uuids st;
             processedCount := processedCount st;
             skippedCount := skippedCount st; errorCount := S (errorCount st) |}).

Definition num_of_Z (z : Z) : jsval := Num (Finite (inject_Z z)).

(** ** The route *)

Section Route.

(** The parts of the JavaScript runtime the handler relies on. *)

(** [String(n)] for a number. *)
Variable NumberToString : number -> string.
(** [Number(s)] for a string. *)
Variable StringToNumber : string -> number.
(** [JSON.parse(text)]; [None] is the [SyntaxError]. *)
Variable JSON_parse : string -> option jsval.
(** [JSON.stringify(v)]. *)
Variable JSON_stringify : jsval -> string.
(** [new Date(v).toISOString()]; [None] is the [RangeError] of an invalid
    date. *)
Variable toISOString : jsval -> option string.
(** The identifiers [uuidv4()] returns, by the number drawn before. *)
Variable uuidv4 : nat -> string.

(** The remote end: what a request yields, given the operations performed
    before it; [inl] is the error event of the connection. *)
Variable remote : list Event -> Http.Request -> Exn + Http.Incoming.

(** How the sink treats an insert whose triple is present. *)
Variable policy : ConflictPolicy.

(** [String(v)], as in template literals and in the argument of
    [JSON.parse]. *)
Fixpoint ToString (v : jsval) : string :=
  match v with
  | Undefined => "undefined"
  | Null => "null"
  | Bool true => "true"
  | Bool false => "false"
  | Num n => NumberToString n
  | Str s => s
  | Arr elems =>
      (fix join (l : list jsval) : string :=
         match l with
         | [] => ""
         | x :: rest =>
             (if nullish x then "" else ToString x)
             ++ match rest with
                | [] => ""
                | _ => "," ++ join rest
                end
         end) elems
  | Obj _ => "[object Object]"
  end.

(** [Number(v)]. *)
Definition ToNumber (v : jsval) : number :=
  match v with
  | Undefined => NaN
  | Null => num_of_nat 0
  | Bool true => num_of_nat 1
  | Bool false => num_of_nat 0
  | Num n => n
  | Str s => StringToNumber s
  | Arr _ | Obj _ => StringToNumber (ToString v)
  end.

(** [v > 0]. *)
Definition greater_than_zero (v : jsval) : bool :=
  number_positive (ToNumber v).

(** *** makeRequest *)

(** What the promise of [makeRequest] settles to, given what the remote end
    did: the error event rejects it, and so does a body that is not JSON. *)
Definition resolve (answer : Exn + Http.Incoming) : result Http.Resolved :=
  match answer with
  | inl e => Throw e
  | inr res =>
      match JSON_parse (Http.data res) with
      | None => Throw SyntaxError
      | Some parsedData =>
          let statusCode :=
            match Http.statusCode res with
            | Some c => c
            | None => 500
            end in
          Ok {| Http.ok := (200 <=? statusCode) && (statusCode <? 300);
                Http.status := statusCode;
                Http.statusText :=
                  match Http.statusMessage res with
                  | Some m => m
                  | None => "Unknown status"
                  end;
                Http.json := parsedData |}
      end
  end.

Definition makeRequest (request : Http.Request) : M Http.Resolved :=
  fun st =>
    (resolve (remote (events st) request), record_event (Requested request) st).

(** *** The sink operations, in the monad *)

Definition upsertMachine_run (id name : jsval) : M unit :=
  fun st =>
    (Ok tt, record_event (MachineUpserted id name)
              (with_db (upsertMachine (db st) id name) st)).

Definition checkDuplicateBackup_call (key : DedupKey) : M bool :=
  fun st =>
    let found := checkDuplicateBackup (db st) key in
    (Ok found, record_event (DuplicateChecked key found) st).

Definition insertBackup_run (row : BackupRow) : M unit :=
  fun st =>
    let st' := record_event (BackupInserted row) st in
    match insertBackup policy (db st) row with
    | Some store => (Ok tt, with_db store st')
    | None => (Throw (Error "constraint failed"), st')
    end.

Definition draw_uuid : M string :=
  fun st =>
    (Ok (uuidv4 (uuids st)),
     {| db := db st; events := events st; uuids := S (uuids st);
        processedCount := processedCount st;
        skippedCount := skippedCount st; errorCount := errorCount st |}).

Definition toISOString_or_throw (v : jsval) : result jsval :=
  match toISOString v with
  | Some iso => Ok (Str iso)
  | None => Throw RangeError
  end.

(** *** The pieces of Step 4 *)

(** The callback of [logs.filter]: an entry is kept when its message
    decodes and the decoded [MainOperation] is [Backup]; every exception
    inside the callback makes it answer false. *)
Definition is_backup_message (log : jsval) : bool :=
  match getprop log "Message" with
  | Throw _ => false
  | Ok text =>
      match JSON_parse (ToString text) with
      | None => false
      | Some messageObj => is_string (opt_field messageObj "MainOperation") "Backup"
      end
  end.

(** [JSON.parse(log.Message)]. *)
Definition parse_message (log : jsval) : result jsval :=
  rbind (getprop log "Message") (fun text =>
    match JSON_parse (ToString text) with
    | Some message => Ok message
    | None => Throw SyntaxError
    end).

(** [b.Backup.ID]. *)
Definition backup_ID (b : jsval) : result jsval :=
  rbind (getprop b "Backup") (fun bk => getprop bk "ID").

(** [backups.find((b) => b.Backup.ID === backupId)], for the [backupId] at
    position [i] of [backupIds]; [j] is the position of the head of [bs]. *)
Fixpoint find_backup (i : nat) (backupId : jsval) (j : nat) (bs : list jsval)
  : result jsval :=
  match bs with
  | [] => Ok Undefined
  | b :: rest =>
      rbind (backup_ID b) (fun ID =>
        if strict_equal_at j i ID backupId then Ok b
        else find_backup i backupId (S j) rest)
  end.

(** [backups.find(...)?.Backup.Name]. *)
Definition find_backup_name (backups : list jsval) (i : nat) (backupId : jsval)
  : result jsval :=
  rbind (find_backup i backupId 0 backups) (fun found =>
    if nullish found then Ok Undefined
    else rbind (getprop found "Backup") (fun bk => getprop bk "Name")).

(** The status rule. *)
Definition map_status (message : jsval) : jsval :=
  let status := field message "ParsedResult" in
  if is_string status "Success"
     && greater_than_zero (field message "WarningsActualLength")
  then Str "Warning"
  else status.

(** [x ? JSON.stringify(x) : null]. *)
Definition blob (x : jsval) : jsval :=
  if truthy x then Str (JSON_stringify x) else Null.

(** [x ? new Date(x).toISOString() : null]. *)
Definition optional_date (x : jsval) : result jsval :=
  if truthy x then toISOString_or_throw x else Ok Null.

(** The object literal handed to [dbOps.insertBackup.run]; the properties
    are evaluated in order, so the first date that is invalid decides. *)
Definition backup_row (uuid : string) (machineId backupName backupId : jsval)
  (backupDate : jsval) (message : jsval) : result BackupRow :=
  let stats := field message "BackendStatistics" in
  rbind (toISOString_or_throw (field message "BeginTime")) (fun begin_time' =>
  rbind (toISOString_or_throw (field message "EndTime")) (fun end_time' =>
  rbind (optional_date (opt_field stats "LastBackupDate")) (fun last_backup_date' =>
  rbind (optional_date (opt_field stats "BeginTime")) (fun backend_begin_time' =>
  Ok {|
    id := Str uuid;
    machine_id := machineId;
    backup_name := backupName;
    backup_id := backupId;
    date := backupDate;
    status := map_status message;
    duration_seconds := num_of_Z (parseDurationToSeconds (field message "Duration"));
    size := or_else (field message "SizeOfExaminedFiles") zero;
    uploaded_size := or_else (opt_field stats "BytesUploaded") zero;
    examined_files := or_else (field message "ExaminedFiles") zero;
    warnings := or_else (field message "WarningsActualLength") zero;
    errors := or_else (field message "ErrorsActualLength") zero;
    messages_array := blob (field message "Messages");
    warnings_array := blob (field message "Warnings");
    errors_array := blob (field message "Errors");
    deleted_files := or_else (field message "DeletedFiles") zero;
    deleted_folders := or_else (field message "DeletedFolders") zero;
    modified_files := or_else (field message "ModifiedFiles") zero;
    opened_files := or_else (field message "OpenedFiles") zero;
    added_files := or_else (field message "AddedFiles") zero;
    size_of_modified_files := or_else (field message "SizeOfModifiedFiles") zero;
    size_of_added_files := or_else (field message "SizeOfAddedFiles") zero;
    size_of_examined_files := or_else (field message "SizeOfExaminedFiles") zero;
    size_of_opened_files := or_else (field message "SizeOfOpenedFiles") zero;
    not_processed_files := or_else (field message "NotProcessedFiles") zero;
    added_folders := or_else (field message "AddedFolders") zero;
    too_large_files := or_else (field message "TooLargeFiles") zero;
    files_with_error := or_else (field message "FilesWithError") zero;
    modified_folders := or_else (field message "ModifiedFolders") zero;
    modified_symlinks := or_else (field message "ModifiedSymlinks") zero;
    added_symlinks := or_else (field message "AddedSymlinks") zero;
    deleted_symlinks := or_else (field message "DeletedSymlinks") zero;
    partial_backup := flag (field message "PartialBackup");
    dryrun := flag (field message "Dryrun");
    main_operation := field message "MainOperation";
    parsed_result := field message "ParsedResult";
    interrupted := flag (field message "Interrupted");
    version := field message "Version";
    begin_time := begin_time';
    end_time := end_time';
    warnings_actual_length := or_else (field message "WarningsActualLength") zero;
    errors_actual_length := or_else (field message "ErrorsActualLength") zero;
    messages_actual_length := or_else (field message "MessagesActualLength") zero;
    bytes_downloaded := or_else (opt_field stats "BytesDownloaded") zero;
    known_file_size := or_else (opt_field stats "KnownFileSize") zero;
    last_backup_date := last_backup_date';
    backup_list_count := or_else (opt_field stats "BackupListCount") zero;
    reported_quota_error := flag (opt_field stats "ReportedQuotaError");
    reported_quota_warning := flag (opt_field stats "ReportedQuotaWarning");
    backend_main_operation := opt_field stats "MainOperation";
    backend_parsed_result := opt_field stats "ParsedResult";
    backend_interrupted := flag (opt_field stats "Interrupted");
    backend_version := opt_field stats "Version";
    backend_begin_time := backend_begin_time';
    backend_duration := opt_field stats "Duration";
    backend_warnings_actual_length := or_else (opt_field stats "WarningsActualLength") zero;
    backend_errors_actual_length := or_else (opt_field stats "ErrorsActualLength") zero
  |})))).

(** The body of the inner loop, for one retained log entry of the backup
    at position [i]. *)
Definition collect_entry (machineId : jsval) (backups : list jsval)
  (i : nat) (backupId : jsval) (log : jsval) : M unit :=
  message <- lift (parse_message log) ;;
  BeginTime <- lift (getprop message "BeginTime") ;;
  backupDate <- lift (toISOString_or_throw BeginTime) ;;
  backupName <- lift (find_backup_name backups i backupId) ;;
  if negb (truthy backupName) then ret tt
  else
    isDuplicate <- checkDuplicateBackup_call (machineId, backupName, backupDate) ;;
    if isDuplicate then incr_skipped
    else
      uuid <- draw_uuid ;;
      row <- lift (backup_row uuid machineId backupName backupId backupDate message) ;;
      insertBackup_run row ;;
      incr_processed.

Definition base_headers : list (string * string) :=
  [("Content-Type", "application/json"); ("Accept", "application/json")].

Definition authorized (authToken : jsval) : list (string * string) :=
  base_headers ++ [("Authorization", "Bearer " ++ ToString authToken)].

Definition get_request (address : string) (agent : option bool) (authToken : jsval)
  : Http.Request :=
  {| Http.url := address; Http.method := None;
     Http.headers := authorized authToken;
     Http.agent := agent; Http.body := None |}.

Definition log_request (baseUrl : string) (agent : option bool)
  (authToken backupId : jsval) : Http.Request :=
  get_request (baseUrl ++ "/api/v1/backup" ++ "/" ++ ToString backupId
               ++ "/log?pagesize=999") agent authToken.

(** What follows the request for the logs in the [try] of the outer loop:
    the status check, the filter and the inner loop. *)
Definition collect_logs (machineId : jsval) (backups : list jsval)
  (i : nat) (backupId : jsval) (logResponse : Http.Resolved) : M unit :=
  if negb (Http.ok logResponse) then
    throw (Error ("Failed to get logs for backup " ++ ToString backupId ++ ": "
                  ++ Http.statusText logResponse))
  else
    logs <- lift (as_array (Http.json logResponse)) ;;
    let backupMessages := filter is_backup_message logs in
    for_of backupMessages (collect_entry machineId backups i backupId).

(** The body of the [try] of the outer loop, for the backup at position
    [i]. *)
Definition collect_backup (baseUrl : string) (agent : option bool)
  (authToken machineId : jsval) (backups : list jsval)
  (i : nat) (backupId : jsval) : M unit :=
  logResponse <- makeRequest (log_request baseUrl agent authToken backupId) ;;
  collect_logs machineId backups i backupId logResponse.

(** One turn of the outer loop: the [try] and its [catch]. *)
Definition collect_backup_guarded (baseUrl : string) (agent : option bool)
  (authToken machineId : jsval) (backups : list jsval)
  (job : nat * jsval) : M unit :=
  try_catch
    (collect_backup baseUrl agent authToken machineId backups (fst job) (snd job))
    (fun _ => incr_error).

(** Step 4. *)
Definition process_backups (baseUrl : string) (agent : option bool)
  (authToken machineId : jsval) (backups : list jsval)
  (backupIds : list jsval) : M unit :=
  for_of (indexed backupIds)
    (collect_backup_guarded baseUrl agent authToken machineId backups).

(** [const { name = fallback } = ...]: the default applies to [undefined]
    only. *)
Definition default_to (v fallback : jsval) : jsval :=
  match v with
  | Undefined => fallback
  | _ => v
  end.

(** [systemInfo.Options?.find((opt) => opt.Name === 'machine-id')]. *)
Fixpoint find_machine_id_option (opts : list jsval) : result jsval :=
  match opts with
  | [] => Ok Undefined
  | opt :: rest =>
      rbind (getprop opt "Name") (fun Name =>
        if is_string Name "machine-id" then Ok opt
        else find_machine_id_option rest)
  end.

Definition machine_id_of (systemInfo : jsval) : result jsval :=
  rbind (getprop systemInfo "Options") (fun Options =>
    if nullish Options then Ok Undefined
    else
      rbind (as_array Options) (fun opts =>
        rbind (find_machine_id_option opts) (fun found =>
          Ok (opt_field found "DefaultValue")))).

Definition login_request (baseUrl : string) (agent : option bool)
  (password : jsval) : Http.Request :=
  {| Http.url := baseUrl ++ "/api/v1/auth/login";
     Http.method := Some "POST";
     Http.headers := base_headers;
     Http.agent := agent;
     Http.body :=
       Some (JSON_stringify
               (Obj [("Password", password); ("RememberMe", Bool true)])) |}.

Definition systeminfo_request (baseUrl : string) (agent : option bool)
  (authToken : jsval) : Http.Request :=
  get_request (baseUrl ++ "/api/v1/systeminfo") agent authToken.

Definition backups_request (baseUrl : string) (agent : option bool)
  (authToken : jsval) : Http.Request :=
  get_request (baseUrl ++ "/api/v1/backups") agent authToken.

Definition base_url (protocol hostname port : jsval) : string :=
  ToString protocol ++ "://" ++ ToString hostname ++ ":" ++ ToString port.

(** The [agent] of [requestOptions]. *)
Definition agent_of (protocol allowSelfSigned : jsval) : option bool :=
  if is_string protocol "https" then Some (negb (truthy allowSelfSigned))
  else None.

(** What the handler needs from a request it accepts. *)
Record Target : Type := {
  baseUrl : string;
  agent : option bool;
  password : jsval
}.

Definition quoted (s : string) : string :=
  String "034"%char (s ++ String "034"%char "").

(** The destructuring of the request body and the three checks: a
    [TypeError] when the body is [null], the 400 answer of the first check
    that fails, the target otherwise. *)
Definition validate (body : jsval) : result (Response + Target) :=
  if nullish body then Throw TypeError
  else
    let hostname := field body "hostname" in
    let port := default_to (field body "port") (num_of_Z 8200) in
    let password := field body "password" in
    let protocol := default_to (field body "protocol") (Str "http") in
    let allowSelfSigned := default_to (field body "allowSelfSigned") (Bool false) in
    if negb (truthy hostname) then Ok (inl (BadRequest "Hostname is required"))
    else if negb (truthy password) then Ok (inl (BadRequest "Password is required"))
    else if negb (is_string protocol "http") && negb (is_string protocol "https")
    then Ok (inl (BadRequest ("Protocol must be either " ++ quoted "http"
                              ++ " or " ++ quoted "https")))
    else Ok (inr {| baseUrl := base_url protocol hostname port;
                    agent := agent_of protocol allowSelfSigned;
                    password := password |}).

(** Steps 1 and 2: the token, the machine id and the machine name. *)
Definition identify (t : Target) : M (jsval * jsval * jsval) :=
  (* Step 1: login *)
  loginResponse <- makeRequest (login_request (baseUrl t) (agent t) (password t)) ;;
  if negb (Http.ok loginResponse) then
    throw (Error ("Login failed: " ++ Http.statusText loginResponse))
  else
    authToken <- lift (getprop (Http.json loginResponse) "AccessToken") ;;
    if negb (truthy authToken) then
      throw (Error "No authentication token received")
    else
      (* Step 2: system info *)
      systemInfoResponse <-
        makeRequest (systeminfo_request (baseUrl t) (agent t) authToken) ;;
      if negb (Http.ok systemInfoResponse) then
        throw (Error ("Failed to get system info: "
                      ++ Http.statusText systemInfoResponse))
      else
        let systemInfo := Http.json systemInfoResponse in
        machineId <- lift (machine_id_of systemInfo) ;;
        machineName <- lift (getprop systemInfo "MachineName") ;;
        if negb (truthy machineId) || negb (truthy machineName) then
          throw (Error "Could not get machine information")
        else ret (authToken, machineId, machineName).

(** Step 3: the list of backups. *)
Definition list_backups (t : Target) (authToken : jsval) : M (list jsval) :=
  backupsResponse <- makeRequest (backups_request (baseUrl t) (agent t) authToken) ;;
  if negb (Http.ok backupsResponse) then
    throw (Error ("Failed to get backups list: " ++ Http.statusText backupsResponse))
  else lift (as_array (Http.json backupsResponse)).

(** The answer with the counters. *)
Definition report : M Response :=
  fun st =>
    (Ok (Stats (processedCount st) (skippedCount st) (errorCount st)), st).

(** Steps 1 to 4, once the request has been validated. *)
Definition collect (t : Target) : M Response :=
  session <- identify t ;;
  let '(authToken, machineId, machineName) := session in
  upsertMachine_run machineId machineName ;;
  backups <- list_backups t authToken ;;
  backupIds <- lift (map_result backup_ID backups) ;;
  match backupIds with
  | [] => ret NoBackupsFound
  | _ =>
      process_backups (baseUrl t) (agent t) authToken machineId backups backupIds ;;
      report
  end.

(** The body of the outer [try] of [POST]; the argument is what
    [request.json()] resolves to, [None] when it rejects. *)
Definition handler (request_json : option jsval) : M Response :=
  match request_json with
  | None => throw SyntaxError
  | Some body =>
      checked <- lift (validate body) ;;
      match checked with
      | inl response => ret response
      | inr target => collect target
      end
  end.

(** [POST]: the outer [catch] turns an exception into the 500 answer and
    keeps the state reached. *)
Definition POST (request_json : option jsval) (st : State) : Response * State :=
  match handler request_json st with
  | (Ok response, st') => (response, st')
  | (Throw e, st') => (ServerError e, st')
  end.


(** ** Reasoning about the monad *)

(** A computation preserves a property of the state. *)
Definition preserves {A} (P : State -> Prop) (m : M A) : Prop :=
  forall st, P st -> P (snd (m st)).

Lemma preserves_ret {A} (P : State -> Prop) (a : A) : preserves P (ret a).
Proof. intros st H; exact H. Qed.

Lemma preserves_throw {A} (P : State -> Prop) (e : Exn) :
  preserves P (@throw A e).
Proof. intros st H; exact H. Qed.

Lemma preserves_lift {A} (P : State -> Prop) (r : result A) :
  preserves P (lift r).
Proof. intros st H; exact H. Qed.

Lemma preserves_bind {A B} (P : State -> Prop) (m : M A) (k : A -> M B) :
  preserves P m -> (forall a, preserves P (k a)) -> preserves P (bind m k).
Proof.
  intros Hm Hk st H. unfold bind.
  specialize (Hm st H). destruct (m st) as [[a|e] st']; simpl in *.
  - apply Hk; exact Hm.
  - exact Hm.
Qed.

Lemma preserves_try_catch {A} (P : State -> Prop) (body : M A)
  (handler : Exn -> M A) :
  preserves P body -> (forall e, preserves P (handler e)) ->
  preserves P (try_catch body handler).
Proof.
  intros Hb Hh st H. unfold try_catch.
  specialize (Hb st H). destruct (body st) as [[a|e] st']; simpl in *.
  - exact Hb.
  - apply Hh; exact Hb.
Qed.

Lemma preserves_for_of {A} (P : State -> Prop) (l : list A) (body : A -> M unit) :
  (forall x, In x l -> preserves P (body x)) -> preserves P (for_of l body).
Proof.
  induction l as [|x rest IH]; intros Hbody; simpl.
  - apply preserves_ret.
  - apply preserves_bind.
    + apply Hbody; left; reflexivity.
    + intros _. apply IH. intros y Hy. apply Hbody; right; exact Hy.
Qed.

Lemma preserves_if {A} (P : State -> Prop) (c : bool) (m1 m2 : M A) :
  preserves P m1 -> preserves P m2 -> preserves P (if c then m1 else m2).
Proof. destruct c; auto. Qed.

(** *** The outcomes of one log entry *)

(** The state after a lookup that found the triple. *)
Definition skipped_state (k : DedupKey) (st : State) : State :=
  {| db := db st; events := DuplicateChecked k true :: events st;
     uuids := uuids st; processedCount := processedCount st;
     skippedCount := S (skippedCount st); errorCount := errorCount st |}.

(** The state after a lookup that did not find the triple, when the record
    could not be built. *)
Definition rejected_state (k : DedupKey) (st : State) : State :=
  {| db := db st; events := DuplicateChecked k false :: events st;
     uuids := S (uuids st); processedCount := processedCount st;
     skippedCount := skippedCount st; errorCount := errorCount st |}.

(** The state after a lookup that did not find the triple and the insert of
    the record. *)
Definition inserted_state (row : BackupRow) (st : State) : State :=
  {| db := {| machines := machines (db st); backups := backups (db st) ++ [row] |};
     events := BackupInserted row :: DuplicateChecked (key_of row) false :: events st;
     uuids := S (uuids st); processedCount := S (processedCount st);
     skippedCount := skippedCount st; errorCount := errorCount st |}.

(** What can be said of an entry before the store is consulted: an
    exception, no backup name ([None]), or the decoded message with the
    triple to look up. *)
Definition entry_key (machineId : jsval) (backups : list jsval)
  (i : nat) (backupId : jsval) (log : jsval)
  : result (option (jsval * DedupKey)) :=
  rbind (parse_message log) (fun message =>
  rbind (getprop message "BeginTime") (fun BeginTime =>
  rbind (toISOString_or_throw BeginTime) (fun backupDate =>
  rbind (find_backup_name backups i backupId) (fun backupName =>
    if negb (truthy backupName) then Ok None
    else Ok (Some (message, (machineId, backupName, backupDate))))))).

(** The record an entry yields, given the identifier drawn for it. *)
Definition entry_row (backupId : jsval) (uuid : string)
  (message : jsval) (k : DedupKey) : result BackupRow :=
  let '(machineId, backupName, backupDate) := k in
  backup_row uuid machineId backupName backupId backupDate message.

Lemma backup_row_key uuid machineId backupName backupId backupDate message row :
  backup_row uuid machineId backupName backupId backupDate message = Ok row ->
  key_of row = (machineId, backupName, backupDate).
Proof.
  unfold backup_row. intros H.
  destruct (toISOString_or_throw (field message "BeginTime")); [|discriminate].
  destruct (toISOString_or_throw (field message "EndTime")); [|discriminate].
  destruct (optional_date _); [|discriminate].
  destruct (optional_date _); [|discriminate].
  simpl in H. inversion H; subst; reflexivity.
Qed.

Lemma entry_row_key backupId uuid message k row :
  entry_row backupId uuid message k = Ok row -> key_of row = k.
Proof.
  destruct k as [[m n] d]; simpl. apply backup_row_key.
Qed.

(** [collect_entry], by cases. *)
Lemma collect_entry_unfold machineId backups i backupId log st :
  collect_entry machineId backups i backupId log st =
  match entry_key machineId backups i backupId log with
  | Throw e => (Throw e, st)
  | Ok None => (Ok tt, st)
  | Ok (Some (message, k)) =>
      if checkDuplicateBackup (db st) k then (Ok tt, skipped_state k st)
      else
        match entry_row backupId (uuidv4 (uuids st)) message k with
        | Throw e => (Throw e, rejected_state k st)
        | Ok row => (Ok tt, inserted_state row st)
        end
  end.
Proof.
  unfold collect_entry, entry_key, bind, lift.
  destruct (parse_message log) as [message|e]; simpl; [|reflexivity].
  destruct (getprop message "BeginTime") as [BeginTime|e]; simpl; [|reflexivity].
  destruct (toISOString_or_throw BeginTime) as [backupDate|e]; simpl; [|reflexivity].
  destruct (find_backup_name backups i backupId) as [backupName|e]; simpl;
    [|reflexivity].
  destruct (truthy backupName); simpl; [|reflexivity].
  unfold checkDuplicateBackup_call, record_event; simpl.
  destruct (checkDuplicateBackup (db st) (machineId, backupName, backupDate)) eqn:Hdup.
  - reflexivity.
  - unfold draw_uuid; simpl.
    destruct (backup_row _ _ _ _ _ _) as [row|e] eqn:Hrow; simpl.
    + pose proof (backup_row_key _ _ _ _ _ _ _ Hrow) as Hk.
      unfold insertBackup_run, insertBackup; simpl.
      rewrite Hk, Hdup. unfold inserted_state; simpl. rewrite Hk. reflexivity.
    + reflexivity.
Qed.

(** *** Invariants of an invocation *)

(** A record the handler builds: from the decoded message of a log entry
    that passed the filter. *)
Definition built (row : BackupRow) : Prop :=
  exists backupId uuid log message k,
    is_backup_message log = true
    /\ parse_message log = Ok message
    /\ entry_row backupId uuid message k = Ok row.

(** A property of the state that every operation of Step 4 keeps. *)
Record loop_closed (P : State -> Prop) : Prop := {
  closed_request :
    forall st request, P st -> P (record_event (Requested request) st);
  closed_skip :
    forall st k, P st -> checkDuplicateBackup (db st) k = true ->
      P (skipped_state k st);
  closed_reject :
    forall st k, P st -> checkDuplicateBackup (db st) k = false ->
      P (rejected_state k st);
  closed_insert :
    forall st row, P st -> checkDuplicateBackup (db st) (key_of row) = false ->
      built row -> P (inserted_state row st);
  closed_error :
    forall st, P st -> P (snd (incr_error st))
}.

Section Invariant.

Variable P : State -> Prop.
Hypothesis closed : loop_closed P.

Lemma makeRequest_preserves request : preserves P (makeRequest request).
Proof. intros st H. unfold makeRequest; simpl. apply closed; exact H. Qed.

Lemma collect_entry_preserves machineId backups i backupId log :
  is_backup_message log = true ->
  preserves P (collect_entry machineId backups i backupId log).
Proof.
  intros Hkept st H. rewrite collect_entry_unfold.
  destruct (entry_key machineId backups i backupId log) as [[[message k]|]|e] eqn:Hkey;
    simpl; try exact H.
  destruct (checkDuplicateBackup (db st) k) eqn:Hdup; simpl.
  - apply closed; assumption.
  - destruct (entry_row backupId (uuidv4 (uuids st)) message k) as [row|e] eqn:Hrow;
      simpl.
    + pose proof (entry_row_key _ _ _ _ _ Hrow) as Hk.
      apply closed; [exact H | rewrite Hk; exact Hdup |].
      exists backupId, (uuidv4 (uuids st)), log, message, k.
      repeat split; try assumption.
      unfold entry_key in Hkey.
      destruct (parse_message log) as [m|]; simpl in Hkey; [|discriminate].
      destruct (getprop m "BeginTime"); simpl in Hkey; [|discriminate].
      destruct (toISOString_or_throw _); simpl in Hkey; [|discriminate].
      destruct (find_backup_name _ _ _); simpl in Hkey; [|discriminate].
      destruct (negb _); inversion Hkey; reflexivity.
    + apply closed; assumption.
Qed.

Lemma collect_logs_preserves machineId backups i backupId logResponse :
  preserves P (collect_logs machineId backups i backupId logResponse).
Proof.
  unfold collect_logs. apply preserves_if; [apply preserves_throw|].
  apply preserves_bind; [apply preserves_lift|]. intros logs.
  apply preserves_for_of. intros log Hin.
  apply collect_entry_preserves.
  apply filter_In in Hin. apply Hin.
Qed.

Lemma collect_backup_guarded_preserves baseUrl agent authToken machineId backups job :
  preserves P (collect_backup_guarded baseUrl agent authToken machineId backups job).
Proof.
  unfold collect_backup_guarded, collect_backup.
  apply preserves_try_catch.
  - apply preserves_bind; [apply makeRequest_preserves|].
    intros logResponse. apply collect_logs_preserves.
  - intros _ st H. apply closed; exact H.
Qed.

Lemma process_backups_preserves baseUrl agent authToken machineId backups backupIds :
  preserves P (process_backups baseUrl agent authToken machineId backups backupIds).
Proof.
  unfold process_backups. apply preserves_for_of. intros job _.
  apply collect_backup_guarded_preserves.
Qed.

Lemma identify_preserves t : preserves P (identify t).
Proof.
  unfold identify.
  apply preserves_bind; [apply makeRequest_preserves|]. intros loginResponse.
  apply preserves_if; [apply preserves_throw|].
  apply preserves_bind; [apply preserves_lift|]. intros authToken.
  apply preserves_if; [apply preserves_throw|].
  apply preserves_bind; [apply makeRequest_preserves|]. intros systemInfoResponse.
  apply preserves_if; [apply preserves_throw|].
  apply preserves_bind; [apply preserves_lift|]. intros machineId.
  apply preserves_bind; [apply preserves_lift|]. intros machineName.
  apply preserves_if; [apply preserves_throw | apply preserves_ret].
Qed.

Lemma list_backups_preserves t authToken : preserves P (list_backups t authToken).
Proof.
  unfold list_backups.
  apply preserves_bind; [apply makeRequest_preserves|]. intros backupsResponse.
  apply preserves_if; [apply preserves_throw | apply preserves_lift].
Qed.

Hypothesis upsert_closed :
  forall st id name, P st ->
    P (record_event (MachineUpserted id name)
         (with_db (upsertMachine (db st) id name) st)).

Lemma collect_preserves t : preserves P (collect t).
Proof.
  unfold collect.
  apply preserves_bind; [apply identify_preserves|].
  intros [[authToken machineId] machineName].
  apply preserves_bind; [intros st H; apply upsert_closed; exact H|]. intros _.
  apply preserves_bind; [apply list_backups_preserves|]. intros backups.
  apply preserves_bind; [apply preserves_lift|]. intros backupIds.
  destruct backupIds as [|backupId rest]; [apply preserves_ret|].
  apply preserves_bind; [apply process_backups_preserves|].
  intros _ st H; exact H.
Qed.

Lemma handler_preserves request_json : preserves P (handler request_json).
Proof.
  unfold handler. destruct request_json as [body|]; [|apply preserves_throw].
  apply preserves_bind; [apply preserves_lift|].
  intros [response|target]; [apply preserves_ret | apply collect_preserves].
Qed.

Lemma POST_preserves request_json st : P st -> P (snd (POST request_json st)).
Proof.
  intros H. unfold POST. pose proof (handler_preserves request_json st H) as Hh.
  destruct (handler request_json st) as [[response|e] st']; exact Hh.
Qed.

End Invariant.

(** *** Inversion of the monad operations *)

Lemma bind_Ok {A B} (m : M A) (k : A -> M B) st b st' :
  bind m k st = (Ok b, st') ->
  exists a s, m st = (Ok a, s) /\ k a s = (Ok b, st').
Proof.
  unfold bind. destruct (m st) as [[a|e] s]; intros H; [|discriminate].
  exists a, s; split; [reflexivity | exact H].
Qed.

Lemma bind_run {A B} (m : M A) (k : A -> M B) st a s :
  m st = (Ok a, s) -> bind m k st = k a s.
Proof. intros H; unfold bind; rewrite H; reflexivity. Qed.

Lemma bind_fail {A B} (m : M A) (k : A -> M B) st e s :
  m st = (Throw e, s) -> bind m k st = (Throw e, s).
Proof. intros H; unfold bind; rewrite H; reflexivity. Qed.

Lemma lift_Ok {A} (r : result A) st a st' :
  lift r st = (Ok a, st') -> r = Ok a /\ st' = st.
Proof. unfold lift; intros H; inversion H; auto. Qed.

Lemma for_of_app {A} (l1 l2 : list A) (body : A -> M unit) st :
  for_of (l1 ++ l2) body st =
  match for_of l1 body st with
  | (Ok _, st') => for_of l2 body st'
  | (Throw e, st') => (Throw e, st')
  end.
Proof.
  revert st; induction l1 as [|x l1 IH]; intros st; simpl.
  - reflexivity.
  - unfold bind. destruct (body x st) as [[[]|e] s]; [apply IH | reflexivity].
Qed.

(** *** What the answer reports *)




(** ** The deduplication gate *)


(** The records handed to the insert, oldest first. *)
Fixpoint rows_inserted (evs : list Event) : list BackupRow :=
  match evs with
  | [] => []
  | BackupInserted row :: rest => rows_inserted rest ++ [row]
  | _ :: rest => rows_inserted rest
  end.


Lemma key_eqb_eq (a b : DedupKey) : key_eqb a b = true <-> a = b.
Proof.
  destruct a as [[m1 n1] d1], b as [[m2 n2] d2]; simpl.
  rewrite !andb_true_iff, !jsval_eqb_eq.
  split; [intros [[-> ->] ->]; reflexivity | intros E; inversion E; auto].
Qed.

Lemma checkDuplicateBackup_true (s : Store) (k : DedupKey) :
  checkDuplicateBackup s k = true <-> In k (map key_of (backups s)).
Proof.
  unfold checkDuplicateBackup. rewrite existsb_exists, in_map_iff.
  split; intros (row & H1 & H2).
  - exists row. apply key_eqb_eq in H2. auto.
  - exists row. split; [exact H2 | apply key_eqb_eq; exact H1].
Qed.

Lemma checkDuplicateBackup_false (s : Store) (k : DedupKey) :
  checkDuplicateBackup s k = false <-> ~ In k (map key_of (backups s)).
Proof.
  rewrite <- checkDuplicateBackup_true.
  destruct (checkDuplicateBackup s k); split; congruence.
Qed.



(** ** The status rule *)

Lemma backup_row_status uuid machineId backupName backupId backupDate message row :
  backup_row uuid machineId backupName backupId backupDate message = Ok row ->
  status row = map_status message
  /\ parsed_result row = field message "ParsedResult".
Proof.
  unfold backup_row. intros H.
  destruct (toISOString_or_throw (field message "BeginTime")); [|discriminate].
  destruct (toISOString_or_throw (field message "EndTime")); [|discriminate].
  destruct (optional_date _); [|discriminate].
  destruct (optional_date _); [|discriminate].
  simpl in H. inversion H; subst; split; reflexivity.
Qed.

(** The stored duration is the conversion of the message's [Duration]. *)
Lemma backup_row_duration uuid machineId backupName backupId backupDate message row :
  backup_row uuid machineId backupName backupId backupDate message = Ok row ->
  duration_seconds row
  = num_of_Z (parseDurationToSeconds (field message "Duration")).
Proof.
  unfold backup_row. intros H.
  destruct (toISOString_or_throw (field message "BeginTime")); [|discriminate].
  destruct (toISOString_or_throw (field message "EndTime")); [|discriminate].
  destruct (optional_date _); [|discriminate].
  destruct (optional_date _); [|discriminate].
  simpl in H. inversion H; subst; reflexivity.
Qed.

Lemma is_string_true (v : jsval) (s : string) : is_string v s = true <-> v = Str s.
Proof.
  destruct v; simpl; try (split; [discriminate | intros E; inversion E]).
  rewrite String.eqb_eq. split; [intros ->; reflexivity | intros E; inversion E; auto].
Qed.

Lemma is_string_false (v : jsval) (s : string) : is_string v s = false <-> v <> Str s.
Proof.
  rewrite <- is_string_true. destruct (is_string v s); split; congruence.
Qed.

(** The three cases of the rule. *)
Lemma map_status_cases (message : jsval) :
  (field message "ParsedResult" = Str "Success" ->
   greater_than_zero (field message "WarningsActualLength") = true ->
   map_status message = Str "Warning")
  /\ (field message "ParsedResult" = Str "Success" ->
      greater_than_zero (field message "WarningsActualLength") = false ->
      map_status message = Str "Success")
  /\ (field message "ParsedResult" <> Str "Success" ->
      map_status message = field message "ParsedResult").
Proof.
  unfold map_status. repeat split.
  - intros -> ->. reflexivity.
  - intros -> ->. reflexivity.
  - intros H. apply is_string_false in H. rewrite H. reflexivity.
Qed.

(** A number is greater than zero when its value is. *)
Lemma greater_than_zero_number (q : Q) :
  greater_than_zero (Num (Finite q)) = true <-> (0 < q)%Q.
Proof.
  unfold greater_than_zero, number_positive, Qlt; simpl.
  rewrite Z.ltb_lt. lia.
Qed.

Lemma built_closed : loop_closed (fun st => Forall built (rows_inserted (events st))).
Proof.
  split; simpl; auto.
  intros st row H _ Hb. apply Forall_app; split; [exact H|].
  constructor; [exact Hb | constructor].
Qed.

Lemma inserted_rows_built (request_json : option jsval) (store : Store) :
  Forall built (rows_inserted (events (snd (POST request_json (initial store))))).
Proof.
  apply (POST_preserves _ built_closed); [intros st id name H; exact H|].
  simpl. constructor.
Qed.

(** The stored warnings length is the one of the message, or 0. *)
Lemma backup_row_warnings uuid machineId backupName backupId backupDate message row :
  backup_row uuid machineId backupName backupId backupDate message = Ok row ->
  warnings_actual_length row = or_else (field message "WarningsActualLength") zero.
Proof.
  unfold backup_row. intros H.
  destruct (toISOString_or_throw (field message "BeginTime")); [|discriminate].
  destruct (toISOString_or_throw (field message "EndTime")); [|discriminate].
  destruct (optional_date _); [|discriminate].
  destruct (optional_date _); [|discriminate].
  simpl in H. inversion H; subst; reflexivity.
Qed.

(** A number is not greater than zero when its value is at most zero. *)
Lemma greater_than_zero_nonpositive (q : Q) :
  greater_than_zero (Num (Finite q)) = false <-> (q <= 0)%Q.
Proof.
  unfold greater_than_zero, number_positive, Qle; simpl.
  rewrite Z.ltb_ge. lia.
Qed.

(** [undefined > 0] and [null > 0] are false. *)
Lemma greater_than_zero_nullish (v : jsval) :
  nullish v = true -> greater_than_zero v = false.
Proof. destruct v; try discriminate; reflexivity. Qed.

(** C2. Status rule. Every record an invocation inserts comes from the
    decoded message of a log entry that passed the filter; its stored
    parsed result is the message's [ParsedResult], its stored warnings
    length is the message's [WarningsActualLength] (0 when that is falsy),
    and its stored status is the parsed result, except that [Success] with
    a warnings length greater than zero is stored as [Warning]: when the
    warnings length is a number [q], [Success] is stored as [Warning] if
    [0 < q] and is stored unchanged if [q <= 0] (so for 0); it is stored
    unchanged too when the warnings length is absent or [null]; for the
    other values the comparison is the one of JavaScript. Every other
    parsed result (so also [Error], whatever its error count) is stored
    unmodified. *)
Theorem status_override (request_json : option jsval) (store : Store)
  (row : BackupRow) :
  In row (rows_inserted (events (snd (POST request_json (initial store))))) ->
  exists log message,
    is_backup_message log = true
    /\ parse_message log = Ok message
    /\ parsed_result row = field message "ParsedResult"
    /\ warnings_actual_length row
       = or_else (field message "WarningsActualLength") zero
    /\ (field message "ParsedResult" = Str "Success" ->
        forall q, field message "WarningsActualLength" = Num (Finite q) ->
          (0 < q)%Q -> status row = Str "Warning")
    /\ (field message "ParsedResult" = Str "Success" ->
        forall q, field message "WarningsActualLength" = Num (Finite q) ->
          (q <= 0)%Q -> status row = Str "Success")
    /\ (field message "ParsedResult" = Str "Success" ->
        nullish (field message "WarningsActualLength") = true ->
        status row = Str "Success")
    /\ (field message "ParsedResult" = Str "Success" ->
        greater_than_zero (field message "WarningsActualLength") = true ->
        status row = Str "Warning")
    /\ (field message "ParsedResult" = Str "Success" ->
        greater_than_zero (field message "WarningsActualLength") = false ->
        status row = Str "Success")
    /\ (field message "ParsedResult" <> Str "Success" ->
        status row = field message "ParsedResult").
Proof.
  intros Hin.
  pose proof (inserted_rows_built request_json store) as Hall.
  rewrite Forall_forall in Hall. specialize (Hall row Hin).
  destruct Hall as (backupId & uuid & log & message & k & Hkept & Hparse & Hrow).
  destruct k as [[machineId backupName] backupDate]; simpl in Hrow.
  pose proof (backup_row_warnings _ _ _ _ _ _ _ Hrow) as Hw.
  apply backup_row_status in Hrow as [Hs Hp].
  exists log, message. rewrite Hs.
  destruct (map_status_cases message) as (C1 & C2 & C3).
  split; [exact Hkept|]. split; [exact Hparse|]. split; [exact Hp|].
  split; [exact Hw|]. split.
  { intros Hr q Hq Hpos. apply C1; [exact Hr|].
    rewrite Hq. apply greater_than_zero_number. exact Hpos. }
  split.
  { intros Hr q Hq Hle. apply C2; [exact Hr|].
    rewrite Hq. apply greater_than_zero_nonpositive. exact Hle. }
  split.
  { intros Hr Hn. apply C2; [exact Hr|].
    apply greater_than_zero_nullish. exact Hn. }
  split; [exact C1|]. split; [exact C2 | exact C3].
Qed.

(** ** Validation of the request *)

(** A body that cannot be destructured is answered with the 500 answer,
    and nothing is requested, read or written either. *)
Lemma unreadable_body (request_json : option jsval) (st : State) :
  match request_json with
  | None => True
  | Some body => nullish body = true
  end ->
  exists e, POST request_json st = (ServerError e, st).
Proof.
  unfold POST, handler. destruct request_json as [body|]; intros H.
  - unfold bind, lift, validate. rewrite H. exists TypeError; reflexivity.
  - exists SyntaxError; reflexivity.
Qed.

(** The inputs of C5: the hostname is missing, the password is missing, or
    the scheme (http when the request names none) is neither [http] nor
    [https]. A request without a body that decodes ([None]) and a body
    [null] have neither hostname nor password. *)
Definition misconfigured (request_json : option jsval) : Prop :=
  match request_json with
  | None => True
  | Some body =>
      truthy (field body "hostname") = false
      \/ truthy (field body "password") = false
      \/ (default_to (field body "protocol") (Str "http") <> Str "http"
          /\ default_to (field body "protocol") (Str "http") <> Str "https")
  end.

(** The message of the first check that fails. *)
Definition configuration_message (body : jsval) : string :=
  if negb (truthy (field body "hostname")) then "Hostname is required"
  else if negb (truthy (field body "password")) then "Password is required"
  else "Protocol must be either " ++ quoted "http" ++ " or " ++ quoted "https".

(** The claim about configuration errors, as the specification words it:
    every such input is answered with the configuration error. *)
Definition configuration_as_claimed : Prop :=
  forall request_json st,
    misconfigured request_json ->
    exists message, POST request_json st = (BadRequest message, st).

(** C5. Configuration errors. When the hostname of the request is missing
    (falsy), or its password is, or its protocol is neither [http] nor
    [https] (the protocol of a request that names none is [http]): if the
    body is a JSON value other than [null], the handler answers with the
    400 answer that carries the message of the first check that fails; if
    the body is [null] or does not decode, the handler answers with the 500
    answer instead. In both cases the state is the state before: no request
    was sent, and the store was neither consulted nor changed. *)
Theorem configuration_error (request_json : option jsval) (st : State) :
  misconfigured request_json ->
  match request_json with
  | Some body =>
      if nullish body
      then exists e, POST request_json st = (ServerError e, st)
      else POST request_json st = (BadRequest (configuration_message body), st)
  | None => exists e, POST request_json st = (ServerError e, st)
  end.
Proof.
  destruct request_json as [body|]; intros H.
  - destruct (nullish body) eqn:Hbody.
    + apply unreadable_body. exact Hbody.
    + simpl in H.
      unfold POST, handler, bind, lift, validate, configuration_message.
      rewrite Hbody.
      destruct (truthy (field body "hostname")) eqn:Hh; simpl; [|reflexivity].
      destruct (truthy (field body "password")) eqn:Hp; simpl; [|reflexivity].
      destruct H as [H|[H|[H1 H2]]]; try discriminate.
      apply is_string_false in H1, H2. rewrite H1, H2. simpl. reflexivity.
  - apply (unreadable_body None). exact I.
Qed.

(** ** The filter *)

(** The decoded message of a log entry, when there is one. *)
Definition decoded (log : jsval) : option jsval :=
  match getprop log "Message" with
  | Ok text => JSON_parse (ToString text)
  | Throw _ => None
  end.

(** Log noise: an entry whose message does not decode, or decodes to
    something whose [MainOperation] is not [Backup]. *)
Definition noise (log : jsval) : Prop :=
  decoded log = None
  \/ exists messageObj,
       decoded log = Some messageObj
       /\ field messageObj "MainOperation" <> Str "Backup".

Lemma noise_filtered (log : jsval) : noise log <-> is_backup_message log = false.
Proof.
  unfold noise, decoded, is_backup_message, opt_field.
  destruct (getprop log "Message") as [text|e].
  - destruct (JSON_parse (ToString text)) as [messageObj|].
    + rewrite is_string_false. split.
      * intros [H|(m & Hm & H)]; [discriminate | inversion Hm; subst; exact H].
      * intros H; right; exists messageObj; auto.
    + split; auto.
  - split; auto.
Qed.

(** C6. Log noise. A log entry whose message does not decode as JSON, or
    whose decoded [MainOperation] is anything but [Backup], leaves no
    trace: the handling of a log response that contains it has the same
    outcome and ends in the same state (store, operations, identifiers
    drawn and the three counters) as the handling of the response without
    it. *)
Theorem noise_is_ignored (machineId : jsval) (backups : list jsval) (i : nat)
  (backupId : jsval) (ok : bool) (status : nat) (statusText : string)
  (before after : list jsval) (entry : jsval) (st : State) :
  noise entry ->
  let with_entry :=
    {| Http.ok := ok; Http.status := status; Http.statusText := statusText;
       Http.json := Arr (before ++ entry :: after) |} in
  let without_entry :=
    {| Http.ok := ok; Http.status := status; Http.statusText := statusText;
       Http.json := Arr (before ++ after) |} in
  collect_logs machineId backups i backupId with_entry st
  = collect_logs machineId backups i backupId without_entry st
  /\ try_catch (collect_logs machineId backups i backupId with_entry)
       (fun _ => incr_error) st
     = try_catch (collect_logs machineId backups i backupId without_entry)
         (fun _ => incr_error) st.
Proof.
  intros H with_entry without_entry. apply noise_filtered in H.
  assert (E : collect_logs machineId backups i backupId with_entry st
              = collect_logs machineId backups i backupId without_entry st).
  { unfold collect_logs; simpl. destruct ok; simpl; [|reflexivity].
    unfold bind, lift; simpl.
    rewrite !filter_app; simpl. rewrite H. reflexivity. }
  split; [exact E | unfold try_catch; rewrite E; reflexivity].
Qed.

(** ** The course of an invocation *)

(** What the list request yields, given what the remote end did. *)
Definition listed (answer : Exn + Http.Incoming) : result (list jsval) :=
  rbind (resolve answer) (fun backupsResponse =>
    if negb (Http.ok backupsResponse) then
      Throw (Error ("Failed to get backups list: "
                    ++ Http.statusText backupsResponse))
    else as_array (Http.json backupsResponse)).

Lemma list_backups_unfold t authToken st :
  list_backups t authToken st =
  (listed (remote (events st) (backups_request (baseUrl t) (agent t) authToken)),
   record_event (Requested (backups_request (baseUrl t) (agent t) authToken)) st).
Proof.
  unfold list_backups, listed, bind, makeRequest, lift, throw.
  destruct (resolve _) as [r|e]; simpl; [|reflexivity].
  destruct (negb (Http.ok r)); reflexivity.
Qed.

Lemma collect_backup_unfold baseUrl agent authToken machineId backups i backupId st :
  collect_backup baseUrl agent authToken machineId backups i backupId st =
  let request := log_request baseUrl agent authToken backupId in
  match resolve (remote (events st) request) with
  | Ok logResponse =>
      collect_logs machineId backups i backupId logResponse
        (record_event (Requested request) st)
  | Throw e => (Throw e, record_event (Requested request) st)
  end.
Proof.
  unfold collect_backup, bind, makeRequest; simpl.
  destruct (resolve _); reflexivity.
Qed.

Lemma identify_state t st authToken machineId machineName st1 :
  identify t st = (Ok (authToken, machineId, machineName), st1) ->
  st1 = record_event
          (Requested (systeminfo_request (baseUrl t) (agent t) authToken))
          (record_event
             (Requested (login_request (baseUrl t) (agent t) (password t))) st)
  /\ truthy machineId = true /\ truthy machineName = true.
Proof.
  unfold identify. intros H.
  apply bind_Ok in H as (loginResponse & s1 & H1 & H).
  unfold makeRequest in H1. inversion H1 as [[Hr Hs1]]. clear H1.
  destruct (negb (Http.ok loginResponse)); [discriminate|].
  apply bind_Ok in H as (token & s2 & H2 & H).
  apply lift_Ok in H2 as [H2 ->].
  destruct (negb (truthy token)); [discriminate|].
  apply bind_Ok in H as (systemInfoResponse & s3 & H3 & H).
  unfold makeRequest in H3. inversion H3 as [[Hr3 Hs3]]. clear H3.
  destruct (negb (Http.ok systemInfoResponse)); [discriminate|].
  apply bind_Ok in H as (id & s4 & H4 & H). apply lift_Ok in H4 as [H4 ->].
  apply bind_Ok in H as (name & s5 & H5 & H). apply lift_Ok in H5 as [H5 ->].
  destruct (truthy id) eqn:Hid, (truthy name) eqn:Hname; simpl in H;
    try discriminate.
  inversion H; subst. auto.
Qed.

(** The state right after the upsert of Step 2. *)
Definition upserted (machineId machineName : jsval) (st : State) : State :=
  record_event (MachineUpserted machineId machineName)
    (with_db (upsertMachine (db st) machineId machineName) st).

Lemma guarded_returns baseUrl agent authToken machineId backups job st :
  fst (collect_backup_guarded baseUrl agent authToken machineId backups job st)
  = Ok tt.
Proof.
  unfold collect_backup_guarded, try_catch.
  destruct (collect_backup _ _ _ _ _ _ _ st) as [[[]|e] s]; reflexivity.
Qed.

Lemma process_backups_returns baseUrl agent authToken machineId backups backupIds st :
  fst (process_backups baseUrl agent authToken machineId backups backupIds st)
  = Ok tt.
Proof.
  unfold process_backups. generalize (indexed backupIds) as jobs.
  intros jobs; revert st; induction jobs as [|job rest IH]; intros st; simpl.
  - reflexivity.
  - unfold bind.
    pose proof (guarded_returns baseUrl agent authToken machineId backups job st) as H.
    destruct (collect_backup_guarded _ _ _ _ _ job st) as [[[]|e] s]; simpl in H;
      [apply IH | discriminate].
Qed.

(** The handler, once the request is accepted and Steps 1 and 2 have
    succeeded. *)
Lemma POST_unfold body t st authToken machineId machineName st1 :
  validate body = Ok (inr t) ->
  identify t st = (Ok (authToken, machineId, machineName), st1) ->
  POST (Some body) st =
  let st2 := upserted machineId machineName st1 in
  let request := backups_request (baseUrl t) (agent t) authToken in
  let st3 := record_event (Requested request) st2 in
  match listed (remote (events st2) request) with
  | Throw e => (ServerError e, st3)
  | Ok backups =>
      match map_result backup_ID backups with
      | Throw e => (ServerError e, st3)
      | Ok [] => (NoBackupsFound, st3)
      | Ok backupIds =>
          let st4 :=
            snd (process_backups (baseUrl t) (agent t) authToken machineId
                   backups backupIds st3) in
          (Stats (processedCount st4) (skippedCount st4) (errorCount st4), st4)
      end
  end.
Proof.
  intros Hv Hi. unfold POST, handler.
  unfold bind at 1. unfold lift at 1. rewrite Hv.
  unfold collect. rewrite (bind_run _ _ _ _ _ Hi).
  unfold bind at 1. unfold upsertMachine_run at 1.
  unfold bind at 1. rewrite list_backups_unfold.
  fold (upserted machineId machineName st1).
  destruct (listed _) as [backups|e]; [|reflexivity].
  unfold bind at 1. unfold lift at 1.
  destruct (map_result backup_ID backups) as [[|backupId rest]|e];
    [reflexivity | | reflexivity].
  unfold bind, report.
  pose proof (process_backups_returns (baseUrl t) (agent t) authToken machineId
                backups (backupId :: rest)
                (record_event
                   (Requested (backups_request (baseUrl t) (agent t) authToken))
                   (upserted machineId machineName st1))) as H.
  destruct (process_backups _ _ _ _ _ _ _) as [[[]|e] s]; simpl in *;
    [reflexivity | discriminate].
Qed.

Lemma extension_closed (table : list (jsval * jsval)) (before : list Event) :
  loop_closed (fun st =>
    machines (db st) = table
    /\ exists later, events st = (later ++ before)%list).
Proof.
  split; simpl.
  - intros st request [H1 [later H2]]. split; [exact H1|].
    exists (Requested request :: later). rewrite H2; reflexivity.
  - intros st k [H1 [later H2]] _. split; [exact H1|].
    exists (DuplicateChecked k true :: later). rewrite H2; reflexivity.
  - intros st k [H1 [later H2]] _. split; [exact H1|].
    exists (DuplicateChecked k false :: later). rewrite H2; reflexivity.
  - intros st row [H1 [later H2]] _ _. split; [exact H1|].
    exists (BackupInserted row :: DuplicateChecked (key_of row) false :: later).
    rewrite H2; reflexivity.
  - intros st [H1 [later H2]]. split; [exact H1|].
    exists later; exact H2.
Qed.

Lemma upsert_find (id name : jsval) (table : list (jsval * jsval)) :
  find (fun m => jsval_eqb (fst m) id) (upsert id name table) = Some (id, name).
Proof.
  induction table as [|[id' name'] rest IH]; simpl.
  - rewrite jsval_eqb_refl; reflexivity.
  - destruct (jsval_eqb id' id) eqn:E; simpl.
    + rewrite jsval_eqb_refl; reflexivity.
    + rewrite E; exact IH.
Qed.

(** The operations of Steps 1 to 3, in order. *)
Definition inventory_operations (t : Target) (authToken machineId machineName : jsval)
  : list Event :=
  [ Requested (login_request (baseUrl t) (agent t) (password t));
    Requested (systeminfo_request (baseUrl t) (agent t) authToken);
    MachineUpserted machineId machineName;
    Requested (backups_request (baseUrl t) (agent t) authToken) ].

(** C7. Empty inventory. When the request is accepted, Steps 1 and 2
    succeed and the remote end answers the list request with an empty list,
    the handler gives the answer [NoBackupsFound] (not a counted answer and
    not an error); the operations of the invocation are the login, the
    system-info request, the machine upsert and the list request, and
    nothing else: no log is requested, no lookup and no insert takes place,
    the backup rows and the counters are as before. *)
Theorem empty_inventory (body : jsval) (t : Target) (st st1 : State)
  (authToken machineId machineName : jsval) :
  validate body = Ok (inr t) ->
  identify t st = (Ok (authToken, machineId, machineName), st1) ->
  (forall history,
     listed (remote history (backups_request (baseUrl t) (agent t) authToken))
     = Ok []) ->
  exists st',
    POST (Some body) st = (NoBackupsFound, st')
    /\ timeline st' =
       (timeline st ++ inventory_operations t authToken machineId machineName)%list
    /\ backups (db st') = backups (db st)
    /\ processedCount st' = processedCount st
    /\ skippedCount st' = skippedCount st
    /\ errorCount st' = errorCount st.
Proof.
  intros Hv Hi Hl.
  rewrite (POST_unfold _ _ _ _ _ _ _ Hv Hi); simpl.
  rewrite Hl; simpl. eexists; split; [reflexivity|].
  apply identify_state in Hi as (-> & _ & _).
  unfold timeline; simpl. rewrite <- !app_assoc; simpl. auto.
Qed.

(** C10. The machine upsert precedes the list request. In every invocation
    whose request is accepted and whose Steps 1 and 2 succeed, whatever
    happens afterwards and whatever the answer is, the operations begin
    with the login, the system-info request, the machine upsert and the
    list request, in this order; the machine table at the end is the table
    at the start with the machine upserted, so the machine id is mapped to
    the machine name, and the store at the end differs from the store at
    the start unless it already mapped the id to that name. In particular,
    when the list request fails the handler gives the 500 answer and the
    store is the store at the start with the machine upserted. *)
Theorem machine_upsert_precedes_listing (body : jsval) (t : Target)
  (st st1 st' : State) (authToken machineId machineName : jsval)
  (response : Response) :
  validate body = Ok (inr t) ->
  identify t st = (Ok (authToken, machineId, machineName), st1) ->
  POST (Some body) st = (response, st') ->
  (exists later,
     timeline st' =
     (timeline st ++ inventory_operations t authToken machineId machineName
      ++ later)%list)
  /\ machines (db st') = upsert machineId machineName (machines (db st))
  /\ machine_name (db st') machineId = Some machineName
  /\ (machine_name (db st) machineId <> Some machineName -> db st' <> db st)
  /\ (forall e,
        (forall history,
           listed (remote history
                     (backups_request (baseUrl t) (agent t) authToken))
           = Throw e) ->
        response = ServerError e
        /\ db st' = upsertMachine (db st) machineId machineName).
Proof.
  intros Hv Hi HP.
  rewrite (POST_unfold _ _ _ _ _ _ _ Hv Hi) in HP; cbv zeta in HP.
  apply identify_state in Hi as (-> & _ & _).
  set (st2 := upserted machineId machineName _) in *.
  set (request := backups_request (baseUrl t) (agent t) authToken) in *.
  set (st3 := record_event (Requested request) st2) in *.
  assert (Hbase : exists later,
             events st' = (later ++ events st3)%list
             /\ machines (db st') = machines (db st3)).
  { destruct (listed (remote (events st2) request)) as [backups|e] eqn:Hl.
    - destruct (map_result backup_ID backups) as [[|backupId rest]|e].
      + inversion HP; subst. exists []; auto.
      + inversion HP as [[Hr Hs]]. clear HP.
        destruct (process_backups_preserves _
                    (extension_closed (machines (db st3)) (events st3))
                    (baseUrl t) (agent t) authToken machineId backups
                    (backupId :: rest) st3
                    (conj eq_refl (ex_intro _ [] eq_refl)))
          as [Hm [later He]].
        exists later. split; assumption.
      + inversion HP; subst. exists []; auto.
    - inversion HP; subst. exists []; auto. }
  destruct Hbase as (later & He & Hm).
  assert (Hname : machine_name (db st') machineId = Some machineName).
  { unfold machine_name. rewrite Hm. unfold st3, st2, upserted; simpl.
    rewrite upsert_find; reflexivity. }
  split; [|split; [|split; [|split]]].
  - exists (rev later). unfold timeline. rewrite He, rev_app_distr.
    unfold st3, st2, upserted; simpl. rewrite <- !app_assoc; reflexivity.
  - rewrite Hm; reflexivity.
  - exact Hname.
  - intros Hnot Heq. apply Hnot. rewrite <- Heq. exact Hname.
  - intros e H. specialize (H (events st2)). rewrite H in HP.
    inversion HP; split; reflexivity.
Qed.

(** ** Failures within and across jobs *)

Lemma collect_entry_failure machineId backups i backupId log st e st' :
  collect_entry machineId backups i backupId log st = (Throw e, st') ->
  db st' = db st
  /\ processedCount st' = processedCount st
  /\ skippedCount st' = skippedCount st
  /\ errorCount st' = errorCount st
  /\ rows_inserted (events st') = rows_inserted (events st).
Proof.
  rewrite collect_entry_unfold.
  destruct (entry_key machineId backups i backupId log) as [[[message k]|]|e'].
  - destruct (checkDuplicateBackup (db st) k); [discriminate|].
    destruct (entry_row _ _ _ _); [discriminate|].
    intros H; inversion H; subst; simpl; auto.
  - discriminate.
  - intros H; inversion H; subst; auto.
Qed.

Lemma entries_keep_errorCount machineId backups i backupId entries st :
  errorCount (snd (for_of entries (collect_entry machineId backups i backupId) st))
  = errorCount st.
Proof.
  revert st; induction entries as [|log rest IH]; intros st; simpl.
  - reflexivity.
  - unfold bind. rewrite collect_entry_unfold.
    destruct (entry_key machineId backups i backupId log) as [[[message k]|]|e];
      simpl; try apply IH; try reflexivity.
    destruct (checkDuplicateBackup (db st) k); [rewrite IH; reflexivity|].
    destruct (entry_row _ _ _ _); [rewrite IH; reflexivity | reflexivity].
Qed.

(** A malformed begin timestamp makes the entry fail before the store is
    consulted. *)
Lemma malformed_begin_time machineId backups i backupId log message st :
  parse_message log = Ok message ->
  nullish message = false ->
  toISOString (field message "BeginTime") = None ->
  collect_entry machineId backups i backupId log st = (Throw RangeError, st).
Proof.
  intros Hp Hn Hd. rewrite collect_entry_unfold. unfold entry_key.
  rewrite Hp; simpl. unfold getprop. rewrite Hn; simpl.
  unfold toISOString_or_throw. rewrite Hd. reflexivity.
Qed.

(** C9. A failing entry aborts its job. When the log of a job is fetched
    and, among the retained entries, the ones before [failing] are handled
    without failure and the handling of [failing] throws (as it does for a
    malformed begin timestamp), then the turn of the outer loop ends in the
    state reached at the failure with [errorCount] one more than before the
    job: the entries after [failing] play no part, the store and
    [processedCount] are the ones reached after the entries before
    [failing], so the records inserted for the job stay persisted and
    counted. *)
Theorem failing_entry_aborts_job (baseUrl : string) (agent : option bool)
  (authToken machineId : jsval) (backups : list jsval) (i : nat)
  (backupId : jsval) (logResponse : Http.Resolved)
  (logs pre post : list jsval) (failing : jsval) (e : Exn)
  (st st1 st2 : State) :
  let request := log_request baseUrl agent authToken backupId in
  resolve (remote (events st) request) = Ok logResponse ->
  Http.ok logResponse = true ->
  Http.json logResponse = Arr logs ->
  filter is_backup_message logs = (pre ++ failing :: post)%list ->
  for_of pre (collect_entry machineId backups i backupId)
    (record_event (Requested request) st) = (Ok tt, st1) ->
  collect_entry machineId backups i backupId failing st1 = (Throw e, st2) ->
  collect_backup_guarded baseUrl agent authToken machineId backups (i, backupId) st
  = (Ok tt, snd (incr_error st2))
  /\ errorCount (snd (incr_error st2)) = S (errorCount st)
  /\ db (snd (incr_error st2)) = db st1
  /\ processedCount (snd (incr_error st2)) = processedCount st1
  /\ skippedCount (snd (incr_error st2)) = skippedCount st1
  /\ rows_inserted (events (snd (incr_error st2))) = rows_inserted (events st1).
Proof.
  intros request Hr Hok Hjson Hfilter Hpre Hfail.
  pose proof (collect_entry_failure _ _ _ _ _ _ _ _ Hfail)
    as (Hdb & Hp & Hs & He & Hrows).
  pose proof (entries_keep_errorCount machineId backups i backupId pre
                (record_event (Requested request) st)) as Hpre_e.
  rewrite Hpre in Hpre_e; simpl in Hpre_e.
  split.
  - unfold collect_backup_guarded, try_catch; simpl.
    rewrite collect_backup_unfold; cbv zeta. fold request. rewrite Hr.
    unfold collect_logs. rewrite Hok; simpl.
    unfold bind at 1. unfold lift at 1. rewrite Hjson; simpl.
    rewrite Hfilter, for_of_app, Hpre. simpl.
    unfold bind. rewrite Hfail. reflexivity.
  - simpl. repeat split; congruence.
Qed.

(** A job whose log cannot be fetched: the connection fails, the body is
    not JSON, or the status is not a success. *)
Definition fetch_failed (answer : Exn + Http.Incoming) : bool :=
  match resolve answer with
  | Ok logResponse => negb (Http.ok logResponse)
  | Throw _ => true
  end.

(** The log entries of a job whose log is fetched. *)
Definition fetched (answer : Exn + Http.Incoming) : option (list jsval) :=
  match resolve answer with
  | Ok logResponse =>
      if Http.ok logResponse then
        match Http.json logResponse with
        | Arr logs => Some logs
        | _ => None
        end
      else None
  | Throw _ => None
  end.

(** The triple of a valid run: the entry decodes, its start time is a date,
    its backup has a name and its record can be built. *)
Definition run_key (machineId : jsval) (backups : list jsval) (i : nat)
  (backupId : jsval) (log : jsval) : option DedupKey :=
  match entry_key machineId backups i backupId log with
  | Ok (Some (message, k)) =>
      match entry_row backupId "" message k with
      | Ok _ => Some k
      | Throw _ => None
      end
  | _ => None
  end.

Lemma entry_row_uuid backupId uuid uuid' message k row :
  entry_row backupId uuid message k = Ok row ->
  exists row', entry_row backupId uuid' message k = Ok row'.
Proof.
  destruct k as [[machineId backupName] backupDate]; simpl. unfold backup_row.
  destruct (toISOString_or_throw (field message "BeginTime")); [|discriminate].
  destruct (toISOString_or_throw (field message "EndTime")); [|discriminate].
  destruct (optional_date _); [|discriminate].
  destruct (optional_date _); [|discriminate].
  simpl. intros _. eexists; reflexivity.
Qed.

Lemma present_closed (k : DedupKey) :
  loop_closed (fun st => checkDuplicateBackup (db st) k = true).
Proof.
  split; try (intros; simpl; assumption).
  intros st row H _ _. unfold checkDuplicateBackup, inserted_state in *.
  cbn [db backups]. rewrite existsb_app, H. reflexivity.
Qed.

Lemma valid_entries_persisted machineId backups i backupId entries st :
  (forall log, In log entries -> is_backup_message log = true) ->
  Forall (fun log => run_key machineId backups i backupId log <> None) entries ->
  exists st',
    for_of entries (collect_entry machineId backups i backupId) st = (Ok tt, st')
    /\ errorCount st' = errorCount st
    /\ (forall k, checkDuplicateBackup (db st) k = true ->
                  checkDuplicateBackup (db st') k = true)
    /\ (forall log k, In log entries ->
          run_key machineId backups i backupId log = Some k ->
          checkDuplicateBackup (db st') k = true).
Proof.
  revert st; induction entries as [|log rest IH]; intros st Hkept Hvalid.
  - exists st; simpl. repeat split; auto.
  - inversion Hvalid as [|? ? Hlog Hrest]; subst.
    assert (Hstep : exists s,
               collect_entry machineId backups i backupId log st = (Ok tt, s)
               /\ errorCount s = errorCount st
               /\ (forall k, checkDuplicateBackup (db st) k = true ->
                             checkDuplicateBackup (db s) k = true)
               /\ (forall k, run_key machineId backups i backupId log = Some k ->
                             checkDuplicateBackup (db s) k = true)).
    { rewrite collect_entry_unfold. unfold run_key in *.
      destruct (entry_key machineId backups i backupId log)
        as [[[message k]|]|e]; try congruence.
      destruct (entry_row backupId "" message k) as [row0|e0] eqn:Hrow0;
        try congruence.
      destruct (checkDuplicateBackup (db st) k) eqn:Hdup.
      - exists (skipped_state k st). repeat split; auto.
        intros k' Hk'; inversion Hk'; subst; exact Hdup.
      - destruct (entry_row_uuid _ _ (uuidv4 (uuids st)) _ _ _ Hrow0) as [row Hrow].
        rewrite Hrow. exists (inserted_state row st).
        pose proof (entry_row_key _ _ _ _ _ Hrow) as Hk.
        repeat split; auto.
        + intros k' Hk'. unfold checkDuplicateBackup, inserted_state in *.
          cbn [db Sink.backups]. rewrite existsb_app, Hk'. reflexivity.
        + intros k' Hk'; inversion Hk'; subst.
          unfold checkDuplicateBackup, inserted_state. cbn [db Sink.backups].
          rewrite existsb_app; cbn [existsb].
          assert (E : key_eqb (key_of row) (key_of row) = true)
            by (apply key_eqb_eq; reflexivity).
          rewrite E. rewrite orb_true_r. reflexivity. }
    destruct Hstep as (s & Hs & He & Hmono & Hhead).
    destruct (IH s) as (st' & Hrun & He' & Hmono' & Htail); auto.
    { intros l Hl; apply Hkept; right; exact Hl. }
    exists st'. simpl. rewrite (bind_run _ _ _ _ _ Hs).
    repeat split; auto; try congruence.
    intros l k [<-|Hl] Hk; eauto.
Qed.

Lemma healthy_job baseUrl agent authToken machineId backups i backupId logs st :
  fetched (remote (events st) (log_request baseUrl agent authToken backupId))
  = Some logs ->
  Forall (fun log => run_key machineId backups i backupId log <> None)
    (filter is_backup_message logs) ->
  exists st',
    collect_backup_guarded baseUrl agent authToken machineId backups (i, backupId) st
    = (Ok tt, st')
    /\ errorCount st' = errorCount st
    /\ (forall k, checkDuplicateBackup (db st) k = true ->
                  checkDuplicateBackup (db st') k = true)
    /\ (forall log k, In log logs -> is_backup_message log = true ->
          run_key machineId backups i backupId log = Some k ->
          checkDuplicateBackup (db st') k = true).
Proof.
  intros Hf Hvalid. unfold fetched in Hf.
  destruct (resolve _) as [logResponse|e] eqn:Hr; [|discriminate].
  destruct (Http.ok logResponse) eqn:Hok; [|discriminate].
  destruct (Http.json logResponse) as [| | | | |elems|] eqn:Hjson; try discriminate.
  inversion Hf; subst elems.
  destruct (valid_entries_persisted machineId backups i backupId
              (filter is_backup_message logs)
              (record_event
                 (Requested (log_request baseUrl agent authToken backupId)) st))
    as (st' & Hrun & He & Hmono & Hkeys); auto.
  { intros log Hin. apply filter_In in Hin. apply Hin. }
  exists st'. split.
  - unfold collect_backup_guarded, try_catch; simpl.
    rewrite collect_backup_unfold; cbv zeta. rewrite Hr.
    unfold collect_logs. rewrite Hok; simpl.
    unfold bind at 1. unfold lift at 1. rewrite Hjson; simpl.
    rewrite Hrun. reflexivity.
  - repeat split; auto.
    intros log k Hin Hkept. apply Hkeys. apply filter_In; auto.
Qed.

Lemma failing_job baseUrl agent authToken machineId backups i backupId st :
  fetch_failed (remote (events st) (log_request baseUrl agent authToken backupId))
  = true ->
  exists st',
    collect_backup_guarded baseUrl agent authToken machineId backups (i, backupId) st
    = (Ok tt, st')
    /\ errorCount st' = S (errorCount st)
    /\ db st' = db st.
Proof.
  intros Hf. unfold fetch_failed in Hf.
  unfold collect_backup_guarded, try_catch; simpl.
  rewrite collect_backup_unfold; cbv zeta.
  destruct (resolve _) as [logResponse|e].
  - unfold collect_logs. rewrite Hf. unfold throw.
    eexists; split; [reflexivity | split; reflexivity].
  - eexists; split; [reflexivity | split; reflexivity].
Qed.

(** C4. Partial failure isolation. When the request is accepted, Steps 1
    and 2 succeed, the remote end lists the three jobs A, B and C, the log
    of B cannot be fetched (the connection fails, the body is not JSON or
    the status is not a success) while the logs of A and of C are fetched
    and each of their retained entries is a valid run, then the handler
    gives a counted answer whose error count is one more than the error
    count at the start (so at least 1), and the triple of every valid run
    of A and of C is in the store at the end. *)
Theorem partial_failure_isolation (body : jsval) (t : Target) (st st1 : State)
  (authToken machineId machineName : jsval) (A B C idA idB idC : jsval)
  (logsA logsC : list jsval) :
  validate body = Ok (inr t) ->
  identify t st = (Ok (authToken, machineId, machineName), st1) ->
  (forall history,
     listed (remote history (backups_request (baseUrl t) (agent t) authToken))
     = Ok [A; B; C]) ->
  map_result backup_ID [A; B; C] = Ok [idA; idB; idC] ->
  (forall history,
     fetch_failed
       (remote history (log_request (baseUrl t) (agent t) authToken idB))
     = true) ->
  (forall history,
     fetched (remote history (log_request (baseUrl t) (agent t) authToken idA))
     = Some logsA) ->
  (forall history,
     fetched (remote history (log_request (baseUrl t) (agent t) authToken idC))
     = Some logsC) ->
  Forall (fun log => run_key machineId [A; B; C] 0 idA log <> None)
    (filter is_backup_message logsA) ->
  Forall (fun log => run_key machineId [A; B; C] 2 idC log <> None)
    (filter is_backup_message logsC) ->
  exists processed skipped errors st',
    POST (Some body) st = (Stats processed skipped errors, st')
    /\ errors = S (errorCount st)
    /\ 1 <= errors
    /\ (forall log k, In log logsA -> is_backup_message log = true ->
          run_key machineId [A; B; C] 0 idA log = Some k ->
          checkDuplicateBackup (db st') k = true)
    /\ (forall log k, In log logsC -> is_backup_message log = true ->
          run_key machineId [A; B; C] 2 idC log = Some k ->
          checkDuplicateBackup (db st') k = true).
Proof.
  intros Hv Hi Hl Hids HB HA HC HvalidA HvalidC.
  rewrite (POST_unfold _ _ _ _ _ _ _ Hv Hi); cbv zeta.
  rewrite Hl, Hids.
  apply identify_state in Hi as (-> & _ & _).
  set (st3 := record_event _ (upserted machineId machineName _)).
  assert (He3 : errorCount st3 = errorCount st) by reflexivity.
  unfold process_backups, indexed; simpl.
  destruct (healthy_job (baseUrl t) (agent t) authToken machineId [A; B; C]
              0 idA logsA st3 (HA _) HvalidA)
    as (sA & HrunA & HeA & _ & HkeysA).
  destruct (failing_job (baseUrl t) (agent t) authToken machineId [A; B; C]
              1 idB sA (HB _))
    as (sB & HrunB & HeB & HdbB).
  destruct (healthy_job (baseUrl t) (agent t) authToken machineId [A; B; C]
              2 idC logsC sB (HC _) HvalidC)
    as (sC & HrunC & HeC & HmonoC & HkeysC).
  rewrite (bind_run _ _ _ _ _ HrunA), (bind_run _ _ _ _ _ HrunB),
    (bind_run _ _ _ _ _ HrunC).
  simpl. do 4 eexists. split; [reflexivity|].
  repeat split.
  - congruence.
  - lia.
  - intros log k Hin Hkept Hk. apply HmonoC. rewrite HdbB. eauto.
  - exact HkeysC.
Qed.

(** The claim about partial failures, as the specification words it: it
    asks of the logs of A and of C only that they are fetched, and promises
    every valid run of theirs in the store. *)
Definition isolation_as_claimed (body : jsval) (st : State) : Prop :=
  forall (t : Target) (st1 : State) (authToken machineId machineName : jsval)
         (A B C idA idB idC : jsval) (logsA logsC : list jsval),
    validate body = Ok (inr t) ->
    identify t st = (Ok (authToken, machineId, machineName), st1) ->
    (forall history,
       listed (remote history (backups_request (baseUrl t) (agent t) authToken))
       = Ok [A; B; C]) ->
    map_result backup_ID [A; B; C] = Ok [idA; idB; idC] ->
    (forall history,
       fetch_failed
         (remote history (log_request (baseUrl t) (agent t) authToken idB))
       = true) ->
    (forall history,
       fetched (remote history (log_request (baseUrl t) (agent t) authToken idA))
       = Some logsA) ->
    (forall history,
       fetched (remote history (log_request (baseUrl t) (agent t) authToken idC))
       = Some logsC) ->
    exists processed skipped errors st',
      POST (Some body) st = (Stats processed skipped errors, st')
      /\ 1 <= errors
      /\ (forall log k, In log logsA -> is_backup_message log = true ->
            run_key machineId [A; B; C] 0 idA log = Some k ->
            checkDuplicateBackup (db st') k = true)
      /\ (forall log k, In log logsC -> is_backup_message log = true ->
            run_key machineId [A; B; C] 2 idC log = Some k ->
            checkDuplicateBackup (db st') k = true).

(** ** Two invocations in succession *)

Lemma validate_inl body response :
  validate body = Ok (inl response) -> exists message, response = BadRequest message.
Proof.
  unfold validate. destruct (nullish body); [discriminate|].
  destruct (negb (truthy (field body "hostname")));
    [intros H; inversion H; eexists; reflexivity|].
  destruct (negb (truthy (field body "password")));
    [intros H; inversion H; eexists; reflexivity|].
  destruct (_ && _); [intros H; inversion H; eexists; reflexivity | discriminate].
Qed.

(** What a counted answer tells about the invocation. *)
Lemma POST_Stats request_json st processed skipped errors st' :
  POST request_json st = (Stats processed skipped errors, st') ->
  exists body t authToken machineId machineName st1 backups backupIds,
    request_json = Some body
    /\ validate body = Ok (inr t)
    /\ identify t st = (Ok (authToken, machineId, machineName), st1)
    /\ listed (remote (events (upserted machineId machineName st1))
                 (backups_request (baseUrl t) (agent t) authToken))
       = Ok backups
    /\ map_result backup_ID backups = Ok backupIds
    /\ backupIds <> []
    /\ st' = snd (process_backups (baseUrl t) (agent t) authToken machineId
                    backups backupIds
                    (record_event
                       (Requested (backups_request (baseUrl t) (agent t) authToken))
                       (upserted machineId machineName st1)))
    /\ processed = processedCount st'
    /\ skipped = skippedCount st'
    /\ errors = errorCount st'.
Proof.
  intros HP.
  destruct request_json as [body|]; [|discriminate].
  destruct (validate body) as [[response|t]|e] eqn:Hv.
  - apply validate_inl in Hv as Hm. destruct Hm as [message ->].
    unfold POST, handler, bind, lift in HP. rewrite Hv in HP. discriminate.
  - destruct (identify t st) as [[[[authToken machineId] machineName]|e] st1] eqn:Hi.
    + rewrite (POST_unfold _ _ _ _ _ _ _ Hv Hi) in HP; cbv zeta in HP.
      destruct (listed _) as [backups|e] eqn:Hl; [|discriminate].
      destruct (map_result backup_ID backups) as [[|backupId rest]|e] eqn:Hids;
        try discriminate.
      inversion HP; subst.
      exists body, t, authToken, machineId, machineName, st1, backups,
        (backupId :: rest).
      repeat split; auto. discriminate.
    + unfold POST, handler in HP. unfold bind at 1 in HP. unfold lift at 1 in HP.
      rewrite Hv in HP. unfold collect in HP.
      rewrite (bind_fail _ _ _ _ _ Hi) in HP. discriminate.
  - unfold POST, handler, bind, lift in HP. rewrite Hv in HP. discriminate.
Qed.

(** The remote end answers a request in the same way whatever happened
    before: its history is unchanged between and during invocations. *)
Definition stateless : Prop :=
  forall (history history' : list Event) (request : Http.Request),
    remote history request = remote history' request.

(** What Step 1 yields, given what the remote end did. *)
Definition token_of (answer : Exn + Http.Incoming) : result jsval :=
  rbind (resolve answer) (fun loginResponse =>
    if negb (Http.ok loginResponse) then
      Throw (Error ("Login failed: " ++ Http.statusText loginResponse))
    else
      rbind (getprop (Http.json loginResponse) "AccessToken") (fun authToken =>
        if negb (truthy authToken) then
          Throw (Error "No authentication token received")
        else Ok authToken)).

(** What Step 2 yields, given what the remote end did. *)
Definition machine_of (answer : Exn + Http.Incoming) : result (jsval * jsval) :=
  rbind (resolve answer) (fun systemInfoResponse =>
    if negb (Http.ok systemInfoResponse) then
      Throw (Error ("Failed to get system info: "
                    ++ Http.statusText systemInfoResponse))
    else
      rbind (machine_id_of (Http.json systemInfoResponse)) (fun machineId =>
      rbind (getprop (Http.json systemInfoResponse) "MachineName") (fun machineName =>
        if negb (truthy machineId) || negb (truthy machineName) then
          Throw (Error "Could not get machine information")
        else Ok (machineId, machineName)))).

Lemma identify_unfold t st :
  identify t st =
  let login := login_request (baseUrl t) (agent t) (password t) in
  let st1 := record_event (Requested login) st in
  match token_of (remote (events st) login) with
  | Throw e => (Throw e, st1)
  | Ok authToken =>
      let request := systeminfo_request (baseUrl t) (agent t) authToken in
      match machine_of (remote (events st1) request) with
      | Throw e => (Throw e, record_event (Requested request) st1)
      | Ok (machineId, machineName) =>
          (Ok (authToken, machineId, machineName),
           record_event (Requested request) st1)
      end
  end.
Proof.
  unfold identify, token_of, machine_of, bind, makeRequest, lift, throw, ret.
  cbv zeta.
  destruct (resolve (remote (events st) _)) as [loginResponse|e]; simpl;
    [|reflexivity].
  destruct (negb (Http.ok loginResponse)); [reflexivity|].
  destruct (getprop (Http.json loginResponse) "AccessToken") as [authToken|e];
    simpl; [|reflexivity].
  destruct (negb (truthy authToken)); [reflexivity|].
  destruct (resolve _) as [systemInfoResponse|e]; simpl; [|reflexivity].
  destruct (negb (Http.ok systemInfoResponse)); [reflexivity|].
  destruct (machine_id_of _) as [machineId|e]; simpl; [|reflexivity].
  destruct (getprop _ "MachineName") as [machineName|e]; simpl; [|reflexivity].
  destruct (negb (truthy machineId) || negb (truthy machineName)); reflexivity.
Qed.

Lemma identify_stateless t st authToken machineId machineName st1 st' :
  stateless ->
  identify t st = (Ok (authToken, machineId, machineName), st1) ->
  exists st1', identify t st' = (Ok (authToken, machineId, machineName), st1').
Proof.
  intros Hs. rewrite !identify_unfold; cbv zeta.
  rewrite (Hs (events st') (events st)).
  destruct (token_of _) as [token|e]; [|discriminate].
  rewrite (Hs (events (record_event _ st')) (events (record_event
             (Requested (login_request (baseUrl t) (agent t) (password t))) st))).
  destruct (machine_of _) as [[id name]|e]; [|discriminate].
  intros H; inversion H; subst. eexists; reflexivity.
Qed.

Lemma errors_grow_closed (n : nat) : loop_closed (fun st => n <= errorCount st).
Proof. split; simpl; auto. Qed.

Lemma jobs_preserve (P : State -> Prop) baseUrl agent authToken machineId backups jobs :
  loop_closed P ->
  preserves P
    (for_of jobs (collect_backup_guarded baseUrl agent authToken machineId backups)).
Proof.
  intros Hc. apply preserves_for_of. intros job _.
  apply collect_backup_guarded_preserves; exact Hc.
Qed.

Lemma entries_preserve (P : State -> Prop) machineId backups i backupId entries :
  loop_closed P ->
  (forall log, In log entries -> is_backup_message log = true) ->
  preserves P (for_of entries (collect_entry machineId backups i backupId)).
Proof.
  intros Hc Hkept. apply preserves_for_of. intros log Hin.
  apply collect_entry_preserves; auto.
Qed.

(** The store [b] holds every triple the store [a] holds. *)
Definition covers (b a : Store) : Prop :=
  forall k, checkDuplicateBackup a k = true -> checkDuplicateBackup b k = true.

(** Entries that were handled without failure are all skipped when they are
    handled again over a store that holds what the first handling left. *)
Lemma entries_again machineId backups i backupId entries a a' :
  (forall log, In log entries -> is_backup_message log = true) ->
  for_of entries (collect_entry machineId backups i backupId) a = (Ok tt, a') ->
  forall b, covers (db b) (db a') ->
  exists b',
    for_of entries (collect_entry machineId backups i backupId) b = (Ok tt, b')
    /\ db b' = db b
    /\ processedCount b' = processedCount b
    /\ errorCount b' = errorCount b
    /\ skippedCount b' + (processedCount a + skippedCount a)
       = skippedCount b + (processedCount a' + skippedCount a').
Proof.
  revert a; induction entries as [|log rest IH]; intros a Hkept Hrun b Hcov.
  - simpl in Hrun. inversion Hrun; subst. exists b; simpl. repeat split; lia.
  - simpl in Hrun. apply bind_Ok in Hrun as ([] & a1 & Hhead & Hrest).
    assert (Hkept' : forall l, In l rest -> is_backup_message l = true)
      by (intros l Hl; apply Hkept; right; exact Hl).
    assert (Hstep : exists b1,
               collect_entry machineId backups i backupId log b = (Ok tt, b1)
               /\ db b1 = db b
               /\ processedCount b1 = processedCount b
               /\ errorCount b1 = errorCount b
               /\ skippedCount b1 + (processedCount a + skippedCount a)
                  = skippedCount b + (processedCount a1 + skippedCount a1)).
    { rewrite collect_entry_unfold in Hhead. rewrite collect_entry_unfold.
      destruct (entry_key machineId backups i backupId log)
        as [[[message k]|]|e]; try discriminate.
      - assert (Hk : checkDuplicateBackup (db a1) k = true).
        { destruct (checkDuplicateBackup (db a) k) eqn:Hdup.
          - inversion Hhead; subst; exact Hdup.
          - destruct (entry_row backupId (uuidv4 (uuids a)) message k)
              as [row|e] eqn:Hrow; [|discriminate].
            inversion Hhead; subst.
            pose proof (entry_row_key _ _ _ _ _ Hrow) as <-.
            unfold checkDuplicateBackup, inserted_state. cbn [db Sink.backups].
            rewrite existsb_app; cbn [existsb].
            assert (E : key_eqb (key_of row) (key_of row) = true)
              by (apply key_eqb_eq; reflexivity).
            rewrite E, orb_true_r. reflexivity. }
        assert (Hb : checkDuplicateBackup (db b) k = true).
        { apply Hcov.
          pose proof (entries_preserve _ machineId backups i backupId rest
                        (present_closed k) Hkept' a1 Hk) as Hk'.
          rewrite Hrest in Hk'. exact Hk'. }
        rewrite Hb. exists (skipped_state k b). simpl.
        repeat split; auto.
        destruct (checkDuplicateBackup (db a) k).
        + inversion Hhead; subst; simpl. lia.
        + destruct (entry_row _ _ _ _); [|discriminate].
          inversion Hhead; subst; simpl. lia.
      - inversion Hhead; subst. exists b. repeat split; lia. }
    destruct Hstep as (b1 & Hb1 & Hdb1 & Hp1 & He1 & Hs1).
    destruct (IH a1 Hkept' Hrest b1) as (b' & Hb' & Hdb' & Hp' & He' & Hs').
    { rewrite Hdb1; exact Hcov. }
    exists b'. simpl. rewrite (bind_run _ _ _ _ _ Hb1).
    repeat split; try congruence. lia.
Qed.

(** The same, for a turn of the outer loop that counted no error. *)
Lemma job_again baseUrl agent authToken machineId backups job a a' :
  stateless ->
  collect_backup_guarded baseUrl agent authToken machineId backups job a
  = (Ok tt, a') ->
  errorCount a' = errorCount a ->
  forall b, covers (db b) (db a') ->
  exists b',
    collect_backup_guarded baseUrl agent authToken machineId backups job b
    = (Ok tt, b')
    /\ db b' = db b
    /\ processedCount b' = processedCount b
    /\ errorCount b' = errorCount b
    /\ skippedCount b' + (processedCount a + skippedCount a)
       = skippedCount b + (processedCount a' + skippedCount a').
Proof.
  intros Hs Hrun He b Hcov. destruct job as [i backupId].
  unfold collect_backup_guarded, try_catch in *; simpl in *.
  rewrite collect_backup_unfold in *; cbv zeta in *.
  rewrite (Hs (events b) (events a)).
  set (request := log_request baseUrl agent authToken backupId) in *.
  destruct (resolve (remote (events a) request)) as [logResponse|e].
  - unfold collect_logs in *.
    destruct (negb (Http.ok logResponse)).
    + unfold throw in Hrun. inversion Hrun; subst. simpl in He. lia.
    + unfold bind at 1 in Hrun. unfold bind at 1. unfold lift in *.
      destruct (as_array (Http.json logResponse)) as [logs|e].
      * assert (Hkept : forall log, In log (filter is_backup_message logs) ->
                                    is_backup_message log = true)
          by (intros log Hin; apply filter_In in Hin; apply Hin).
        destruct (for_of (filter is_backup_message logs) _
                    (record_event (Requested request) a)) as [[[]|e] s] eqn:Hfor.
        -- inversion Hrun; subst s.
           destruct (entries_again _ _ _ _ _ _ _ Hkept Hfor
                       (record_event (Requested request) b) Hcov)
             as (b' & Hb' & H1 & H2 & H3 & H4).
           rewrite Hb'. exists b'. repeat split; auto.
        -- inversion Hrun; subst a'.
           pose proof (entries_keep_errorCount machineId backups i backupId
                         (filter is_backup_message logs)
                         (record_event (Requested request) a)) as Hk.
           rewrite Hfor in Hk. simpl in Hk, He. lia.
      * inversion Hrun; subst. simpl in He. lia.
  - inversion Hrun; subst. simpl in He. lia.
Qed.

(** The same, for Step 4 as a whole. *)
Lemma jobs_again baseUrl agent authToken machineId backups jobs a a' :
  stateless ->
  for_of jobs (collect_backup_guarded baseUrl agent authToken machineId backups) a
  = (Ok tt, a') ->
  errorCount a' = errorCount a ->
  forall b, covers (db b) (db a') ->
  exists b',
    for_of jobs (collect_backup_guarded baseUrl agent authToken machineId backups) b
    = (Ok tt, b')
    /\ db b' = db b
    /\ processedCount b' = processedCount b
    /\ errorCount b' = errorCount b
    /\ skippedCount b' + (processedCount a + skippedCount a)
       = skippedCount b + (processedCount a' + skippedCount a').
Proof.
  intros Hs. revert a; induction jobs as [|job rest IH]; intros a Hrun He b Hcov.
  - simpl in Hrun. inversion Hrun; subst. exists b; simpl. repeat split; lia.
  - simpl in Hrun. apply bind_Ok in Hrun as ([] & a1 & Hhead & Hrest).
    pose proof (collect_backup_guarded_preserves _ (errors_grow_closed (errorCount a))
                  baseUrl agent authToken machineId backups job a (le_n _)) as Hle1.
    rewrite Hhead in Hle1; simpl in Hle1.
    pose proof (jobs_preserve _ baseUrl agent authToken machineId backups rest
                  (errors_grow_closed (errorCount a1)) a1 (le_n _)) as Hle2.
    rewrite Hrest in Hle2; simpl in Hle2.
    assert (Hcov1 : covers (db b) (db a1)).
    { intros k Hk. apply Hcov.
      pose proof (jobs_preserve _ baseUrl agent authToken machineId backups rest
                    (present_closed k) a1 Hk) as Hk'.
      rewrite Hrest in Hk'. exact Hk'. }
    destruct (job_again _ _ _ _ _ _ _ _ Hs Hhead ltac:(lia) b Hcov1)
      as (b1 & Hb1 & Hdb1 & Hp1 & He1 & Hs1).
    destruct (IH a1 Hrest ltac:(lia) b1) as (b' & Hb' & Hdb' & Hp' & He' & Hs').
    { rewrite Hdb1; exact Hcov. }
    exists b'. simpl. rewrite (bind_run _ _ _ _ _ Hb1).
    repeat split; try congruence. lia.
Qed.

(** C3, as amended. Two invocations in succession. When the remote end
    answers each request in the same way throughout and the first
    invocation, started from a store [store], gives a counted answer with
    no error, then the second invocation, started from the store the first
    one left, gives a counted answer too, with [processedCount] 0, with
    [skippedCount] the sum of the first invocation's [processedCount] and
    [skippedCount], and with no error; it adds no backup row. *)
Theorem second_invocation_skips (request_json : option jsval) (store : Store)
  (processed skipped : nat) (st1 : State) :
  stateless ->
  POST request_json (initial store) = (Stats processed skipped 0, st1) ->
  exists st2,
    POST request_json (initial (db st1)) = (Stats 0 (processed + skipped) 0, st2)
    /\ backups (db st2) = backups (db st1).
Proof.
  intros Hs HP.
  apply POST_Stats in HP
    as (body & t & authToken & machineId & machineName & s1 & listing & backupIds
        & -> & Hv & Hi & Hl & Hids & Hne & Hst1 & Hp & Hsk & He).
  destruct (identify_stateless _ _ _ _ _ _ (initial (db st1)) Hs Hi) as [s1' Hi'].
  rewrite (POST_unfold _ _ _ _ _ _ _ Hv Hi'); cbv zeta.
  rewrite (Hs _ (events (upserted machineId machineName s1))), Hl, Hids.
  apply identify_state in Hi as (Hs1 & _ & _).
  apply identify_state in Hi' as (Hs1' & _ & _).
  set (a := record_event _ (upserted machineId machineName s1)) in *.
  set (b := record_event _ (upserted machineId machineName s1')).
  pose proof (process_backups_returns (baseUrl t) (agent t) authToken machineId
                listing backupIds a) as Hret.
  destruct (process_backups (baseUrl t) (agent t) authToken machineId
              listing backupIds a) as [r a'] eqn:Hrun.
  simpl in Hret, Hst1. subst r a'.
  assert (Ha : processedCount a = 0 /\ skippedCount a = 0 /\ errorCount a = 0)
    by (subst a s1; simpl; auto).
  assert (Hb : processedCount b = 0 /\ skippedCount b = 0 /\ errorCount b = 0
               /\ backups (db b) = backups (db st1))
    by (subst b s1'; simpl; auto).
  destruct Ha as (Hap & Has & Hae). destruct Hb as (Hbp & Hbs & Hbe & Hbdb).
  unfold process_backups in Hrun.
  destruct (jobs_again _ _ _ _ _ _ _ _ Hs Hrun ltac:(lia) b)
    as (b' & Hb' & Hdb' & Hp' & He' & Hs').
  { intros k Hk. unfold checkDuplicateBackup in *. rewrite Hbdb. exact Hk. }
  unfold process_backups. rewrite Hb'. simpl.
  destruct backupIds as [|backupId rest]; [congruence|].
  exists b'. split; [|congruence].
  f_equal. f_equal; lia.
Qed.

(** The claim about two invocations in succession, as the specification
    words it: the second invocation processes nothing and skips as many
    entries as the first one processed. *)
Definition idempotence_as_claimed (request_json : option jsval) (store : Store)
  : Prop :=
  forall processed1 skipped1 errors1 st1 processed2 skipped2 errors2 st2,
    POST request_json (initial store) = (Stats processed1 skipped1 errors1, st1) ->
    POST request_json (initial (db st1)) = (Stats processed2 skipped2 errors2, st2) ->
    processed2 = 0 /\ skipped2 = processed1.


(** ** Further properties of the route *)

(** *** Requests and their outcomes *)

(** X1. The outcome of a request. When the remote end answers, the promise
    of [makeRequest] is rejected with a [SyntaxError] exactly when the body
    is not JSON, whatever the status; otherwise it resolves to the decoded
    body, and [ok] holds exactly when a status code is present and lies
    between 200 and 299; an answer without status code is reported as
    status 500, which is not [ok]. *)
Theorem response_ok_range (request : Http.Request) (st : State)
  (res : Http.Incoming) :
  remote (events st) request = inr res ->
  (JSON_parse (Http.data res) = None ->
   fst (makeRequest request st) = Throw SyntaxError)
  /\ (forall v, JSON_parse (Http.data res) = Some v ->
        exists r,
          fst (makeRequest request st) = Ok r
          /\ Http.json r = v
          /\ (Http.ok r = true <->
              exists c, Http.statusCode res = Some c /\ 200 <= c /\ c < 300)
          /\ (Http.statusCode res = None ->
              Http.status r = 500 /\ Http.ok r = false)).
Proof.
  intros Hr. unfold makeRequest; simpl. rewrite Hr. unfold resolve. split.
  - intros ->. reflexivity.
  - intros v ->. eexists. split; [reflexivity|].
    cbn [Http.json Http.ok Http.status].
    split; [reflexivity|]. split.
    + rewrite andb_true_iff, Nat.leb_le, Nat.ltb_lt.
      destruct (Http.statusCode res) as [c|].
      * split; [intros [H1 H2]; exists c; auto|].
        intros (c' & Hc & H1 & H2). inversion Hc; subst; auto.
      * split; [intros [H1 H2]; lia|].
        intros (c' & Hc & _); discriminate.
    + intros ->. split; reflexivity.
Qed.

(** A failure of Step 1 or Step 2, from the pure parts of the two steps. *)
Lemma identify_failure t st e st1 :
  identify t st = (Throw e, st1) ->
  let login := login_request (baseUrl t) (agent t) (password t) in
  (token_of (remote (events st) login) = Throw e
   /\ st1 = record_event (Requested login) st)
  \/ (exists authToken,
        token_of (remote (events st) login) = Ok authToken
        /\ machine_of
             (remote (Requested login :: events st)
                (systeminfo_request (baseUrl t) (agent t) authToken))
           = Throw e
        /\ st1 = record_event
                   (Requested (systeminfo_request (baseUrl t) (agent t) authToken))
                   (record_event (Requested login) st)).
Proof.
  rewrite identify_unfold; cbv zeta.
  destruct (token_of _) as [authToken|e'] eqn:Ht.
  - simpl events.
    destruct (machine_of _) as [[machineId machineName]|e'] eqn:Hm;
      [discriminate|].
    intros H; inversion H; subst. right. exists authToken. auto.
  - intros H; inversion H; subst. left. auto.
Qed.

(** X2. Failures before the machine upsert are fatal and leave the store
    alone. When the request is accepted and Step 1 or Step 2 fails (the
    login or the system-info request is rejected or refused, no token is
    returned, or the machine id or name is missing), the handler gives the
    500 answer with that error; the store and the counters are as before,
    and the only operations are the login request, followed by the
    system-info request when the login had succeeded. *)
Theorem failure_before_upsert (body : jsval) (t : Target) (st st1 : State)
  (e : Exn) :
  validate body = Ok (inr t) ->
  identify t st = (Throw e, st1) ->
  POST (Some body) st = (ServerError e, st1)
  /\ db st1 = db st
  /\ processedCount st1 = processedCount st
  /\ skippedCount st1 = skippedCount st
  /\ errorCount st1 = errorCount st
  /\ (timeline st1
      = (timeline st
         ++ [Requested (login_request (baseUrl t) (agent t) (password t))])%list
      \/ exists authToken,
           timeline st1
           = (timeline st
              ++ [Requested (login_request (baseUrl t) (agent t) (password t));
                  Requested (systeminfo_request (baseUrl t) (agent t) authToken)])%list).
Proof.
  intros Hv Hi. split.
  - unfold POST, handler. unfold bind at 1. unfold lift at 1. rewrite Hv.
    unfold collect. rewrite (bind_fail _ _ _ _ _ Hi). reflexivity.
  - apply identify_failure in Hi. cbv zeta in Hi.
    destruct Hi as [[_ ->]|(authToken & _ & _ & ->)]; simpl;
      repeat (split; [reflexivity|]).
    + left. reflexivity.
    + right. exists authToken. unfold timeline; simpl.
      rewrite <- app_assoc. reflexivity.
Qed.

(** X3. A refused login. When the remote end answers the login request
    with a status that is not a success, the handler gives the 500 answer
    whose message is [Login failed: ] followed by the status text, after
    this one request. *)
Theorem refused_login (body : jsval) (t : Target) (st : State)
  (loginResponse : Http.Resolved) :
  validate body = Ok (inr t) ->
  resolve (remote (events st)
             (login_request (baseUrl t) (agent t) (password t)))
  = Ok loginResponse ->
  Http.ok loginResponse = false ->
  POST (Some body) st
  = (ServerError (Error ("Login failed: " ++ Http.statusText loginResponse)),
     record_event
       (Requested (login_request (baseUrl t) (agent t) (password t))) st).
Proof.
  intros Hv Hr Hok. unfold POST, handler.
  unfold bind at 1. unfold lift at 1. rewrite Hv.
  unfold collect. unfold bind at 1. rewrite identify_unfold; cbv zeta.
  unfold token_of. rewrite Hr; simpl. rewrite Hok; simpl. reflexivity.
Qed.

(** X4. The machine id is the default value of the first option named
    [machine-id]. When the options of the system info are an array whose
    entries before [opt] are neither [null] nor named [machine-id], and
    [opt] is named [machine-id], the machine id is the [DefaultValue] of
    [opt], whatever follows. *)
Theorem machine_id_first_option (systemInfo opt : jsval)
  (before after : list jsval) :
  nullish systemInfo = false ->
  field systemInfo "Options" = Arr (before ++ opt :: after) ->
  Forall (fun o => nullish o = false /\ field o "Name" <> Str "machine-id")
    before ->
  field opt "Name" = Str "machine-id" ->
  machine_id_of systemInfo = Ok (field opt "DefaultValue").
Proof.
  intros Hn Ho Hbefore Hopt. unfold machine_id_of, getprop.
  rewrite Hn, Ho; simpl.
  assert (Hfind : find_machine_id_option (before ++ opt :: after) = Ok opt).
  { clear Ho. induction Hbefore as [|o rest [Hon Hname] _ IH]; simpl.
    - unfold getprop.
      assert (Hnn : nullish opt = false) by (destruct opt; try reflexivity; discriminate).
      rewrite Hnn; simpl. rewrite Hopt; simpl. reflexivity.
    - unfold getprop. rewrite Hon; simpl.
      apply is_string_false in Hname. rewrite Hname. exact IH. }
  rewrite Hfind. reflexivity.
Qed.

(** Without a [machine-id] option there is no machine: when the system
    info has no options, or none of its options (all objects) is named
    [machine-id], the machine id is [undefined]. *)
Lemma machine_id_absent (systemInfo : jsval) :
  nullish systemInfo = false ->
  (nullish (field systemInfo "Options") = true
   \/ exists opts,
        field systemInfo "Options" = Arr opts
        /\ Forall (fun o => nullish o = false
                            /\ field o "Name" <> Str "machine-id") opts) ->
  machine_id_of systemInfo = Ok Undefined.
Proof.
  intros Hn H. unfold machine_id_of, getprop. rewrite Hn; simpl.
  destruct H as [H|(opts & Ho & Hall)].
  - rewrite H. reflexivity.
  - rewrite Ho; simpl.
    assert (Hfind : find_machine_id_option opts = Ok Undefined).
    { clear Ho. induction Hall as [|o rest [Hon Hname] _ IH]; simpl; [reflexivity|].
      unfold getprop. rewrite Hon; simpl.
      apply is_string_false in Hname. rewrite Hname. exact IH. }
    rewrite Hfind. reflexivity.
Qed.


(** X5. A system info without machine id or name. When the login succeeds
    and the system info is fetched but has no options, or no option named
    [machine-id], or no machine name, the handler gives the 500 answer
    [Could not get machine information] after the two requests; the store
    is not touched, so no machine row is written. *)
Theorem missing_machine_information (body : jsval) (t : Target) (st : State)
  (authToken : jsval) (systemInfoResponse : Http.Resolved) :
  validate body = Ok (inr t) ->
  token_of (remote (events st)
              (login_request (baseUrl t) (agent t) (password t)))
  = Ok authToken ->
  resolve (remote (Requested (login_request (baseUrl t) (agent t) (password t))
                   :: events st)
             (systeminfo_request (baseUrl t) (agent t) authToken))
  = Ok systemInfoResponse ->
  Http.ok systemInfoResponse = true ->
  nullish (Http.json systemInfoResponse) = false ->
  (nullish (field (Http.json systemInfoResponse) "Options") = true
   \/ (exists opts,
         field (Http.json systemInfoResponse) "Options" = Arr opts
         /\ Forall (fun o => nullish o = false
                             /\ field o "Name" <> Str "machine-id") opts)
   \/ (exists machineId,
         machine_id_of (Http.json systemInfoResponse) = Ok machineId
         /\ truthy (field (Http.json systemInfoResponse) "MachineName") = false)) ->
  exists st',
    POST (Some body) st
    = (ServerError (Error "Could not get machine information"), st')
    /\ db st' = db st
    /\ timeline st'
       = (timeline st
          ++ [Requested (login_request (baseUrl t) (agent t) (password t));
              Requested (systeminfo_request (baseUrl t) (agent t) authToken)])%list.
Proof.
  intros Hv Ht Hr Hok Hn Hmissing.
  assert (Hm : machine_of
                 (remote (Requested (login_request (baseUrl t) (agent t) (password t))
                          :: events st)
                    (systeminfo_request (baseUrl t) (agent t) authToken))
               = Throw (Error "Could not get machine information")).
  { unfold machine_of. rewrite Hr; simpl. rewrite Hok; simpl.
    assert (Hname : getprop (Http.json systemInfoResponse) "MachineName"
                    = Ok (field (Http.json systemInfoResponse) "MachineName"))
      by (unfold getprop; rewrite Hn; reflexivity).
    destruct Hmissing as [H|[H|(machineId & Hid & Hfalsy)]].
    - rewrite (machine_id_absent _ Hn (or_introl H)); simpl.
      rewrite Hname; reflexivity.
    - rewrite (machine_id_absent _ Hn (or_intror H)); simpl.
      rewrite Hname; reflexivity.
    - rewrite Hid; simpl. rewrite Hname; simpl. rewrite Hfalsy.
      rewrite orb_true_r. reflexivity. }
  eexists. split; [|split].
  - unfold POST, handler. unfold bind at 1. unfold lift at 1. rewrite Hv.
    unfold collect. unfold bind at 1. rewrite identify_unfold; cbv zeta.
    rewrite Ht. simpl events. rewrite Hm. reflexivity.
  - reflexivity.
  - unfold timeline; simpl. rewrite <- app_assoc. reflexivity.
Qed.

Lemma collect_answer t st response st' :
  collect t st = (Ok response, st') ->
  response = NoBackupsFound
  \/ exists processed skipped errors, response = Stats processed skipped errors.
Proof.
  unfold collect. intros H.
  apply bind_Ok in H as ([[authToken machineId] machineName] & s1 & _ & H).
  apply bind_Ok in H as (_ & s2 & _ & H).
  apply bind_Ok in H as (backups & s3 & _ & H).
  apply bind_Ok in H as (backupIds & s4 & _ & H).
  destruct backupIds as [|backupId rest].
  - inversion H; subst; left; reflexivity.
  - apply bind_Ok in H as (_ & s5 & _ & H).
    unfold report in H. inversion H; subst. right. eauto.
Qed.

(** X7. The 400 answer comes from the three checks only. Whenever the
    handler gives the 400 answer, the request body could be destructured,
    the message is the message of the first check that failed (hostname,
    then password, then protocol), and the state is the state before:
    nothing was requested, looked up or written. *)
Theorem bad_request_only_from_checks (request_json : option jsval)
  (st st' : State) (message : string) :
  POST request_json st = (BadRequest message, st') ->
  st' = st
  /\ exists body,
       request_json = Some body
       /\ nullish body = false
       /\ ((message = "Hostname is required"
            /\ truthy (field body "hostname") = false)
           \/ (message = "Password is required"
               /\ truthy (field body "hostname") = true
               /\ truthy (field body "password") = false)
           \/ (message = "Protocol must be either " ++ quoted "http"
                         ++ " or " ++ quoted "https"
               /\ truthy (field body "hostname") = true
               /\ truthy (field body "password") = true
               /\ default_to (field body "protocol") (Str "http") <> Str "http"
               /\ default_to (field body "protocol") (Str "http") <> Str "https")).
Proof.
  unfold POST. destruct (handler request_json st) as [[response|e] s] eqn:H;
    [|discriminate].
  intros E; inversion E; subst response s; clear E.
  unfold handler in H. destruct request_json as [body|]; [|discriminate].
  apply bind_Ok in H as (checked & s & Hv & H).
  apply lift_Ok in Hv as [Hv ->].
  destruct checked as [response|t].
  - inversion H; subst response st'. split; [reflexivity|].
    exists body. split; [reflexivity|].
    unfold validate in Hv. destruct (nullish body); [discriminate|].
    split; [reflexivity|].
    destruct (truthy (field body "hostname")); simpl in Hv;
      [|inversion Hv; left; auto].
    destruct (truthy (field body "password")); simpl in Hv;
      [|inversion Hv; right; left; auto].
    destruct (is_string _ "http") eqn:H1; simpl in Hv; [discriminate|].
    destruct (is_string _ "https") eqn:H2; simpl in Hv; [discriminate|].
    apply is_string_false in H1, H2.
    inversion Hv. right; right. auto.
  - apply collect_answer in H as [H|(p & sk & er & H)]; discriminate.
Qed.


(** *** The requests of Step 4 *)

(** The requests among the operations, most recent first. *)
Fixpoint requests_sent (evs : list Event) : list Http.Request :=
  match evs with
  | [] => []
  | Requested request :: rest => request :: requests_sent rest
  | _ :: rest => requests_sent rest
  end.

Lemma collect_entry_quiet machineId backups i backupId log st :
  requests_sent (events (snd (collect_entry machineId backups i backupId log st)))
  = requests_sent (events st)
  /\ errorCount (snd (collect_entry machineId backups i backupId log st))
     = errorCount st
  /\ machines (db (snd (collect_entry machineId backups i backupId log st)))
     = machines (db st).
Proof.
  rewrite collect_entry_unfold.
  destruct (entry_key machineId backups i backupId log) as [[[message k]|]|e];
    simpl; auto.
  destruct (checkDuplicateBackup (db st) k); simpl; auto.
  destruct (entry_row _ _ _ _); simpl; auto.
Qed.

Lemma entries_quiet machineId backups i backupId entries st :
  requests_sent
    (events (snd (for_of entries (collect_entry machineId backups i backupId) st)))
  = requests_sent (events st)
  /\ errorCount (snd (for_of entries (collect_entry machineId backups i backupId) st))
     = errorCount st
  /\ machines
       (db (snd (for_of entries (collect_entry machineId backups i backupId) st)))
     = machines (db st).
Proof.
  revert st; induction entries as [|log rest IH]; intros st; simpl; auto.
  unfold bind.
  pose proof (collect_entry_quiet machineId backups i backupId log st)
    as (H1 & H2 & H3).
  destruct (collect_entry machineId backups i backupId log st) as [[[]|e] s];
    simpl in *.
  - destruct (IH s) as (I1 & I2 & I3). repeat split; congruence.
  - auto.
Qed.

(** One turn of the outer loop: the state it ends in sends one request, and
    counts at most one error. *)
Lemma guarded_turn baseUrl agent authToken machineId backups job st :
  let st' :=
    snd (collect_backup_guarded baseUrl agent authToken machineId backups job st) in
  requests_sent (events st')
  = log_request baseUrl agent authToken (snd job) :: requests_sent (events st)
  /\ errorCount st <= errorCount st' <= S (errorCount st)
  /\ machines (db st') = machines (db st).
Proof.
  destruct job as [i backupId]. cbv zeta.
  unfold collect_backup_guarded, try_catch; simpl fst; simpl snd.
  rewrite collect_backup_unfold; cbv zeta.
  destruct (resolve _) as [logResponse|e]; [|simpl; repeat split; auto].
  unfold collect_logs. destruct (negb (Http.ok logResponse));
    [simpl; repeat split; auto|].
  unfold bind, lift.
  destruct (as_array (Http.json logResponse)) as [logs|e];
    [|simpl; repeat split; auto].
  pose proof (entries_quiet machineId backups i backupId
                (filter is_backup_message logs)
                (record_event
                   (Requested (log_request baseUrl agent authToken backupId)) st))
    as (H1 & H2 & H3).
  destruct (for_of _ _ _) as [[[]|e] s]; simpl in *;
    repeat split; try congruence; lia.
Qed.

Lemma jobs_turns baseUrl agent authToken machineId backups jobs st :
  let st' :=
    snd (for_of jobs
           (collect_backup_guarded baseUrl agent authToken machineId backups) st) in
  requests_sent (events st')
  = (rev (map (fun job => log_request baseUrl agent authToken (snd job)) jobs)
     ++ requests_sent (events st))%list
  /\ errorCount st <= errorCount st' <= errorCount st + List.length jobs
  /\ machines (db st') = machines (db st).
Proof.
  cbv zeta. revert st; induction jobs as [|job rest IH]; intros st; simpl.
  - repeat split; auto; lia.
  - unfold bind.
    pose proof (guarded_returns baseUrl agent authToken machineId backups job st)
      as Hret.
    pose proof (guarded_turn baseUrl agent authToken machineId backups job st)
      as (H1 & H2 & H3).
    destruct (collect_backup_guarded _ _ _ _ _ job st) as [[[]|e] s];
      simpl in Hret, H1, H2, H3; [|discriminate].
    destruct (IH s) as (I1 & I2 & I3).
    rewrite I1, H1, I3, H3, <- app_assoc. simpl. repeat split; auto; lia.
Qed.

Lemma indexed_from_snd {A} (l : list A) (i : nat) :
  map snd (indexed_from i l) = l.
Proof.
  revert i; induction l as [|x rest IH]; intros i; simpl; [reflexivity|].
  rewrite IH; reflexivity.
Qed.

Lemma indexed_from_length {A} (l : list A) (i : nat) :
  List.length (indexed_from i l) = List.length l.
Proof.
  revert i; induction l as [|x rest IH]; intros i; simpl; [reflexivity|].
  rewrite IH; reflexivity.
Qed.

(** The requests of an invocation whose request is accepted all carry the
    agent of the target. *)
Lemma requests_carry_agent (body : jsval) (t : Target) (st : State) :
  validate body = Ok (inr t) ->
  exists sent,
    requests_sent (events (snd (POST (Some body) st)))
    = (sent ++ requests_sent (events st))%list
    /\ sent <> []
    /\ Forall (fun request => Http.agent request = agent t) sent.
Proof.
  intros Hv.
  destruct (identify t st) as [[[[authToken machineId] machineName]|e] st1] eqn:Hi.
  - rewrite (POST_unfold _ _ _ _ _ _ _ Hv Hi); cbv zeta.
    apply identify_state in Hi as (-> & _ & _).
    set (login := login_request (baseUrl t) (agent t) (password t)).
    set (info := systeminfo_request (baseUrl t) (agent t) authToken).
    set (list_request := backups_request (baseUrl t) (agent t) authToken).
    set (st3 := record_event (Requested list_request) _).
    assert (H3 : requests_sent (events st3)
                 = ([list_request; info; login] ++ requests_sent (events st))%list)
      by reflexivity.
    assert (Hagents : Forall (fun request => Http.agent request = agent t)
                        [list_request; info; login])
      by (repeat constructor).
    assert (Hdone : exists sent,
               requests_sent (events st3)
               = (sent ++ requests_sent (events st))%list
               /\ sent <> []
               /\ Forall (fun request => Http.agent request = agent t) sent).
    { exists [list_request; info; login].
      split; [exact H3|]. split; [discriminate | exact Hagents]. }
    destruct (listed _) as [listing|e]; [|exact Hdone].
    destruct (map_result backup_ID listing) as [[|backupId rest]|e];
      try exact Hdone.
    cbn [snd]. unfold process_backups.
    match goal with
    | |- context [for_of ?jobs ?turn st3] =>
        pose proof (jobs_turns (baseUrl t) (agent t) authToken machineId
                      listing jobs st3) as (H1 & _ & _)
    end.
    cbv zeta in H1. rewrite H1, H3.
    eexists. split; [rewrite app_assoc; reflexivity|]. split.
    + intros E. apply app_eq_nil in E as [_ E]. discriminate E.
    + apply Forall_app; split; [|exact Hagents].
      apply Forall_rev. apply Forall_map. apply Forall_forall.
      intros job _. reflexivity.
  - assert (E : POST (Some body) st = (ServerError e, st1)).
    { unfold POST, handler. unfold bind at 1. unfold lift at 1.
      rewrite Hv. unfold collect. rewrite (bind_fail _ _ _ _ _ Hi).
      reflexivity. }
    rewrite E. apply identify_failure in Hi. cbv zeta in Hi.
    destruct Hi as [[_ ->]|(authToken & _ & _ & ->)]; simpl.
    + exists [login_request (baseUrl t) (agent t) (password t)].
      split; [reflexivity|]. split; [discriminate | repeat constructor].
    + exists [systeminfo_request (baseUrl t) (agent t) authToken;
              login_request (baseUrl t) (agent t) (password t)].
      split; [reflexivity|]. split; [discriminate | repeat constructor].
Qed.

(** X6. Certificate verification. An accepted request targets the base url
    made of its protocol ([http] when it names none), its hostname and its
    port (8200 when it names none). The agent of the target verifies
    certificates unless the request sets [allowSelfSigned] to a truthy
    value, and there is no agent over [http]. The invocation sends at least
    one request, and every request it sends (the login, the system-info
    request, the list request and the log requests) carries that agent. *)
Theorem certificate_verification (body : jsval) (t : Target) (st : State) :
  validate body = Ok (inr t) ->
  let protocol := default_to (field body "protocol") (Str "http") in
  baseUrl t = base_url protocol (field body "hostname")
                (default_to (field body "port") (num_of_Z 8200))
  /\ password t = field body "password"
  /\ (protocol = Str "http" \/ protocol = Str "https")
  /\ (agent t = None <-> protocol = Str "http")
  /\ (agent t = Some true <->
      protocol = Str "https" /\ truthy (field body "allowSelfSigned") = false)
  /\ (agent t = Some false <->
      protocol = Str "https" /\ truthy (field body "allowSelfSigned") = true)
  /\ exists sent,
       requests_sent (events (snd (POST (Some body) st)))
       = (sent ++ requests_sent (events st))%list
       /\ sent <> []
       /\ Forall (fun request => Http.agent request = agent t) sent.
Proof.
  intros Hv.
  pose proof (requests_carry_agent body t st Hv) as Hsent.
  revert Hv Hsent.
  unfold validate. destruct (nullish body); [discriminate|].
  destruct (negb (truthy (field body "hostname"))); [discriminate|].
  destruct (negb (truthy (field body "password"))); [discriminate|].
  set (protocol := default_to (field body "protocol") (Str "http")).
  destruct (is_string protocol "http") eqn:Hhttp;
    destruct (is_string protocol "https") eqn:Hhttps; simpl;
    intros H Hsent; inversion H; subst t; clear H; simpl in *.
  - apply is_string_true in Hhttp, Hhttps. congruence.
  - apply is_string_true in Hhttp. unfold agent_of in *. fold protocol in Hsent |- *.
    rewrite Hhttps in *. rewrite Hhttp.
    repeat split; auto; try discriminate; try (intros [E _]; discriminate).
  - apply is_string_true in Hhttps. unfold agent_of in *. fold protocol in Hsent |- *.
    rewrite (proj2 (is_string_true _ _) Hhttps) in *. rewrite Hhttps.
    assert (Ht : truthy (default_to (field body "allowSelfSigned") (Bool false))
                 = truthy (field body "allowSelfSigned"))
      by (destruct (field body "allowSelfSigned"); reflexivity).
    rewrite Ht in *.
    destruct (truthy (field body "allowSelfSigned")); simpl in *;
      repeat split; auto; try discriminate;
      try (intros [_ E]; discriminate); try (intros E; discriminate).
Qed.

(** X8. One log request per listed backup. Whenever the handler gives a
    counted answer, the request was accepted, Steps 1 and 2 gave the token
    and the machine, and the list request gave the backups whose ids are
    [backupIds]; the requests of the invocation are then, in order, the
    login, the system-info request, the list request and exactly one log
    request for each of these ids, in the order of the list: a GET of the
    log url of the id, with the two JSON headers and the bearer token of
    the login, and with the agent of the target. No log is requested twice
    or retried, whatever the outcome of its job. The error count of the
    answer exceeds the error count at the start by at most the number of
    listed backups. *)
Theorem one_log_request_per_backup (request_json : option jsval)
  (st st' : State) (processed skipped errors : nat) :
  POST request_json st = (Stats processed skipped errors, st') ->
  exists body t authToken machineId machineName st1 listing backupIds,
    request_json = Some body
    /\ validate body = Ok (inr t)
    /\ identify t st = (Ok (authToken, machineId, machineName), st1)
    /\ listed (remote (events (upserted machineId machineName st1))
                 (backups_request (baseUrl t) (agent t) authToken))
       = Ok listing
    /\ map_result backup_ID listing = Ok backupIds
    /\ backupIds <> []
    /\ rev (requests_sent (events st'))
       = (rev (requests_sent (events st))
          ++ [login_request (baseUrl t) (agent t) (password t);
              systeminfo_request (baseUrl t) (agent t) authToken;
              backups_request (baseUrl t) (agent t) authToken]
          ++ map (fun backupId =>
                    {| Http.url := (baseUrl t ++ "/api/v1/backup/"
                                    ++ ToString backupId ++ "/log?pagesize=999")%string;
                       Http.method := None;
                       Http.headers :=
                         [("Content-Type", "application/json");
                          ("Accept", "application/json");
                          ("Authorization",
                           ("Bearer " ++ ToString authToken)%string)];
                       Http.agent := agent t;
                       Http.body := None |})
               backupIds)%list
    /\ errorCount st <= errors <= errorCount st + List.length backupIds.
Proof.
  intros HP.
  apply POST_Stats in HP
    as (body & t & authToken & machineId & machineName & s1 & listing & backupIds
        & -> & Hv & Hi & Hl & Hids & Hne & Hst' & Hp & Hsk & He).
  exists body, t, authToken, machineId, machineName, s1, listing, backupIds.
  split; [reflexivity|]. split; [exact Hv|]. split; [exact Hi|].
  split; [exact Hl|]. split; [exact Hids|]. split; [exact Hne|].
  apply identify_state in Hi as (-> & _ & _).
  unfold process_backups in Hst'.
  match type of Hst' with
  | st' = snd (for_of ?jobs ?body ?s) =>
      pose proof (jobs_turns (baseUrl t) (agent t) authToken machineId listing
                    jobs s) as (H1 & H2 & _)
  end.
  cbv zeta in H1, H2. rewrite <- Hst' in H1, H2.
  unfold indexed in H1, H2. rewrite indexed_from_length in H2.
  split.
  - rewrite H1. rewrite rev_app_distr, rev_involutive.
    rewrite <- (map_map snd (log_request (baseUrl t) (agent t) authToken)).
    rewrite indexed_from_snd. simpl.
    rewrite <- !app_assoc. reflexivity.
  - subst errors. simpl in H2. exact H2.
Qed.

(** X9. A job whose log is unusable. When the log of a backup cannot be
    fetched (the connection fails, the body is not JSON, the status is not
    a success) or is not an array, the turn of the outer loop sends the one
    request, counts one error and changes nothing else: no lookup, no
    insert, the store and the other counters are as before. *)
Theorem unusable_log_counts_one_error (baseUrl : string) (agent : option bool)
  (authToken machineId : jsval) (backups : list jsval) (i : nat)
  (backupId : jsval) (st : State) :
  fetched (remote (events st) (log_request baseUrl agent authToken backupId))
  = None ->
  collect_backup_guarded baseUrl agent authToken machineId backups (i, backupId) st
  = (Ok tt,
     {| db := db st;
        events := Requested (log_request baseUrl agent authToken backupId)
                  :: events st;
        uuids := uuids st;
        processedCount := processedCount st;
        skippedCount := skippedCount st;
        errorCount := S (errorCount st) |}).
Proof.
  intros Hf. unfold fetched in Hf.
  unfold collect_backup_guarded, try_catch; simpl fst; simpl snd.
  rewrite collect_backup_unfold; cbv zeta.
  destruct (resolve _) as [logResponse|e]; [|reflexivity].
  unfold collect_logs.
  destruct (Http.ok logResponse); simpl; [|reflexivity].
  unfold bind, lift.
  destruct (Http.json logResponse); try discriminate; reflexivity.
Qed.

(** *** What an invocation does to the store *)

(** The two courses of an invocation: it ends before the machine upsert,
    and then the store, the inserts and the counters are as before; or the
    request is accepted and Steps 1 and 2 succeed. *)
Lemma POST_course request_json st :
  (db (snd (POST request_json st)) = db st
   /\ rows_inserted (events (snd (POST request_json st)))
      = rows_inserted (events st)
   /\ processedCount (snd (POST request_json st)) = processedCount st
   /\ skippedCount (snd (POST request_json st)) = skippedCount st
   /\ errorCount (snd (POST request_json st)) = errorCount st)
  \/ exists body t authToken machineId machineName st1,
       request_json = Some body
       /\ validate body = Ok (inr t)
       /\ identify t st = (Ok (authToken, machineId, machineName), st1).
Proof.
  destruct request_json as [body|]; [|left; simpl; repeat split; reflexivity].
  destruct (validate body) as [[response|t]|e] eqn:Hv.
  - left. unfold POST, handler, bind, lift. rewrite Hv. simpl.
    repeat split; reflexivity.
  - destruct (identify t st) as [[[[authToken machineId] machineName]|e] st1] eqn:Hi.
    + right. exists body, t, authToken, machineId, machineName, st1. auto.
    + left.
      assert (E : POST (Some body) st = (ServerError e, st1)).
      { unfold POST, handler. unfold bind at 1. unfold lift at 1.
        rewrite Hv. unfold collect. rewrite (bind_fail _ _ _ _ _ Hi).
        reflexivity. }
      rewrite E. apply identify_failure in Hi. cbv zeta in Hi.
      destruct Hi as [[_ ->]|(token & _ & _ & ->)]; simpl;
        repeat split; reflexivity.
  - left. unfold POST, handler, bind, lift. rewrite Hv. simpl.
    repeat split; reflexivity.
Qed.

Lemma rows_kept_closed (rows : list BackupRow) :
  loop_closed (fun st => exists added, backups (db st) = (rows ++ added)%list).
Proof.
  split; simpl; auto.
  - intros st row [added H] _ _. exists (added ++ [row])%list.
    rewrite H, app_assoc. reflexivity.
Qed.

(** X10. An invocation only adds to the store. Whatever the request and
    the remote end, the backup rows at the end are the rows at the start
    followed by new rows (no row is removed or changed), and the machine
    table is either the table at the start or the table at the start with
    one machine, of truthy id and name, upserted. *)
Theorem store_only_grows (request_json : option jsval) (st : State) :
  (exists added,
     backups (db (snd (POST request_json st)))
     = (backups (db st) ++ added)%list)
  /\ (machines (db (snd (POST request_json st))) = machines (db st)
      \/ exists machineId machineName,
           truthy machineId = true
           /\ truthy machineName = true
           /\ machines (db (snd (POST request_json st)))
              = upsert machineId machineName (machines (db st))).
Proof.
  split.
  - apply (POST_preserves _ (rows_kept_closed (backups (db st)))).
    + intros s id name H; exact H.
    + exists []. rewrite app_nil_r. reflexivity.
  - destruct (POST_course request_json st)
      as [(Hdb & _)|(body & t & authToken & machineId & machineName & st1
                     & -> & Hv & Hi)].
    + left. rewrite Hdb. reflexivity.
    + right. exists machineId, machineName.
      rewrite (POST_unfold _ _ _ _ _ _ _ Hv Hi); cbv zeta.
      apply identify_state in Hi as (-> & Hid & Hname).
      split; [exact Hid|]. split; [exact Hname|].
      destruct (listed _) as [listing|e]; [|reflexivity].
      destruct (map_result backup_ID listing) as [[|backupId rest]|e];
        try reflexivity.
      cbn [snd]. unfold process_backups.
      match goal with
      | |- machines (db (snd (for_of ?jobs ?body ?s))) = _ =>
          pose proof (jobs_turns (baseUrl t) (agent t) authToken machineId
                        listing jobs s) as (_ & _ & H3)
      end.
      cbv zeta in H3. rewrite H3. reflexivity.
Qed.


(** *** The stored records *)

Lemma kept_message (log : jsval) :
  is_backup_message log = true ->
  exists message,
    parse_message log = Ok message
    /\ field message "MainOperation" = Str "Backup"
    /\ nullish message = false.
Proof.
  unfold is_backup_message, parse_message.
  destruct (getprop log "Message") as [text|e]; [|discriminate]. simpl.
  destruct (JSON_parse (ToString text)) as [message|]; [|discriminate].
  intros H. apply is_string_true in H. unfold opt_field in H.
  exists message. split; [reflexivity|]. split; [exact H|].
  destruct message; try reflexivity; discriminate.
Qed.

Lemma entry_key_inv machineId backups i backupId log message k :
  entry_key machineId backups i backupId log = Ok (Some (message, k)) ->
  parse_message log = Ok message
  /\ exists backupName iso,
       k = (machineId, backupName, Str iso)
       /\ truthy backupName = true
       /\ toISOString_or_throw (field message "BeginTime") = Ok (Str iso)
       /\ find_backup_name backups i backupId = Ok backupName.
Proof.
  unfold entry_key.
  destruct (parse_message log) as [m|]; simpl; [|discriminate].
  unfold getprop. destruct (nullish m); simpl; [discriminate|].
  destruct (toISOString_or_throw (field m "BeginTime")) as [d|] eqn:Hd; simpl;
    [|discriminate].
  destruct (find_backup_name backups i backupId) as [n|]; simpl; [|discriminate].
  destruct (truthy n) eqn:Hn; simpl; [|discriminate].
  intros H; inversion H; subst. split; [reflexivity|].
  unfold toISOString_or_throw in Hd |- *.
  destruct (toISOString (field message "BeginTime")) as [iso|]; [|discriminate].
  inversion Hd; subst. exists n, iso. auto.
Qed.

Lemma backup_row_fields uuid machineId backupName backupId backupDate message row :
  backup_row uuid machineId backupName backupId backupDate message = Ok row ->
  id row = Str uuid
  /\ machine_id row = machineId
  /\ backup_name row = backupName
  /\ backup_id row = backupId
  /\ date row = backupDate
  /\ toISOString_or_throw (field message "BeginTime") = Ok (begin_time row)
  /\ main_operation row = field message "MainOperation".
Proof.
  unfold backup_row. intros H.
  destruct (toISOString_or_throw (field message "BeginTime")); [|discriminate].
  destruct (toISOString_or_throw (field message "EndTime")); [|discriminate].
  destruct (optional_date _); [|discriminate].
  destruct (optional_date _); [|discriminate].
  simpl in H. inversion H; subst; simpl. repeat split; reflexivity.
Qed.

(** What Step 4 keeps, given what the handling of one retained entry
    keeps. *)
Section Chain.

Variable P : State -> Prop.
Variables (machineId : jsval) (listing : list jsval).
Hypothesis P_request :
  forall st request, P st -> P (record_event (Requested request) st).
Hypothesis P_error : forall st, P st -> P (snd (incr_error st)).
Hypothesis P_entry :
  forall i backupId log, is_backup_message log = true ->
    preserves P (collect_entry machineId listing i backupId log).

Lemma chain_process_backups baseUrl agent authToken backupIds :
  preserves P
    (process_backups baseUrl agent authToken machineId listing backupIds).
Proof.
  unfold process_backups. apply preserves_for_of. intros job _.
  unfold collect_backup_guarded, collect_backup.
  apply preserves_try_catch; [|intros _ st H; apply P_error; exact H].
  apply preserves_bind; [intros st H; apply P_request; exact H|].
  intros logResponse. unfold collect_logs.
  apply preserves_if; [apply preserves_throw|].
  apply preserves_bind; [apply preserves_lift|]. intros logs.
  apply preserves_for_of. intros log Hin.
  apply P_entry. apply filter_In in Hin. apply Hin.
Qed.

End Chain.

(** What the handler guarantees of a record it inserts for the machine
    [machineId]. *)
Definition sound_row (machineId : jsval) (row : BackupRow) : Prop :=
  machine_id row = machineId
  /\ date row = begin_time row
  /\ (exists iso, date row = Str iso)
  /\ truthy (backup_name row) = true
  /\ main_operation row = Str "Backup".

Lemma collect_entry_sound machineId listing i backupId log :
  is_backup_message log = true ->
  preserves (fun st => Forall (sound_row machineId) (rows_inserted (events st)))
    (collect_entry machineId listing i backupId log).
Proof.
  intros Hkept st H. rewrite collect_entry_unfold.
  destruct (entry_key machineId listing i backupId log) as [[[message k]|]|e] eqn:Hk;
    simpl; try exact H.
  destruct (checkDuplicateBackup (db st) k); simpl; [exact H|].
  destruct (entry_row backupId (uuidv4 (uuids st)) message k) as [row|e] eqn:Hrow;
    simpl; [|exact H].
  apply Forall_app; split; [exact H|]. constructor; [|constructor].
  apply entry_key_inv in Hk as (Hparse & name & iso & -> & Hname & Hdate & _).
  simpl in Hrow. apply backup_row_fields in Hrow
    as (_ & Hm & Hn & _ & Hd & Hb & Hop).
  destruct (kept_message log Hkept) as (message' & Hparse' & Hmain & _).
  rewrite Hparse in Hparse'. inversion Hparse'; subst message'.
  unfold sound_row. rewrite Hm, Hn, Hd, Hop.
  rewrite Hdate in Hb. inversion Hb as [Hb'].
  repeat split; auto. exists iso; reflexivity.
Qed.

(** ** The deduplication gate, by start time *)






(** X11. Every inserted record belongs to the machine of the invocation.
    Each record an invocation inserts is a [Backup] operation, has a truthy
    backup name, has a date that is a text and equals its begin time, and
    carries the id of a machine that the store holds at the end of the
    invocation. *)
Theorem rows_refer_to_machine (request_json : option jsval) (store : Store)
  (row : BackupRow) :
  In row (rows_inserted (events (snd (POST request_json (initial store))))) ->
  main_operation row = Str "Backup"
  /\ truthy (backup_name row) = true
  /\ date row = begin_time row
  /\ (exists iso, date row = Str iso)
  /\ exists machineName,
       machine_name (db (snd (POST request_json (initial store))))
         (machine_id row) = Some machineName.
Proof.
  destruct (POST_course request_json (initial store))
    as [(_ & Hrows & _)|(body & t & authToken & machineId & machineName & st1
                         & -> & Hv & Hi)].
  - rewrite Hrows. intros [].
  - rewrite (POST_unfold _ _ _ _ _ _ _ Hv Hi); cbv zeta.
    apply identify_state in Hi as (-> & _ & _).
    destruct (listed _) as [listing|e]; [|intros []].
    destruct (map_result backup_ID listing) as [[|backupId rest]|e];
      try (intros []).
    cbn [snd].
    set (st3 := record_event _ (upserted machineId machineName _)).
    intros Hin.
    pose proof (chain_process_backups
                  (fun st => Forall (sound_row machineId) (rows_inserted (events st)))
                  machineId listing
                  (fun st request H => H) (fun st H => H)
                  (collect_entry_sound machineId listing)
                  (baseUrl t) (agent t) authToken (backupId :: rest) st3
                  (Forall_nil _)) as Hall.
    rewrite Forall_forall in Hall.
    destruct (Hall row Hin) as (Hm & Hd & Hiso & Hn & Hop).
    repeat split; auto.
    exists machineName. unfold machine_name, process_backups.
    match goal with
    | |- context [for_of ?jobs ?body st3] =>
        pose proof (jobs_turns (baseUrl t) (agent t) authToken machineId
                      listing jobs st3) as (_ & _ & H3)
    end.
    cbv zeta in H3. rewrite H3, Hm. unfold st3, upserted; simpl.
    rewrite upsert_find. reflexivity.
Qed.

(** The numeric columns, the flags and the serialised arrays of a
    record. *)
Definition numeric_columns (row : BackupRow) : list jsval :=
  [ size row; uploaded_size row; examined_files row; warnings row; errors row;
    deleted_files row; deleted_folders row; modified_files row;
    opened_files row; added_files row; size_of_modified_files row;
    size_of_added_files row; size_of_examined_files row;
    size_of_opened_files row; not_processed_files row; added_folders row;
    too_large_files row; files_with_error row; modified_folders row;
    modified_symlinks row; added_symlinks row; deleted_symlinks row;
    warnings_actual_length row; errors_actual_length row;
    messages_actual_length row; bytes_downloaded row; known_file_size row;
    backup_list_count row; backend_warnings_actual_length row;
    backend_errors_actual_length row ].

Definition flag_columns (row : BackupRow) : list jsval :=
  [ partial_backup row; dryrun row; interrupted row; reported_quota_error row;
    reported_quota_warning row; backend_interrupted row ].

Definition text_columns (row : BackupRow) : list jsval :=
  [ messages_array row; warnings_array row; errors_array row;
    last_backup_date row; backend_begin_time row ].

Lemma or_else_zero (a : jsval) :
  or_else a zero = zero \/ truthy (or_else a zero) = true.
Proof. unfold or_else. destruct (truthy a) eqn:H; auto. Qed.

Lemma flag_zero_one (a : jsval) : flag a = zero \/ flag a = one.
Proof. unfold flag. destruct (truthy a); auto. Qed.

Lemma blob_text (a : jsval) : blob a = Null \/ exists text, blob a = Str text.
Proof. unfold blob. destruct (truthy a); eauto. Qed.

Lemma optional_date_text (a v : jsval) :
  optional_date a = Ok v -> v = Null \/ exists text, v = Str text.
Proof.
  unfold optional_date, toISOString_or_throw. destruct (truthy a).
  - destruct (toISOString a); [|discriminate]. intros H; inversion H; eauto.
  - intros H; inversion H; auto.
Qed.

Lemma backup_row_defaults uuid machineId backupName backupId backupDate message row :
  backup_row uuid machineId backupName backupId backupDate message = Ok row ->
  Forall (fun v => v = zero \/ truthy v = true) (numeric_columns row)
  /\ Forall (fun v => v = zero \/ v = one) (flag_columns row)
  /\ Forall (fun v => v = Null \/ exists text, v = Str text) (text_columns row).
Proof.
  unfold backup_row. intros H.
  destruct (toISOString_or_throw (field message "BeginTime")); [|discriminate].
  destruct (toISOString_or_throw (field message "EndTime")); [|discriminate].
  destruct (optional_date _) as [d1|] eqn:H1; [|discriminate].
  destruct (optional_date (opt_field _ "BeginTime")) as [d2|] eqn:H2;
    [|discriminate].
  simpl in H. inversion H; subst; clear H.
  unfold numeric_columns, flag_columns, text_columns; simpl.
  split; [|split].
  - repeat (constructor; [apply or_else_zero|]). constructor.
  - repeat (constructor; [apply flag_zero_one|]). constructor.
  - repeat (constructor; [apply blob_text|]).
    constructor; [eapply optional_date_text; exact H1|].
    constructor; [eapply optional_date_text; exact H2|]. constructor.
Qed.

(** X12. Defaults of the stored columns. In every record an invocation
    inserts, each of the thirty numeric columns holds 0 or a truthy value
    of the message (never [undefined], [null], [false], an empty text or
    NaN), each of the six flags holds 0 or 1, and each of the three
    serialised arrays and the two optional dates holds [null] or a
    text. *)
Theorem stored_columns_are_defaulted (request_json : option jsval)
  (store : Store) (row : BackupRow) :
  In row (rows_inserted (events (snd (POST request_json (initial store))))) ->
  Forall (fun v => v = zero \/ truthy v = true) (numeric_columns row)
  /\ Forall (fun v => v = zero \/ v = one) (flag_columns row)
  /\ Forall (fun v => v = Null \/ exists text, v = Str text) (text_columns row).
Proof.
  intros Hin.
  pose proof (inserted_rows_built request_json store) as Hall.
  rewrite Forall_forall in Hall.
  destruct (Hall row Hin) as (backupId & uuid & log & message & k & _ & _ & Hrow).
  destruct k as [[machineId backupName] backupDate]; simpl in Hrow.
  eapply backup_row_defaults; exact Hrow.
Qed.


(** *** The backup name of a job *)

Lemma strict_equal_at_string (j i : nat) (ID : jsval) (s : string) :
  strict_equal_at j i ID (Str s) = true <-> ID = Str s.
Proof.
  destruct ID; simpl; try (split; [discriminate | intros E; inversion E]).
  rewrite String.eqb_eq. split; [intros ->; reflexivity | intros E; inversion E; auto].
Qed.

Lemma find_backup_first (i : nat) (s : string) (before after : list jsval)
  (b : jsval) (j : nat) :
  Forall (fun x => exists ID, backup_ID x = Ok ID /\ ID <> Str s) before ->
  backup_ID b = Ok (Str s) ->
  find_backup i (Str s) j (before ++ b :: after) = Ok b.
Proof.
  intros Hbefore Hb. revert j.
  induction Hbefore as [|x rest (ID & Hx & Hne) _ IH]; intros j; simpl.
  - rewrite Hb; simpl. rewrite String.eqb_refl. reflexivity.
  - rewrite Hx; simpl.
    destruct (strict_equal_at j i ID (Str s)) eqn:E.
    + apply strict_equal_at_string in E. contradiction.
    + apply IH.
Qed.

(** X13. The backup name of a job is the name of the first listed backup
    with its id. For a job whose id is the text [s], when the listed
    backups before [b] have other ids and [b] has the id [s], the backup
    name used for the job's runs is the [Name] of [b], whatever the
    position of the job in the list: a later backup that repeats the id
    takes the name of the first one. *)
Theorem backup_name_of_first_match (i : nat) (s : string)
  (before after : list jsval) (b : jsval) :
  Forall (fun x => exists ID, backup_ID x = Ok ID /\ ID <> Str s) before ->
  backup_ID b = Ok (Str s) ->
  find_backup_name (before ++ b :: after) i (Str s)
  = Ok (field (field b "Backup") "Name").
Proof.
  intros Hbefore Hb. unfold find_backup_name.
  rewrite (find_backup_first i s before after b 0 Hbefore Hb); simpl.
  unfold backup_ID, getprop in Hb. unfold getprop.
  destruct (nullish b) eqn:Hnb; simpl in *; [discriminate|].
  destruct (nullish (field b "Backup")) eqn:Hnk; [discriminate|].
  reflexivity.
Qed.

(** X14. A backup without name contributes nothing. When the log of a
    backup is fetched and its retained entries have valid begin timestamps
    but the backup has no (truthy) name, the handling of the log succeeds
    and leaves the state as it is: no lookup, no insert, and none of the
    three counters moves. *)
Theorem nameless_backup_is_ignored (machineId : jsval) (backups : list jsval)
  (i : nat) (backupId backupName : jsval) (logResponse : Http.Resolved)
  (logs : list jsval) (st : State) :
  Http.ok logResponse = true ->
  Http.json logResponse = Arr logs ->
  find_backup_name backups i backupId = Ok backupName ->
  truthy backupName = false ->
  Forall (fun log =>
            forall message, parse_message log = Ok message ->
              toISOString (field message "BeginTime") <> None)
    (filter is_backup_message logs) ->
  collect_logs machineId backups i backupId logResponse st = (Ok tt, st).
Proof.
  intros Hok Hjson Hname Hfalsy Hdates.
  unfold collect_logs. rewrite Hok; simpl. unfold bind, lift.
  rewrite Hjson; simpl.
  assert (Hkept : forall log, In log (filter is_backup_message logs) ->
                              is_backup_message log = true)
    by (intros log Hin; apply filter_In in Hin; apply Hin).
  induction (filter is_backup_message logs) as [|log rest IH]; simpl.
  - reflexivity.
  - inversion Hdates as [|? ? Hlog Hrest]; subst.
    unfold bind. rewrite collect_entry_unfold.
    destruct (kept_message log (Hkept log (or_introl eq_refl)))
      as (message & Hparse & _ & Hn).
    unfold entry_key. rewrite Hparse; simpl.
    unfold getprop. rewrite Hn; simpl.
    specialize (Hlog message Hparse).
    unfold toISOString_or_throw.
    destruct (toISOString (field message "BeginTime")); [|contradiction].
    simpl. rewrite Hname; simpl. rewrite Hfalsy; simpl.
    apply IH; [exact Hrest|].
    intros l Hl; apply Hkept; right; exact Hl.
Qed.

(** *** Runs that are new *)

(** X15. New runs are inserted in the order of the log. When the entries
    handled for a job are valid runs whose triples are pairwise distinct
    and absent from the store, all of them are inserted: the triples of
    the backup rows afterwards are the triples before followed by the
    triples of the entries in the order of the log, [processedCount] grows
    by their number, and the other counters and the machine table do not
    change. *)
Theorem new_runs_inserted_in_order (machineId : jsval) (backups : list jsval)
  (i : nat) (backupId : jsval) (entries : list jsval) (keys : list DedupKey)
  (st : State) :
  Forall2 (fun log k => run_key machineId backups i backupId log = Some k)
    entries keys ->
  NoDup keys ->
  (forall k, In k keys -> checkDuplicateBackup (db st) k = false) ->
  exists st',
    for_of entries (collect_entry machineId backups i backupId) st = (Ok tt, st')
    /\ map key_of (Sink.backups (db st'))
       = (map key_of (Sink.backups (db st)) ++ keys)%list
    /\ processedCount st' = processedCount st + List.length keys
    /\ skippedCount st' = skippedCount st
    /\ errorCount st' = errorCount st
    /\ machines (db st') = machines (db st).
Proof.
  intros Hall. revert st.
  induction Hall as [|log k entries keys Hlog _ IH]; intros st Hnodup Hfresh.
  - exists st. simpl. rewrite app_nil_r. repeat split; auto.
  - inversion Hnodup as [|? ? Hnotin Hnodup']; subst.
    unfold run_key in Hlog.
    destruct (entry_key machineId backups i backupId log)
      as [[[message k0]|]|e] eqn:Hkey; try discriminate.
    destruct (entry_row backupId "" message k0) as [row0|e0] eqn:Hrow0;
      [|discriminate].
    inversion Hlog; subst k0.
    destruct (entry_row_uuid _ _ (uuidv4 (uuids st)) _ _ _ Hrow0) as [row Hrow].
    pose proof (entry_row_key _ _ _ _ _ Hrow) as Hk.
    assert (Hstep : collect_entry machineId backups i backupId log st
                    = (Ok tt, inserted_state row st)).
    { rewrite collect_entry_unfold, Hkey.
      rewrite (Hfresh k (or_introl eq_refl)), Hrow. reflexivity. }
    destruct (IH (inserted_state row st) Hnodup') as (st' & Hrun & Hkeys & Hp & Hs & He & Hm).
    { intros k' Hk'. apply checkDuplicateBackup_false.
      unfold inserted_state. cbn [db Sink.backups].
      rewrite map_app, in_app_iff. intros [H|[H|[]]].
      - apply checkDuplicateBackup_true in H.
        rewrite (Hfresh k' (or_intror Hk')) in H. discriminate.
      - rewrite Hk in H. subst k'. contradiction. }
    exists st'. simpl. rewrite (bind_run _ _ _ _ _ Hstep).
    split; [exact Hrun|]. split; [|split; [|split; [|split]]].
    + rewrite Hkeys. unfold inserted_state; cbn [db Sink.backups].
      rewrite map_app, <- app_assoc. simpl. rewrite Hk. reflexivity.
    + rewrite Hp. simpl. lia.
    + rewrite Hs. reflexivity.
    + rewrite He. reflexivity.
    + rewrite Hm. reflexivity.
Qed.

(** *** The identifiers of the records *)

(** The identifiers of the inserted records are draws of [uuidv4] at
    increasing positions. *)
Definition ids_drawn (st : State) : Prop :=
  exists positions,
    map Sink.id (rows_inserted (events st))
    = map (fun n => Str (uuidv4 n)) positions
    /\ NoDup positions
    /\ Forall (fun n => n < uuids st) positions.

Lemma collect_entry_ids machineId listing i backupId log :
  preserves ids_drawn (collect_entry machineId listing i backupId log).
Proof.
  intros st (positions & Hids & Hnodup & Hlt). rewrite collect_entry_unfold.
  assert (Hsame : ids_drawn st) by (exists positions; auto).
  destruct (entry_key machineId listing i backupId log) as [[[message k]|]|e];
    simpl; try exact Hsame.
  destruct (checkDuplicateBackup (db st) k); simpl;
    [exists positions; unfold skipped_state; simpl; auto|].
  destruct (entry_row backupId (uuidv4 (uuids st)) message k) as [row|e] eqn:Hrow;
    simpl; unfold ids_drawn; simpl.
  - exists (positions ++ [uuids st])%list. split; [|split].
    + rewrite !map_app, Hids. simpl.
      destruct k as [[m n] d]; simpl in Hrow.
      apply backup_row_fields in Hrow as (-> & _). reflexivity.
    + apply NoDup_app; auto.
      * constructor; [intros [] | constructor].
      * intros n Hn [<-|[]]. rewrite Forall_forall in Hlt.
        specialize (Hlt _ Hn). lia.
    + apply Forall_app; split.
      * eapply Forall_impl; [|exact Hlt]. simpl; intros; lia.
      * constructor; [lia | constructor].
  - exists positions. repeat split; auto.
    eapply Forall_impl; [|exact Hlt]. simpl; intros; lia.
Qed.

(** X16. The identifiers of the records of one invocation are distinct.
    When [uuidv4] never returns the same identifier twice, no two records
    inserted by an invocation have the same [id]. *)
Theorem row_ids_are_distinct (request_json : option jsval) (store : Store) :
  (forall m n, uuidv4 m = uuidv4 n -> m = n) ->
  NoDup (map Sink.id
           (rows_inserted (events (snd (POST request_json (initial store)))))).
Proof.
  intros Hinj.
  assert (H : ids_drawn (snd (POST request_json (initial store)))).
  { destruct (POST_course request_json (initial store))
      as [(_ & Hrows & _)|(body & t & authToken & machineId & machineName & st1
                           & -> & Hv & Hi)].
    - exists nil. rewrite Hrows. simpl. repeat split; constructor.
    - rewrite (POST_unfold _ _ _ _ _ _ _ Hv Hi); cbv zeta.
      apply identify_state in Hi as (-> & _ & _).
      set (st3 := record_event _ (upserted machineId machineName _)).
      assert (H0 : ids_drawn st3)
        by (exists nil; simpl; repeat split; constructor).
      destruct (listed _) as [listing|e]; [|exact H0].
      destruct (map_result backup_ID listing) as [[|backupId rest]|e];
        try exact H0.
      cbn [snd].
      apply (chain_process_backups ids_drawn machineId listing); auto.
      intros i b log _. apply collect_entry_ids. }
  destruct H as (positions & Hids & Hnodup & _).
  rewrite Hids. clear Hids.
  induction Hnodup as [|n rest Hn _ IH]; simpl; constructor; auto.
  intros Hin. apply in_map_iff in Hin as (m & Hm & Hin).
  inversion Hm as [Hu]. apply Hinj in Hu. subst m. contradiction.
Qed.

End Route.

(** ** The conversion of durations *)

Section DurationFacts.

Lemma digit_value_char (d : digit) : digit_value (digit_char d) = Some (digit_Z d).
Proof. destruct d; reflexivity. Qed.

Lemma number_value_digits (ds : list digit) (acc : Z) :
  number_value acc (digit_chars ds)
  = Some (fold_left (fun a d => 10 * a + digit_Z d)%Z ds acc).
Proof.
  revert acc; induction ds as [|d ds IH]; intros acc; simpl.
  - reflexivity.
  - rewrite digit_value_char. apply IH.
Qed.

Lemma digits_digit_chars (d : digit) (ds : list digit) :
  digits (digit_chars (d :: ds)) = Some (digits_Z (d :: ds)).
Proof.
  unfold digits_Z. rewrite <- number_value_digits. reflexivity.
Qed.

Lemma two_digits_chars (a b : digit) :
  two_digits (digit_chars [a; b]) = Some (10 * digit_Z a + digit_Z b)%Z.
Proof.
  destruct a, b; reflexivity.
Qed.

(** A text without the separator is one piece. *)
Lemma split_on_free (sep : ascii) (cs : list ascii) :
  Forall (fun c => Ascii.eqb c sep = false) cs -> split_on sep cs = [cs].
Proof.
  induction 1 as [|c cs Hc _ IH]; simpl.
  - reflexivity.
  - rewrite Hc, IH. reflexivity.
Qed.

(** The first piece ends at the first separator. *)
Lemma split_on_first (sep : ascii) (piece rest : list ascii) :
  Forall (fun c => Ascii.eqb c sep = false) piece ->
  split_on sep (piece ++ sep :: rest) = piece :: split_on sep rest.
Proof.
  induction 1 as [|c cs Hc _ IH]; simpl.
  - rewrite Ascii.eqb_refl. reflexivity.
  - rewrite Hc, IH. reflexivity.
Qed.

Lemma digit_chars_free (sep : ascii) (ds : list digit) :
  (forall d, Ascii.eqb (digit_char d) sep = false) ->
  Forall (fun c => Ascii.eqb c sep = false) (digit_chars ds).
Proof.
  intros H. induction ds as [|d ds IH]; simpl; constructor; auto.
Qed.

Lemma digit_not_colon (d : digit) : Ascii.eqb (digit_char d) colon = false.
Proof. destruct d; reflexivity. Qed.

Lemma digit_not_dot (d : digit) : Ascii.eqb (digit_char d) dot = false.
Proof. destruct d; reflexivity. Qed.

(** The format law: a text of the format is converted to its total number
    of whole seconds. *)
Lemma parse_duration_render (days : option (digit * list digit))
  (h1 h2 m1 m2 s1 s2 : digit) (fractional : option (digit * list digit)) :
  parse_duration (render days h1 h2 m1 m2 s1 s2 fractional)
  = Some (days_Z days * 86400
          + (10 * digit_Z h1 + digit_Z h2) * 3600
          + (10 * digit_Z m1 + digit_Z m2) * 60
          + (10 * digit_Z s1 + digit_Z s2))%Z.
Proof.
  unfold parse_duration, render.
  rewrite list_ascii_of_string_of_list_ascii.
  set (D := match days with
            | Some (d, ds) => (digit_chars (d :: ds) ++ [dot])%list
            | None => []
            end).
  set (F := match fractional with
            | Some (f, fs) => dot :: digit_chars (f :: fs)
            | None => []
            end).
  assert (HD : Forall (fun c => Ascii.eqb c colon = false) (D ++ digit_chars [h1; h2])).
  { apply Forall_app; split; [|apply digit_chars_free, digit_not_colon].
    unfold D. destruct days as [[d ds]|]; [|constructor].
    apply Forall_app; split; [apply digit_chars_free, digit_not_colon|].
    constructor; [reflexivity | constructor]. }
  assert (HF : Forall (fun c => Ascii.eqb c colon = false) (digit_chars [s1; s2] ++ F)).
  { apply Forall_app; split; [apply digit_chars_free, digit_not_colon|].
    unfold F. destruct fractional as [[f fs]|]; [|constructor].
    constructor; [reflexivity | apply digit_chars_free, digit_not_colon]. }
  replace (D ++ digit_chars [h1; h2] ++ [colon] ++ digit_chars [m1; m2]
           ++ [colon] ++ digit_chars [s1; s2] ++ F)%list
    with ((D ++ digit_chars [h1; h2]) ++ colon :: digit_chars [m1; m2]
          ++ colon :: digit_chars [s1; s2] ++ F)%list
    by (rewrite <- app_assoc; reflexivity).
  rewrite (split_on_first colon _ _ HD).
  rewrite (split_on_first colon (digit_chars [m1; m2]) _
             (digit_chars_free colon _ digit_not_colon)).
  rewrite (split_on_free colon _ HF).
  assert (Hdh : match split_on dot (D ++ digit_chars [h1; h2]) with
                | [hh] => Some (0%Z, hh)
                | [dd; hh] => option_map (fun d => (d, hh)) (digits dd)
                | _ => None
                end = Some (days_Z days, digit_chars [h1; h2])).
  { unfold D. destruct days as [[d ds]|].
    - replace ((digit_chars (d :: ds) ++ [dot]) ++ digit_chars [h1; h2])%list
        with (digit_chars (d :: ds) ++ dot :: digit_chars [h1; h2])%list
        by (rewrite <- app_assoc; reflexivity).
      rewrite (split_on_first dot (digit_chars (d :: ds)) _
                 (digit_chars_free dot _ digit_not_dot)).
      rewrite (split_on_free dot _ (digit_chars_free dot [h1; h2] digit_not_dot)).
      rewrite digits_digit_chars. reflexivity.
    - change ([] ++ digit_chars [h1; h2])%list with (digit_chars [h1; h2]).
      rewrite (split_on_free dot _ (digit_chars_free dot [h1; h2] digit_not_dot)).
      reflexivity. }
  assert (Hsf : match split_on dot (digit_chars [s1; s2] ++ F) with
                | [ss] => Some ss
                | [ss; fractional] => option_map (fun _ => ss) (digits fractional)
                | _ => None
                end = Some (digit_chars [s1; s2])).
  { unfold F. destruct fractional as [[f fs]|].
    - rewrite (split_on_first dot (digit_chars [s1; s2]) _
                 (digit_chars_free dot _ digit_not_dot)).
      rewrite (split_on_free dot _ (digit_chars_free dot (f :: fs) digit_not_dot)).
      rewrite digits_digit_chars. reflexivity.
    - rewrite app_nil_r.
      rewrite (split_on_free dot _ (digit_chars_free dot [s1; s2] digit_not_dot)).
      reflexivity. }
  rewrite Hdh, Hsf, !two_digits_chars. reflexivity.
Qed.

End DurationFacts.

(** C8. Duration conversion. A duration text of the format
    [[days.]HH:MM:SS[.fractional]] is converted to its total number of
    whole seconds (days times 86400, hours times 3600, minutes times 60,
    seconds; the fraction is dropped); in particular [1.02:03:04] is
    converted to 93784; an absent duration ([undefined], [null]), the empty
    text, a text that is not of the format and a value that is not a text
    are converted to 0. *)
Theorem duration_to_seconds :
  (forall (days : option (digit * list digit)) (h1 h2 m1 m2 s1 s2 : digit)
          (fractional : option (digit * list digit)),
     parseDurationToSeconds (Str (render days h1 h2 m1 m2 s1 s2 fractional))
     = (days_Z days * 86400
        + (10 * digit_Z h1 + digit_Z h2) * 3600
        + (10 * digit_Z m1 + digit_Z m2) * 60
        + (10 * digit_Z s1 + digit_Z s2))%Z)
  /\ parseDurationToSeconds (Str "1.02:03:04") = 93784%Z
  /\ parseDurationToSeconds Undefined = 0%Z
  /\ parseDurationToSeconds Null = 0%Z
  /\ parseDurationToSeconds (Str "") = 0%Z
  /\ parseDurationToSeconds (Str "soon") = 0%Z
  /\ parseDurationToSeconds (Str "02:03") = 0%Z
  /\ (forall s, parse_duration s = None -> parseDurationToSeconds (Str s) = 0%Z)
  /\ (forall v, (forall s, v <> Str s) -> parseDurationToSeconds v = 0%Z).
Proof.
  split.
  { intros. unfold parseDurationToSeconds. rewrite parse_duration_render.
    reflexivity. }
  repeat (split; [reflexivity|]).
  split.
  - intros s H. unfold parseDurationToSeconds. rewrite H. reflexivity.
  - intros v H. destruct v; try reflexivity. exfalso. apply (H s). reflexivity.
Qed.

(** ** The database maintenance menu *)

(** The three asynchronous functions of the component
    [DatabaseMaintenanceMenu]: [fetchMachines], [handleCleanup] and
    [handleDeleteMachine]. A run of one of them is the list of the calls it
    makes to its collaborators (the state setters, [fetch], [toast], the
    router, [window.location] and [cleanupDatabase] of the configuration
    context), which are taken not to throw except where they are awaited:
    [fetch], [response.json()] and [cleanupDatabase()] can reject. *)

Module Menu.

(** What a rejected promise or a [throw] carries: an instance of [Error]
    with its message, or any other value. *)
Inductive Thrown : Type :=
| ErrorObject (message : string)
| OtherValue.

(** A response of [fetch]: its [ok] flag and what [response.json()] settles
    to. *)
Record Answer : Type := {
  ok : bool;
  json : Thrown + jsval
}.

(** The calls a run makes. *)
Inductive Call : Type :=
| Fetch (url : string) (method : option string)
| SetIsCleaning (value : bool)
| SetIsDeletingMachine (value : bool)
| SetMachines (machineList : jsval)
| SetSelectedMachine (value : string)
| Toast (title : string) (description : jsval) (variant : string) (duration : Z)
| RouterRefresh
| RouterPush (href : string)
| LocationReload
| CleanupDatabase
| SetTimeout (ms : Z)
| ConsoleError.

(** A run: the calls made so far (most recent first) are threaded, and a
    step either returns or throws. *)
Definition Run (A : Type) : Type := list Call -> (Thrown + A) * list Call.

Definition unit_run {A} (a : A) : Run A := fun calls => (inr a, calls).

Definition then_run {A B} (m : Run A) (k : A -> Run B) : Run B :=
  fun calls =>
    match m calls with
    | (inr a, calls') => k a calls'
    | (inl thrown, calls') => (inl thrown, calls')
    end.

Definition raise {A} (thrown : Thrown) : Run A := fun calls => (inl thrown, calls).

Definition call (c : Call) : Run unit := fun calls => (inr tt, c :: calls).

(** [try { body } catch (error) { handler } finally { last }]. *)
Definition try_catch_finally (body : Run unit) (handler : Thrown -> Run unit)
  (last : Run unit) : Run unit :=
  fun calls =>
    match body calls with
    | (inr _, calls') => last calls'
    | (inl thrown, calls') =>
        match handler thrown calls' with
        | (inr _, calls'') => last calls''
        | (inl thrown', calls'') =>
            match last calls'' with
            | (inr _, calls''') => (inl thrown', calls''')
            | (inl thrown'', calls''') => (inl thrown'', calls''')
            end
        end
    end.

(** [try { body } catch (error) { handler }]. *)
Definition try_catch (body : Run unit) (handler : Thrown -> Run unit) : Run unit :=
  fun calls =>
    match body calls with
    | (inr a, calls') => (inr a, calls')
    | (inl thrown, calls') => handler thrown calls'
    end.

Declare Scope menu_scope.
Delimit Scope menu_scope with menu.
Notation "x <- m ;; k" := (then_run m (fun x => k))
  (at level 61, m at next level, right associativity) : menu_scope.
Notation "m ;; k" := (then_run m (fun _ => k))
  (at level 61, right associativity) : menu_scope.

Section Component.

Local Open Scope menu_scope.

(** What [fetch] settles to, given the calls made before. *)
Variable fetch_answer : list Call -> string -> option string -> Thrown + Answer.
(** What [cleanupDatabase()] settles to: [None] when it resolves. *)
Variable cleanup_outcome : list Call -> option Thrown.
(** The message of the [TypeError] of a property read on [null]. *)
Variable null_read_message : string.

Definition fetch (url : string) (method : option string) : Run Answer :=
  fun calls =>
    (fetch_answer calls url method, Fetch url method :: calls).

Definition response_json (response : Answer) : Run jsval :=
  fun calls => (json response, calls).

Definition cleanupDatabase : Run unit :=
  fun calls =>
    match cleanup_outcome calls with
    | None => (inr tt, CleanupDatabase :: calls)
    | Some thrown => (inl thrown, CleanupDatabase :: calls)
    end.

(** [error instanceof Error ? error.message : fallback]. *)
Definition message_or (thrown : Thrown) (fallback : string) : string :=
  match thrown with
  | ErrorObject message => message
  | OtherValue => fallback
  end.

(** [result.message]. *)
Definition read_message (result : jsval) : Run jsval :=
  if nullish result then raise (ErrorObject null_read_message)
  else unit_run (field result "message").

(** The function [fetchMachines] of the effect that runs on mount. *)
Definition fetchMachines : Run unit :=
  try_catch
    (response <- fetch "/api/machines" None ;;
     if ok response then
       machineList <- response_json response ;;
       call (SetMachines machineList)
     else unit_run tt)
    (fun _ => call ConsoleError).

Definition handleCleanup (pathname : string) : Run unit :=
  try_catch_finally
    (call (SetIsCleaning true) ;;
     cleanupDatabase ;;
     call (Toast "Database cleaned"
             (Str "Old records have been successfully removed.") "default" 5000%Z) ;;
     call RouterRefresh ;;
     call (SetTimeout 100%Z) ;;
     if String.prefix "/detail/" pathname then call LocationReload
     else unit_run tt)
    (fun error =>
       call ConsoleError ;;
       let errorMessage :=
         message_or error "Unknown error occurred. Please try again." in
       call (Toast "Database Cleanup Failed" (Str errorMessage) "destructive" 10000%Z))
    (call (SetIsCleaning false)).

Definition handleDeleteMachine (selectedMachine pathname : string) : Run unit :=
  if String.eqb selectedMachine "" then unit_run tt
  else
    try_catch_finally
      (call (SetIsDeletingMachine true) ;;
       response <- fetch ("/api/machines/" ++ selectedMachine) (Some "DELETE") ;;
       if negb (ok response) then raise (ErrorObject "Failed to delete machine")
       else
         result <- response_json response ;;
         description <- read_message result ;;
         call (Toast "Machine deleted" description "default" 5000%Z) ;;
         call (SetSelectedMachine "") ;;
         machinesResponse <- fetch "/api/machines" None ;;
         (if ok machinesResponse then
            machineList <- response_json machinesResponse ;;
            call (SetMachines machineList)
          else unit_run tt) ;;
         call RouterRefresh ;;
         if String.prefix ("/detail/" ++ selectedMachine) pathname
         then call (RouterPush "/")
         else unit_run tt)
      (fun error =>
         call ConsoleError ;;
         let errorMessage :=
           message_or error "Failed to delete machine. Please try again." in
         call (Toast "Machine Deletion Failed" (Str errorMessage)
                 "destructive" 10000%Z))
      (call (SetIsDeletingMachine false)).

(** The calls of a run started afresh, in the order they are made. *)
Definition calls_of (r : Run unit) : list Call := rev (snd (r [])).

(** The run returns (it does not throw). *)
Definition returns (r : Run unit) : Prop := fst (r []) = inr tt.


(** *** Properties of the handlers *)

(** Runs a handler symbolically, splitting on the outcome of every awaited
    call and on every test. *)
Ltac run_cases :=
  cbv beta iota zeta delta
    [calls_of returns handleDeleteMachine handleCleanup fetchMachines
     try_catch_finally try_catch then_run call fetch response_json
     cleanupDatabase read_message raise unit_run];
  repeat (match goal with
          | |- context [match ?x with _ => _ end] =>
              lazymatch x with
              | context [match _ with _ => _ end] => fail
              | _ => destruct x eqn:?
              end
          end; cbv beta iota zeta).

(** Splits the hypotheses on the membership of a call in a run. *)
Ltac in_cases :=
  repeat match goal with
         | H : _ \/ _ |- _ => destruct H
         | H : _ /\ _ |- _ => destruct H
         | H : exists _, _ |- _ => destruct H
         | H : False |- _ => destruct H
         | H : @eq Call _ _ |- _ => first [discriminate H | inversion H; subst; clear H]
         end.

Definition is_deleting_flag (c : Call) : bool :=
  match c with
  | SetIsDeletingMachine _ => true
  | _ => false
  end.

Definition is_delete_request (c : Call) : bool :=
  match c with
  | Fetch _ (Some "DELETE") => true
  | _ => false
  end.

(** X17. The deletion handler is guarded and bracketed. With no machine
    selected the handler makes no call at all. With a machine selected it
    always returns; its first call sets the busy flag, its second call is
    the one DELETE request, to the url of the selected machine, and its
    last call clears the busy flag, whatever [fetch] and the decoding of
    the responses do; the flag is set and cleared once. *)
Theorem deletion_is_guarded_and_bracketed (selectedMachine pathname : string) :
  (selectedMachine = "" ->
   calls_of (handleDeleteMachine selectedMachine pathname) = []
   /\ returns (handleDeleteMachine selectedMachine pathname))
  /\ (selectedMachine <> "" ->
      returns (handleDeleteMachine selectedMachine pathname)
      /\ firstn 2 (calls_of (handleDeleteMachine selectedMachine pathname))
         = [SetIsDeletingMachine true;
            Fetch ("/api/machines/" ++ selectedMachine) (Some "DELETE")]
      /\ last (calls_of (handleDeleteMachine selectedMachine pathname)) ConsoleError
         = SetIsDeletingMachine false
      /\ filter is_deleting_flag
           (calls_of (handleDeleteMachine selectedMachine pathname))
         = [SetIsDeletingMachine true; SetIsDeletingMachine false]
      /\ filter is_delete_request
           (calls_of (handleDeleteMachine selectedMachine pathname))
         = [Fetch ("/api/machines/" ++ selectedMachine) (Some "DELETE")]).
Proof.
  split.
  - intros ->. split; reflexivity.
  - intros Hsel. apply String.eqb_neq in Hsel.
    unfold handleDeleteMachine. rewrite Hsel.
    set (url := ("/api/machines/" ++ selectedMachine)%string).
    set (onDetail := String.prefix _ pathname).
    repeat split; run_cases; reflexivity.
Qed.


(** X18. A refused deletion. When the DELETE request is rejected, or its
    response is not ok, the handler logs the error, shows the one toast
    "Machine Deletion Failed" (with the message of the rejection, the
    fallback text when the rejection is no [Error], or "Failed to delete
    machine" for a response that is not ok) and clears the busy flag; the
    selection is kept, the list is not fetched again and nothing is
    refreshed. *)
Theorem refused_deletion_reports_failure
  (selectedMachine pathname failure : string) :
  selectedMachine <> "" ->
  match fetch_answer [SetIsDeletingMachine true]
          ("/api/machines/" ++ selectedMachine) (Some "DELETE") with
  | inl thrown =>
      failure = message_or thrown "Failed to delete machine. Please try again."
  | inr response =>
      ok response = false /\ failure = "Failed to delete machine"
  end ->
  calls_of (handleDeleteMachine selectedMachine pathname)
  = [SetIsDeletingMachine true;
     Fetch ("/api/machines/" ++ selectedMachine) (Some "DELETE");
     ConsoleError;
     Toast "Machine Deletion Failed" (Str failure) "destructive" 10000;
     SetIsDeletingMachine false].
Proof.
  intros Hsel Hrefused. apply String.eqb_neq in Hsel.
  unfold handleDeleteMachine. rewrite Hsel.
  set (url := ("/api/machines/" ++ selectedMachine)%string) in *.
  set (onDetail := String.prefix _ pathname).
  cbv beta iota zeta delta
    [calls_of try_catch_finally then_run call fetch raise].
  destruct (fetch_answer [SetIsDeletingMachine true] url (Some "DELETE"))
    as [thrown | response].
  - subst failure. reflexivity.
  - destruct Hrefused as [Hok ->]. rewrite Hok. reflexivity.
Qed.

(** X19. The handler navigates only to the home page, and only after a
    deletion that went through: a call of [router.push] means that the
    DELETE response was ok and carried a decodable body, that the
    selection was reset and the page data refreshed, that no error was
    logged, and that the current path starts with the detail path of the
    deleted machine. *)
Theorem redirect_only_after_deletion
  (selectedMachine pathname href : string) :
  In (RouterPush href) (calls_of (handleDeleteMachine selectedMachine pathname)) ->
  href = "/"
  /\ selectedMachine <> ""
  /\ String.prefix ("/detail/" ++ selectedMachine) pathname = true
  /\ (exists response result,
        fetch_answer [SetIsDeletingMachine true]
          ("/api/machines/" ++ selectedMachine) (Some "DELETE") = inr response
        /\ ok response = true
        /\ json response = inr result
        /\ nullish result = false)
  /\ In (SetSelectedMachine "") (calls_of (handleDeleteMachine selectedMachine pathname))
  /\ In RouterRefresh (calls_of (handleDeleteMachine selectedMachine pathname))
  /\ ~ In ConsoleError (calls_of (handleDeleteMachine selectedMachine pathname)).
Proof.
  unfold handleDeleteMachine.
  destruct (String.eqb selectedMachine "") eqn:Hsel.
  - intros [].
  - apply String.eqb_neq in Hsel.
    set (url := ("/api/machines/" ++ selectedMachine)%string) in *.
    set (onDetail := String.prefix _ pathname).
    run_cases; cbn [rev app snd In]; intros Hin;
      repeat match goal with
             | H : _ \/ _ |- _ => destruct H
             | H : False |- _ => destruct H
             | H : _ = RouterPush _ |- _ => try discriminate H; injection H as <-
             end.
    all: repeat split; try assumption; try reflexivity.
    all: try (eexists; eexists; repeat split; try eassumption;
              match goal with
              | H : negb ?b = false |- ?b = true =>
                  now destruct b
              end).
    all: try (now repeat (first [left; reflexivity | right])).
    all: intros Hno;
      repeat match goal with
             | H : _ \/ _ |- _ => destruct H
             | H : False |- _ => destruct H
             | H : _ = ConsoleError |- _ => discriminate H
             end.
Qed.

(** The calls made, most recent first, when the list of machines is
    fetched again after a deletion. *)
Definition before_reload (selectedMachine : string) (description : jsval)
  : list Call :=
  [SetSelectedMachine "";
   Toast "Machine deleted" description "default" 5000;
   Fetch ("/api/machines/" ++ selectedMachine) (Some "DELETE");
   SetIsDeletingMachine true].

(** X20. A deletion that went through, followed by a failing reload of the
    list. When the DELETE response is ok with a body other than [null] and
    [undefined], and fetching the list again is rejected (or the body of
    its ok response cannot be decoded), the handler shows the success toast
    "Machine deleted" and then the toast "Machine Deletion Failed"; the
    selection is reset, but the page data is not refreshed and the handler
    does not navigate. *)
Theorem failed_reload_after_deletion
  (selectedMachine pathname : string) (response : Answer) (result : jsval)
  (thrown : Thrown) :
  selectedMachine <> "" ->
  fetch_answer [SetIsDeletingMachine true]
    ("/api/machines/" ++ selectedMachine) (Some "DELETE") = inr response ->
  ok response = true ->
  json response = inr result ->
  nullish result = false ->
  match fetch_answer (before_reload selectedMachine (field result "message"))
          "/api/machines" None with
  | inl rejection => rejection = thrown
  | inr machinesResponse =>
      ok machinesResponse = true /\ json machinesResponse = inl thrown
  end ->
  calls_of (handleDeleteMachine selectedMachine pathname)
  = [SetIsDeletingMachine true;
     Fetch ("/api/machines/" ++ selectedMachine) (Some "DELETE");
     Toast "Machine deleted" (field result "message") "default" 5000;
     SetSelectedMachine "";
     Fetch "/api/machines" None;
     ConsoleError;
     Toast "Machine Deletion Failed"
       (Str (message_or thrown "Failed to delete machine. Please try again."))
       "destructive" 10000;
     SetIsDeletingMachine false].
Proof.
  intros Hsel Hdelete Hok Hjson Hresult Hreload.
  apply String.eqb_neq in Hsel.
  unfold handleDeleteMachine, before_reload in *. rewrite Hsel.
  set (url := ("/api/machines/" ++ selectedMachine)%string) in *.
  set (onDetail := String.prefix _ pathname).
  cbv beta iota zeta delta
    [calls_of try_catch_finally then_run call fetch raise response_json
     read_message unit_run].
  rewrite Hdelete. cbv beta iota. rewrite Hok. cbn [negb].
  rewrite Hjson. cbv beta iota. rewrite Hresult. cbv beta iota.
  destruct (fetch_answer _ "/api/machines" None) as [rejection | machinesResponse].
  - subst rejection. reflexivity.
  - destruct Hreload as [Hok' Hjson']. rewrite Hok'. cbv beta iota.
    rewrite Hjson'. reflexivity.
Qed.

(** X21. A deletion that went through. When the DELETE response is ok with
    a body other than [null] and [undefined] and fetching the list again
    resolves (with a decodable body if that response is ok), the handler
    shows the toast "Machine deleted" with the message of the body, resets
    the selection, replaces the list only if the second response is ok (a
    response that is not ok is passed over in silence), refreshes the page
    data, navigates to the home page exactly when the current path starts
    with the detail path of the deleted machine, and clears the busy
    flag. *)
Theorem deletion_went_through
  (selectedMachine pathname : string) (response machinesResponse : Answer)
  (result machineList : jsval) :
  selectedMachine <> "" ->
  fetch_answer [SetIsDeletingMachine true]
    ("/api/machines/" ++ selectedMachine) (Some "DELETE") = inr response ->
  ok response = true ->
  json response = inr result ->
  nullish result = false ->
  fetch_answer (before_reload selectedMachine (field result "message"))
    "/api/machines" None = inr machinesResponse ->
  (ok machinesResponse = true -> json machinesResponse = inr machineList) ->
  calls_of (handleDeleteMachine selectedMachine pathname)
  = ([SetIsDeletingMachine true;
      Fetch ("/api/machines/" ++ selectedMachine) (Some "DELETE");
      Toast "Machine deleted" (field result "message") "default" 5000;
      SetSelectedMachine "";
      Fetch "/api/machines" None]
     ++ (if ok machinesResponse then [SetMachines machineList] else [])
     ++ [RouterRefresh]
     ++ (if String.prefix ("/detail/" ++ selectedMachine) pathname
         then [RouterPush "/"] else [])
     ++ [SetIsDeletingMachine false])%list
  /\ returns (handleDeleteMachine selectedMachine pathname).
Proof.
  intros Hsel Hdelete Hok Hjson Hresult Hreload Hlist.
  apply String.eqb_neq in Hsel.
  unfold handleDeleteMachine, before_reload in *. rewrite Hsel.
  set (url := ("/api/machines/" ++ selectedMachine)%string) in *.
  set (onDetail := String.prefix _ pathname).
  cbv beta iota zeta delta
    [calls_of returns try_catch_finally then_run call fetch raise response_json
     read_message unit_run].
  rewrite Hdelete. cbv beta iota. rewrite Hok. cbn [negb].
  rewrite Hjson. cbv beta iota. rewrite Hresult. cbv beta iota.
  rewrite Hreload. cbv beta iota.
  destruct (ok machinesResponse).
  - rewrite (Hlist eq_refl). destruct onDetail; split; reflexivity.
  - destruct onDetail; split; reflexivity.
Qed.

Definition is_toast (c : Call) : bool :=
  match c with
  | Toast _ _ _ _ => true
  | _ => false
  end.

(** X22. The cleanup handler always returns. Its first call sets the busy
    flag and its last call clears it. It shows exactly one toast: the
    destructive one, with the message of the rejection (or the fallback
    text when the rejection is no [Error]), when [cleanupDatabase] is
    rejected, the success one otherwise. The page data is refreshed exactly
    when the cleanup resolved, and the window is reloaded exactly when it
    resolved and the current path starts with "/detail/". *)
Theorem cleanup_outcomes (pathname : string) :
  returns (handleCleanup pathname)
  /\ hd_error (calls_of (handleCleanup pathname)) = Some (SetIsCleaning true)
  /\ last (calls_of (handleCleanup pathname)) ConsoleError = SetIsCleaning false
  /\ filter is_toast (calls_of (handleCleanup pathname))
     = [match cleanup_outcome [SetIsCleaning true] with
        | None =>
            Toast "Database cleaned"
              (Str "Old records have been successfully removed.") "default" 5000
        | Some thrown =>
            Toast "Database Cleanup Failed"
              (Str (message_or thrown "Unknown error occurred. Please try again."))
              "destructive" 10000
        end]
  /\ (In RouterRefresh (calls_of (handleCleanup pathname))
      <-> cleanup_outcome [SetIsCleaning true] = None)
  /\ (In LocationReload (calls_of (handleCleanup pathname))
      <-> cleanup_outcome [SetIsCleaning true] = None
          /\ String.prefix "/detail/" pathname = true).
Proof.
  unfold handleCleanup.
  set (onDetail := String.prefix _ pathname).
  run_cases; cbn [rev app snd fst In filter is_toast hd_error last];
    repeat split; try reflexivity; try discriminate;
    intros; in_cases; auto 10; discriminate.
Qed.

(** X23. The load of the list of machines on mount never throws; its first
    call is the request of "/api/machines", and at most one call follows.
    The list is replaced exactly when the response is ok and its body
    decodes, and then with that body; an error is logged exactly when the
    request is rejected or the body of an ok response does not decode; a
    response that is not ok is passed over in silence. *)
Theorem machines_loaded_on_mount :
  returns fetchMachines
  /\ hd_error (calls_of fetchMachines) = Some (Fetch "/api/machines" None)
  /\ (forall machineList,
        In (SetMachines machineList) (calls_of fetchMachines)
        <-> exists response,
              fetch_answer [] "/api/machines" None = inr response
              /\ ok response = true
              /\ json response = inr machineList)
  /\ (In ConsoleError (calls_of fetchMachines)
      <-> match fetch_answer [] "/api/machines" None with
          | inl _ => True
          | inr response =>
              ok response = true /\ exists thrown, json response = inl thrown
          end)
  /\ List.length (calls_of fetchMachines) <= 2.
Proof.
  run_cases; cbn [rev app snd fst In hd_error List.length];
    repeat split; try reflexivity; try lia;
    intros; in_cases; eauto 10; try discriminate; try congruence.
  right; left. congruence.
Qed.

End Component.

End Menu.


(** ** A concrete runtime and concrete remote ends *)

Module Sample.

(** *** The runtime *)

Definition decimal (z : Z) : string := NilZero.string_of_int (Z.to_int z).

(** [String(n)], on the numbers the samples use (the integers). *)
Definition NumberToString (n : number) : string :=
  match n with
  | Finite q =>
      if Pos.eqb (Qden q) 1 then decimal (Qnum q)
      else decimal (Qnum q) ++ "/" ++ decimal (Zpos (Qden q))
  | Infinity false => "Infinity"
  | Infinity true => "-Infinity"
  | NaN => "NaN"
  end.

(** [Number(s)], on the strings the samples use (runs of digits). *)
Definition StringToNumber (s : string) : number :=
  match s with
  | "" => num_of_nat 0
  | _ =>
      match digits (list_ascii_of_string s) with
      | Some z => Finite (inject_Z z)
      | None => NaN
      end
  end.

Definition backslash : ascii := "092"%char.
Definition quote : ascii := "034"%char.

Fixpoint escape (s : string) : string :=
  match s with
  | EmptyString => EmptyString
  | String c rest =>
      if Ascii.eqb c quote || Ascii.eqb c backslash
      then String backslash (String c (escape rest))
      else String c (escape rest)
  end.

(** [JSON.stringify(v)], on the values [JSON.parse] produces. *)
Fixpoint JSON_stringify (v : jsval) : string :=
  match v with
  | Undefined => "null"
  | Null => "null"
  | Bool true => "true"
  | Bool false => "false"
  | Num n => NumberToString n
  | Str s => String quote (escape s ++ String quote "")
  | Arr elems =>
      "[" ++ (fix join (l : list jsval) : string :=
                match l with
                | [] => ""
                | x :: rest =>
                    JSON_stringify x
                    ++ match rest with
                       | [] => ""
                       | _ => "," ++ join rest
                       end
                end) elems ++ "]"
  | Obj props =>
      "{" ++ (fix join (l : list (string * jsval)) : string :=
                match l with
                | [] => ""
                | (k, x) :: rest =>
                    String quote (escape k ++ String quote "") ++ ":"
                    ++ JSON_stringify x
                    ++ match rest with
                       | [] => ""
                       | _ => "," ++ join rest
                       end
                end) props ++ "}"
  end.

(** [JSON.parse(text)], on the texts of the values [known]: the value whose
    text it is; a [SyntaxError] on the other texts the samples use, none of
    which is JSON. *)
Definition JSON_parse (known : list jsval) (text : string) : option jsval :=
  find (fun v => String.eqb (JSON_stringify v) text) known.

(** [new Date(v).toISOString()], on the values the samples use: two
    timestamps, and values that are not dates. *)
Definition toISOString (v : jsval) : option string :=
  match v with
  | Str "2024-05-01T10:00:00Z" => Some "2024-05-01T10:00:00.000Z"
  | Str "2024-05-01T10:30:00Z" => Some "2024-05-01T10:30:00.000Z"
  | Str "2024-05-02T10:00:00Z" => Some "2024-05-02T10:00:00.000Z"
  | Str "2024-05-02T10:30:00Z" => Some "2024-05-02T10:30:00.000Z"
  | _ => None
  end.

Definition uuidv4 (n : nat) : string := "uuid-" ++ decimal (Z.of_nat n).

(** *** The request and the answers of the remote end *)

Definition body : jsval :=
  Obj [("hostname", Str "backup.local"); ("password", Str "secret")].

Definition base : string := "http://backup.local:8200".

(** An answer with a status and a JSON body. *)
Definition answer (statusCode : nat) (statusMessage : string) (v : jsval)
  : Exn + Http.Incoming :=
  inr {| Http.statusCode := Some statusCode;
         Http.statusMessage := Some statusMessage;
         Http.data := JSON_stringify v |}.

(** A remote end that answers by url, in the same way whatever happened
    before, and refuses the connection for the other urls. *)
Definition remote_of (table : list (string * (Exn + Http.Incoming)))
  : list Event -> Http.Request -> Exn + Http.Incoming :=
  fun _ request =>
    match find (fun row => String.eqb (fst row) (Http.url request)) table with
    | Some row => snd row
    | None => inl (ConnectionError "connect ECONNREFUSED")
    end.

Definition login_data : jsval := Obj [("AccessToken", Str "token-1")].

Definition systeminfo_data : jsval :=
  Obj [("MachineName", Str "host-1");
       ("Options",
        Arr [Obj [("Name", Str "server-port"); ("DefaultValue", Str "8200")];
             Obj [("Name", Str "machine-id"); ("DefaultValue", Str "machine-1")]])].

Definition job (ID Name : string) : jsval :=
  Obj [("Backup", Obj [("ID", Str ID); ("Name", Str Name)])].

Definition message (operation result begin finish : string) (warnings : Z)
  : jsval :=
  Obj [("MainOperation", Str operation);
       ("ParsedResult", Str result);
       ("BeginTime", Str begin);
       ("EndTime", Str finish);
       ("Duration", Str "00:30:00");
       ("ExaminedFiles", num_of_Z 120);
       ("WarningsActualLength", num_of_Z warnings);
       ("ErrorsActualLength", num_of_Z 0)].

(** A run of 1 May that succeeded with two warnings. *)
Definition run1 : jsval :=
  message "Backup" "Success" "2024-05-01T10:00:00Z" "2024-05-01T10:30:00Z" 2.
(** A run of 2 May that succeeded without warnings. *)
Definition run2 : jsval :=
  message "Backup" "Success" "2024-05-02T10:00:00Z" "2024-05-02T10:30:00Z" 0.
(** A run of 2 May that ended in error. *)
Definition run3 : jsval :=
  message "Backup" "Error" "2024-05-02T10:00:00Z" "2024-05-02T10:30:00Z" 0.
(** A compact operation. *)
Definition compact : jsval :=
  message "Compact" "Success" "2024-05-01T11:00:00Z" "2024-05-01T11:05:00Z" 0.
(** A backup whose begin timestamp is not a date. *)
Definition broken : jsval :=
  message "Backup" "Success" "yesterday" "2024-05-02T10:30:00Z" 0.

(** A backup whose end timestamp is not a date. *)
Definition unfinished : jsval :=
  message "Backup" "Success" "2024-05-01T10:00:00Z" "never" 0.

Definition entry (m : jsval) : jsval := Obj [("Message", Str (JSON_stringify m))].

(** An entry whose message is not JSON. *)
Definition garbage : jsval := Obj [("Message", Str "Backup started")].

Definition documents_log : list jsval :=
  [entry run1; entry compact; garbage; entry run2].
Definition pictures_log : list jsval := [entry run3].
Definition broken_log : list jsval := [entry run1; entry broken; entry run2].

Definition unfinished_log : list jsval := [entry unfinished; entry run2].
Definition repeated_log : list jsval := [entry run1; entry run1].
Definition first_run_log : list jsval := [entry run1].

Definition three_jobs : list jsval :=
  [job "1" "Documents"; job "2" "Pictures"; job "3" "Music"].
Definition namesakes : list jsval :=
  [job "1" "Documents"; job "2" "Documents"].

(** The values whose texts the sample remote ends send. *)
Definition known : list jsval :=
  [ login_data; systeminfo_data;
    Arr [job "1" "Documents"]; Arr three_jobs; Arr [];
    Arr namesakes;
    Arr documents_log; Arr pictures_log; Arr broken_log;
    Arr unfinished_log; Arr first_run_log; Arr repeated_log;
    Obj [("Error", Str "failed")];
    run1; run2; run3; compact; broken; unfinished ].

Definition inventory_answers (jobs : Exn + Http.Incoming)
  : list (string * (Exn + Http.Incoming)) :=
  [ (base ++ "/api/v1/auth/login", answer 200 "OK" login_data);
    (base ++ "/api/v1/systeminfo", answer 200 "OK" systeminfo_data);
    (base ++ "/api/v1/backups", jobs) ].

Definition log_url (ID : string) : string :=
  base ++ "/api/v1/backup/" ++ ID ++ "/log?pagesize=999".

(** One job with two runs and log noise. *)
Definition one_job : list Event -> Http.Request -> Exn + Http.Incoming :=
  remote_of (inventory_answers (answer 200 "OK" (Arr [job "1" "Documents"]))
             ++ [(log_url "1", answer 200 "OK" (Arr documents_log))]).

(** Three jobs; the connection for the log of the second one fails. *)
Definition second_job_unreachable
  : list Event -> Http.Request -> Exn + Http.Incoming :=
  remote_of (inventory_answers (answer 200 "OK" (Arr three_jobs))
             ++ [(log_url "1", answer 200 "OK" (Arr documents_log));
                 (log_url "2", inl (ConnectionError "socket hang up"));
                 (log_url "3", answer 200 "OK" (Arr pictures_log))]).

(** Three jobs; the connection for the log of the second one fails, and
    the second retained entry of the first one has a malformed begin
    timestamp. *)
Definition broken_first_job
  : list Event -> Http.Request -> Exn + Http.Incoming :=
  remote_of (inventory_answers (answer 200 "OK" (Arr three_jobs))
             ++ [(log_url "1", answer 200 "OK" (Arr broken_log));
                 (log_url "2", inl (ConnectionError "socket hang up"));
                 (log_url "3", answer 200 "OK" (Arr pictures_log))]).

(** No job. *)
Definition no_job : list Event -> Http.Request -> Exn + Http.Incoming :=
  remote_of (inventory_answers (answer 200 "OK" (Arr []))).

(** The list of jobs is refused. *)
Definition listing_refused : list Event -> Http.Request -> Exn + Http.Incoming :=
  remote_of (inventory_answers
               (answer 500 "Internal Server Error" (Obj [("Error", Str "failed")]))).

(** One job whose second retained entry has a malformed begin timestamp. *)
Definition broken_entry : list Event -> Http.Request -> Exn + Http.Incoming :=
  remote_of (inventory_answers (answer 200 "OK" (Arr [job "1" "Documents"]))
             ++ [(log_url "1", answer 200 "OK" (Arr broken_log))]).

(** Two jobs of the same name; the first entry of the first job cannot be
    built, and its start time is the start time of the run of the second
    job. *)
Definition namesake_jobs : list Event -> Http.Request -> Exn + Http.Incoming :=
  remote_of (inventory_answers (answer 200 "OK" (Arr namesakes))
             ++ [(log_url "1", answer 200 "OK" (Arr unfinished_log));
                 (log_url "2", answer 200 "OK" (Arr first_run_log))]).

(** One job whose log lists the run of 1 May twice. *)
Definition repeated_entry : list Event -> Http.Request -> Exn + Http.Incoming :=
  remote_of (inventory_answers (answer 200 "OK" (Arr [job "1" "Documents"]))
             ++ [(log_url "1", answer 200 "OK" (Arr repeated_log))]).

Definition empty_store : Store := {| machines := []; backups := [] |}.

(** [POST] over the sample runtime. *)
Notation run remote :=
  (POST NumberToString StringToNumber (JSON_parse known) JSON_stringify
     toISOString uuidv4 remote RaiseConflict).

End Sample.


(** ** The theorems at the samples *)

Module Witness.
Import Sample.

Definition target : Target :=
  {| baseUrl := base; agent := None; password := Str "secret" |}.

Definition token : jsval := Str "token-1".
Definition machine : jsval := Str "machine-1".
Definition host : jsval := Str "host-1".

(** The state an invocation against [one_job] ends in when it starts from
    the empty store. *)
Notation collected := (snd (run one_job (Some body) (initial empty_store))).

Example one_job_collected :
  run one_job (Some body) (initial empty_store) = (Stats 2 0 0, collected)
  /\ map key_of (backups (db collected))
     = [ (machine, Str "Documents", Str "2024-05-01T10:00:00.000Z");
         (machine, Str "Documents", Str "2024-05-02T10:00:00.000Z") ]
  /\ map status (backups (db collected)) = [Str "Warning"; Str "Success"].
Proof. split; [|split]; vm_compute; reflexivity. Qed.

(** The records inserted by that invocation. *)
Definition sample_rows : list BackupRow :=
  Eval vm_compute in rows_inserted (events collected).

(** The status rule at the record of the run of 1 May, which succeeded
    with two warnings. *)
Lemma status_override_witness :
  exists row,
    hd_error sample_rows = Some row
    /\ In row (rows_inserted (events collected))
    /\ exists log message,
         is_backup_message NumberToString (JSON_parse known) log = true
         /\ parse_message NumberToString (JSON_parse known) log = Ok message
         /\ field message "ParsedResult" = Str "Success"
         /\ field message "WarningsActualLength" = num_of_Z 2
         /\ status row = Str "Warning".
Proof.
  eexists. split; [reflexivity|].
  match goal with
  | |- In ?row ?rows /\ _ =>
      assert (Hin : In row rows) by (vm_compute; left; reflexivity)
  end.
  split; [exact Hin|].
  destruct (status_override _ _ _ _ _ _ _ _ _ _ _ Hin)
    as (log & message & Hkept & Hparse & Hresult & Hlength & Hpositive & _).
  assert (Hr : field message "ParsedResult" = Str "Success")
    by (rewrite <- Hresult; reflexivity).
  assert (Hq : field message "WarningsActualLength" = num_of_Z 2).
  { unfold or_else in Hlength.
    destruct (truthy (field message "WarningsActualLength")).
    - rewrite <- Hlength. reflexivity.
    - vm_compute in Hlength. discriminate Hlength. }
  exists log, message.
  split; [exact Hkept|]. split; [exact Hparse|]. split; [exact Hr|].
  split; [exact Hq|].
  apply (Hpositive Hr 2%Q Hq). reflexivity.
Defined.

(** A request that names the protocol [ftp]. *)
Definition ftp_body : jsval :=
  Obj [("hostname", Str "backup.local"); ("password", Str "secret");
       ("protocol", Str "ftp")].

Lemma configuration_error_witness :
  misconfigured (Some ftp_body)
  /\ run one_job (Some ftp_body) (initial empty_store)
     = (BadRequest ("Protocol must be either " ++ quoted "http" ++ " or "
                    ++ quoted "https"),
        initial empty_store).
Proof.
  assert (H : misconfigured (Some ftp_body))
    by (right; right; split; vm_compute; discriminate).
  split; [exact H|].
  exact (configuration_error NumberToString StringToNumber (JSON_parse known)
           JSON_stringify toISOString uuidv4 one_job RaiseConflict
           (Some ftp_body) (initial empty_store) H).
Defined.

(** C5, as the specification words it, fails: a body [null] has neither
    hostname nor password, and so has a body that does not decode; both are
    answered with the 500 answer of the outer [catch], not with a
    configuration error. *)
Lemma configuration_error_counterexample :
  misconfigured (Some Null)
  /\ run one_job (Some Null) (initial empty_store)
     = (ServerError TypeError, initial empty_store)
  /\ misconfigured None
  /\ run one_job None (initial empty_store)
     = (ServerError SyntaxError, initial empty_store)
  /\ ~ configuration_as_claimed NumberToString StringToNumber
         (JSON_parse known) JSON_stringify toISOString uuidv4 one_job
         RaiseConflict.
Proof.
  split; [left; reflexivity|].
  split; [reflexivity|].
  split; [exact I|].
  split; [reflexivity|].
  intros H.
  destruct (H (Some Null) (initial empty_store)) as [message Hm].
  - left; reflexivity.
  - discriminate Hm.
Qed.

(** The two kinds of log noise of [documents_log]. *)
Lemma noise_is_ignored_witness :
  noise NumberToString (JSON_parse known) garbage
  /\ noise NumberToString (JSON_parse known) (entry compact)
  /\ collect_logs NumberToString StringToNumber (JSON_parse known)
       JSON_stringify toISOString uuidv4 RaiseConflict
       machine [job "1" "Documents"] 0 (Str "1")
       {| Http.ok := true; Http.status := 200; Http.statusText := "OK";
          Http.json := Arr ([entry run1; entry compact] ++ garbage :: [entry run2]) |}
       (initial empty_store)
     = collect_logs NumberToString StringToNumber (JSON_parse known)
         JSON_stringify toISOString uuidv4 RaiseConflict
         machine [job "1" "Documents"] 0 (Str "1")
         {| Http.ok := true; Http.status := 200; Http.statusText := "OK";
            Http.json := Arr ([entry run1; entry compact] ++ [entry run2]) |}
         (initial empty_store).
Proof.
  assert (Hgarbage : noise NumberToString (JSON_parse known) garbage)
    by (left; vm_compute; reflexivity).
  assert (Hcompact : noise NumberToString (JSON_parse known) (entry compact)).
  { right. exists compact. split; [vm_compute; reflexivity | vm_compute; discriminate]. }
  split; [exact Hgarbage|]. split; [exact Hcompact|].
  destruct (noise_is_ignored NumberToString StringToNumber (JSON_parse known)
              JSON_stringify toISOString uuidv4 RaiseConflict
              machine [job "1" "Documents"] 0 (Str "1") true 200 "OK"
              [entry run1; entry compact] [entry run2] garbage
              (initial empty_store) Hgarbage) as [Hsame _].
  exact Hsame.
Defined.

(** Steps 1 and 2 over the sample runtime. *)
Notation identified remote :=
  (identify NumberToString (JSON_parse known) JSON_stringify remote target
     (initial empty_store)).

Lemma empty_inventory_witness :
  exists st',
    run no_job (Some body) (initial empty_store) = (NoBackupsFound, st')
    /\ timeline st' =
       (timeline (initial empty_store)
        ++ inventory_operations NumberToString JSON_stringify target
             token machine host)%list
    /\ backups (db st') = backups (db (initial empty_store))
    /\ processedCount st' = processedCount (initial empty_store)
    /\ skippedCount st' = skippedCount (initial empty_store)
    /\ errorCount st' = errorCount (initial empty_store).
Proof.
  apply (empty_inventory NumberToString StringToNumber (JSON_parse known)
           JSON_stringify toISOString uuidv4 no_job RaiseConflict
           body target (initial empty_store) (snd (identified no_job))
           token machine host).
  - vm_compute; reflexivity.
  - vm_compute; reflexivity.
  - intros history. vm_compute; reflexivity.
Defined.

Lemma machine_upsert_precedes_listing_witness :
  fst (run listing_refused (Some body) (initial empty_store))
  = ServerError (Error "Failed to get backups list: Internal Server Error")
  /\ machine_name (db (snd (run listing_refused (Some body) (initial empty_store))))
       machine = Some host
  /\ db (snd (run listing_refused (Some body) (initial empty_store)))
     = upsertMachine (db (initial empty_store)) machine host.
Proof.
  destruct (machine_upsert_precedes_listing NumberToString StringToNumber
              (JSON_parse known) JSON_stringify toISOString uuidv4
              listing_refused RaiseConflict
              body target (initial empty_store) (snd (identified listing_refused))
              (snd (run listing_refused (Some body) (initial empty_store)))
              token machine host
              (fst (run listing_refused (Some body) (initial empty_store))))
    as (_ & _ & Hname & _ & Hfail).
  - vm_compute; reflexivity.
  - vm_compute; reflexivity.
  - vm_compute; reflexivity.
  - destruct (Hfail (Error "Failed to get backups list: Internal Server Error"))
      as [Hresponse Hdb].
    + intros history. vm_compute; reflexivity.
    + split; [exact Hresponse | split; [exact Hname | exact Hdb]].
Defined.

(** The inner loop and one turn of the outer loop over the sample runtime,
    for the only job of [broken_entry]. *)
Notation entries_of l st :=
  (for_of l
     (collect_entry NumberToString StringToNumber (JSON_parse known)
        JSON_stringify toISOString uuidv4 RaiseConflict
        machine [job "1" "Documents"] 0 (Str "1")) st).

Notation documents_request :=
  (log_request NumberToString base None token (Str "1")).

(** The state after the entry of the run of 1 May, the only entry before
    the broken one. *)
Notation after_run1 :=
  (snd (entries_of [entry run1]
          (record_event (Requested documents_request) (initial empty_store)))).

Lemma failing_entry_aborts_job_witness :
  collect_backup_guarded NumberToString StringToNumber (JSON_parse known)
    JSON_stringify toISOString uuidv4 broken_entry RaiseConflict
    base None token machine [job "1" "Documents"] (0, Str "1")
    (initial empty_store)
  = (Ok tt, snd (incr_error after_run1))
  /\ errorCount (snd (incr_error after_run1)) = 1
  /\ processedCount (snd (incr_error after_run1)) = 1
  /\ map date (backups (db (snd (incr_error after_run1))))
     = [Str "2024-05-01T10:00:00.000Z"].
Proof.
  destruct (failing_entry_aborts_job NumberToString StringToNumber
              (JSON_parse known) JSON_stringify toISOString uuidv4
              broken_entry RaiseConflict
              base None token machine [job "1" "Documents"] 0 (Str "1")
              {| Http.ok := true; Http.status := 200; Http.statusText := "OK";
                 Http.json := Arr broken_log |}
              broken_log [entry run1] [entry run2] (entry broken) RangeError
              (initial empty_store) after_run1 after_run1)
    as (Hrun & Herrors & _ & _ & _ & _).
  - vm_compute; reflexivity.
  - reflexivity.
  - reflexivity.
  - vm_compute; reflexivity.
  - vm_compute; reflexivity.
  - vm_compute; reflexivity.
  - split; [exact Hrun|]. split; [exact Herrors|].
    split; vm_compute; reflexivity.
Defined.

Lemma partial_failure_isolation_witness :
  exists processed skipped errors st',
    run second_job_unreachable (Some body) (initial empty_store)
    = (Stats processed skipped errors, st')
    /\ 1 <= errors
    /\ checkDuplicateBackup (db st')
         (machine, Str "Documents", Str "2024-05-01T10:00:00.000Z") = true
    /\ checkDuplicateBackup (db st')
         (machine, Str "Music", Str "2024-05-02T10:00:00.000Z") = true.
Proof.
  destruct (partial_failure_isolation NumberToString StringToNumber
              (JSON_parse known) JSON_stringify toISOString uuidv4
              second_job_unreachable RaiseConflict
              body target (initial empty_store)
              (snd (identified second_job_unreachable))
              token machine host
              (job "1" "Documents") (job "2" "Pictures") (job "3" "Music")
              (Str "1") (Str "2") (Str "3")
              documents_log pictures_log)
    as (processed & skipped & errors & st' & Hrun & _ & Herrors & HA & HC).
  - vm_compute; reflexivity.
  - vm_compute; reflexivity.
  - intros history. vm_compute; reflexivity.
  - reflexivity.
  - intros history. vm_compute; reflexivity.
  - intros history. vm_compute; reflexivity.
  - intros history. vm_compute; reflexivity.
  - apply Forall_forall. intros log Hin. vm_compute in Hin.
    destruct Hin as [<-|[<-|[]]]; vm_compute; discriminate.
  - apply Forall_forall. intros log Hin. vm_compute in Hin.
    destruct Hin as [<-|[]]; vm_compute; discriminate.
  - exists processed, skipped, errors, st'.
    split; [exact Hrun|]. split; [exact Herrors|]. split.
    + apply (HA (entry run1)).
      * vm_compute. left; reflexivity.
      * vm_compute; reflexivity.
      * vm_compute; reflexivity.
    + apply (HC (entry run3)).
      * vm_compute. left; reflexivity.
      * vm_compute; reflexivity.
      * vm_compute; reflexivity.
Defined.

(** C4, as the specification words it, fails. The log of the second of
    three jobs cannot be fetched and the logs of the other two are fetched;
    the log of the first job holds the run of 1 May, an entry whose begin
    timestamp is malformed, and the run of 2 May. The malformed entry ends
    the handling of the first job: the answer counts two errors, and the
    run of 2 May, a valid run of the first job, is not in the store. *)
Lemma partial_failure_isolation_counterexample :
  fst (run broken_first_job (Some body) (initial empty_store)) = Stats 2 0 2
  /\ In (entry run2) broken_log
  /\ is_backup_message NumberToString (JSON_parse known) (entry run2) = true
  /\ run_key NumberToString StringToNumber (JSON_parse known) JSON_stringify
       toISOString machine three_jobs 0 (Str "1") (entry run2)
     = Some (machine, Str "Documents", Str "2024-05-02T10:00:00.000Z")
  /\ checkDuplicateBackup
       (db (snd (run broken_first_job (Some body) (initial empty_store))))
       (machine, Str "Documents", Str "2024-05-02T10:00:00.000Z")
     = false
  /\ ~ isolation_as_claimed NumberToString StringToNumber (JSON_parse known)
         JSON_stringify toISOString uuidv4 broken_first_job RaiseConflict
         body (initial empty_store).
Proof.
  assert (Hin : In (entry run2) broken_log) by (right; right; left; reflexivity).
  assert (Hkept : is_backup_message NumberToString (JSON_parse known) (entry run2)
                  = true) by (vm_compute; reflexivity).
  assert (Hkey : run_key NumberToString StringToNumber (JSON_parse known)
                   JSON_stringify toISOString machine three_jobs 0 (Str "1")
                   (entry run2)
                 = Some (machine, Str "Documents", Str "2024-05-02T10:00:00.000Z"))
    by (vm_compute; reflexivity).
  assert (Habsent : checkDuplicateBackup
                      (db (snd (run broken_first_job (Some body)
                                  (initial empty_store))))
                      (machine, Str "Documents", Str "2024-05-02T10:00:00.000Z")
                    = false) by (vm_compute; reflexivity).
  split; [vm_compute; reflexivity|].
  split; [exact Hin|]. split; [exact Hkept|]. split; [exact Hkey|].
  split; [exact Habsent|].
  intros H.
  destruct (H target (snd (identified broken_first_job)) token machine host
              (job "1" "Documents") (job "2" "Pictures") (job "3" "Music")
              (Str "1") (Str "2") (Str "3") broken_log pictures_log)
    as (processed & skipped & errors & st' & Hrun & _ & HA & _).
  - vm_compute; reflexivity.
  - vm_compute; reflexivity.
  - intros history. vm_compute; reflexivity.
  - reflexivity.
  - intros history. vm_compute; reflexivity.
  - intros history. vm_compute; reflexivity.
  - intros history. vm_compute; reflexivity.
  - assert (Hst : st' = snd (run broken_first_job (Some body) (initial empty_store)))
      by (rewrite Hrun; reflexivity).
    pose proof (HA (entry run2) _ Hin Hkept Hkey) as Hpresent.
    rewrite Hst, Habsent in Hpresent. discriminate Hpresent.
Qed.

Lemma second_invocation_skips_witness :
  stateless one_job
  /\ exists st2,
       run one_job (Some body) (initial (db collected)) = (Stats 0 (2 + 0) 0, st2)
       /\ backups (db st2) = backups (db collected).
Proof.
  assert (Hs : stateless one_job) by (intros history history' request; reflexivity).
  split; [exact Hs|].
  apply (second_invocation_skips NumberToString StringToNumber (JSON_parse known)
           JSON_stringify toISOString uuidv4 one_job RaiseConflict
           (Some body) empty_store 2 0 collected Hs).
  vm_compute; reflexivity.
Defined.

(** C3, as the specification words it, fails. The store holds the two runs
    of the job (an earlier invocation collected them) and the remote end
    answers every request in the same way throughout: the first of two
    invocations in succession processes nothing and skips the two runs,
    and the second one skips the two runs again, which is not the number
    of entries the first one processed. The claim fails from the empty
    store as well, when a log lists a run twice: the first invocation
    processes one entry and skips one, the second one skips two. *)
Lemma idempotence_counterexample :
  stateless one_job
  /\ run one_job (Some body) (initial (db collected))
     = (Stats 0 2 0, snd (run one_job (Some body) (initial (db collected))))
  /\ fst (run one_job (Some body)
            (initial (db (snd (run one_job (Some body) (initial (db collected)))))))
     = Stats 0 2 0
  /\ ~ idempotence_as_claimed NumberToString StringToNumber (JSON_parse known)
         JSON_stringify toISOString uuidv4 one_job RaiseConflict
         (Some body) (db collected)
  /\ stateless repeated_entry
  /\ fst (run repeated_entry (Some body) (initial empty_store)) = Stats 1 1 0
  /\ fst (run repeated_entry (Some body)
            (initial (db (snd (run repeated_entry (Some body)
                                 (initial empty_store))))))
     = Stats 0 2 0
  /\ ~ idempotence_as_claimed NumberToString StringToNumber (JSON_parse known)
         JSON_stringify toISOString uuidv4 repeated_entry RaiseConflict
         (Some body) empty_store.
Proof.
  split; [intros history history' request; reflexivity|].
  split; [vm_compute; reflexivity|].
  split; [vm_compute; reflexivity|].
  split.
  { intros H.
    destruct (H 0 2 0 (snd (run one_job (Some body) (initial (db collected))))
                0 2 0
                (snd (run one_job (Some body)
                        (initial (db (snd (run one_job (Some body)
                                             (initial (db collected)))))))))
      as [_ Hs].
    - vm_compute; reflexivity.
    - vm_compute; reflexivity.
    - discriminate Hs. }
  split; [intros history history' request; reflexivity|].
  split; [vm_compute; reflexivity|].
  split; [vm_compute; reflexivity|].
  intros H.
  destruct (H 1 1 0 (snd (run repeated_entry (Some body) (initial empty_store)))
              0 2 0
              (snd (run repeated_entry (Some body)
                      (initial (db (snd (run repeated_entry (Some body)
                                           (initial empty_store))))))))
    as [_ Hs].
  - vm_compute; reflexivity.
  - vm_compute; reflexivity.
  - discriminate Hs.
Qed.

(** Why the amended C3 asks for a first invocation without error: an
    entry whose record could not be built in the first invocation can be
    skipped in the second one, when a later job of the same name has
    inserted its triple in between; the entries after it, never reached in
    the first invocation, are then processed in the second one. *)
Example first_call_with_error :
  stateless namesake_jobs
  /\ fst (run namesake_jobs (Some body) (initial empty_store)) = Stats 1 0 1
  /\ fst (run namesake_jobs (Some body)
            (initial (db (snd (run namesake_jobs (Some body)
                                 (initial empty_store))))))
     = Stats 1 2 0.
Proof.
  split; [intros history history' request; reflexivity|].
  split; vm_compute; reflexivity.
Qed.

End Witness.


(** ** The further properties at the samples *)

Module Further.
Import Sample.
Import Witness.

Notation login :=
  (login_request JSON_stringify base None (Str "secret")).

Notation systeminfo :=
  (systeminfo_request NumberToString base None token).

(** The answer of [one_job] to the login request. *)
Lemma response_ok_range_witness :
  one_job (events (initial empty_store)) login
  = inr {| Http.statusCode := Some 200;
           Http.statusMessage := Some "OK";
           Http.data := JSON_stringify login_data |}
  /\ exists r,
       fst (makeRequest (JSON_parse known) one_job login (initial empty_store))
       = Ok r
       /\ Http.json r = login_data.
Proof.
  assert (H : one_job (events (initial empty_store)) login
              = inr {| Http.statusCode := Some 200;
                       Http.statusMessage := Some "OK";
                       Http.data := JSON_stringify login_data |})
    by (vm_compute; reflexivity).
  split; [exact H|].
  destruct (response_ok_range (JSON_parse known) one_job login
              (initial empty_store) _ H) as [_ Hdecoded].
  destruct (Hdecoded login_data) as (r & Hr & Hjson & _).
  - vm_compute; reflexivity.
  - exists r. split; [exact Hr | exact Hjson].
Defined.

(** A remote end whose login answer carries no token. *)
Definition tokenless : list Event -> Http.Request -> Exn + Http.Incoming :=
  remote_of [(base ++ "/api/v1/auth/login",
              answer 200 "OK" (Obj [("Error", Str "failed")]))].

Lemma failure_before_upsert_witness :
  fst (run tokenless (Some body) (initial empty_store))
  = ServerError (Error "No authentication token received")
  /\ db (snd (run tokenless (Some body) (initial empty_store)))
     = db (initial empty_store).
Proof.
  destruct (failure_before_upsert NumberToString StringToNumber (JSON_parse known)
              JSON_stringify toISOString uuidv4 tokenless RaiseConflict
              body target (initial empty_store)
              (snd (identified tokenless))
              (Error "No authentication token received"))
    as (Hrun & Hdb & _).
  - vm_compute; reflexivity.
  - vm_compute; reflexivity.
  - split.
    + rewrite Hrun. reflexivity.
    + rewrite Hrun. exact Hdb.
Defined.

(** A remote end that refuses the login. *)
Definition login_refused : list Event -> Http.Request -> Exn + Http.Incoming :=
  remote_of [(base ++ "/api/v1/auth/login",
              answer 401 "Unauthorized" (Obj [("Error", Str "failed")]))].

Lemma refused_login_witness :
  run login_refused (Some body) (initial empty_store)
  = (ServerError (Error "Login failed: Unauthorized"),
     record_event (Requested login) (initial empty_store)).
Proof.
  apply (refused_login NumberToString StringToNumber (JSON_parse known)
           JSON_stringify toISOString uuidv4 login_refused RaiseConflict
           body target (initial empty_store)
           {| Http.ok := false; Http.status := 401;
              Http.statusText := "Unauthorized";
              Http.json := Obj [("Error", Str "failed")] |}).
  - vm_compute; reflexivity.
  - vm_compute; reflexivity.
  - reflexivity.
Defined.

Lemma machine_id_first_option_witness :
  machine_id_of systeminfo_data = Ok (Str "machine-1").
Proof.
  apply (machine_id_first_option systeminfo_data
           (Obj [("Name", Str "machine-id"); ("DefaultValue", Str "machine-1")])
           [Obj [("Name", Str "server-port"); ("DefaultValue", Str "8200")]] []).
  - reflexivity.
  - reflexivity.
  - constructor; [|constructor]. split; [reflexivity | vm_compute; discriminate].
  - reflexivity.
Defined.

(** A remote end whose system info carries neither options nor a machine
    name. *)
Definition anonymous_machine : list Event -> Http.Request -> Exn + Http.Incoming :=
  remote_of [(base ++ "/api/v1/auth/login", answer 200 "OK" login_data);
             (base ++ "/api/v1/systeminfo",
              answer 200 "OK" (Obj [("Error", Str "failed")]))].

Lemma missing_machine_information_witness :
  exists st',
    run anonymous_machine (Some body) (initial empty_store)
    = (ServerError (Error "Could not get machine information"), st')
    /\ db st' = db (initial empty_store)
    /\ timeline st'
       = (timeline (initial empty_store)
          ++ [Requested login; Requested systeminfo])%list.
Proof.
  apply (missing_machine_information NumberToString StringToNumber
           (JSON_parse known) JSON_stringify toISOString uuidv4
           anonymous_machine RaiseConflict
           body target (initial empty_store) token
           {| Http.ok := true; Http.status := 200; Http.statusText := "OK";
              Http.json := Obj [("Error", Str "failed")] |}).
  - vm_compute; reflexivity.
  - vm_compute; reflexivity.
  - vm_compute; reflexivity.
  - reflexivity.
  - reflexivity.
  - left. reflexivity.
Defined.

(** A request over [https] that allows self-signed certificates. *)
Definition https_body : jsval :=
  Obj [("hostname", Str "backup.local"); ("password", Str "secret");
       ("protocol", Str "https"); ("allowSelfSigned", Bool true)].

Definition https_target : Target :=
  {| baseUrl := "https://backup.local:8200";
     agent := Some false;
     password := Str "secret" |}.

Lemma certificate_verification_witness :
  validate NumberToString https_body = Ok (inr https_target)
  /\ (agent https_target = Some false <->
      default_to (field https_body "protocol") (Str "http") = Str "https"
      /\ truthy (field https_body "allowSelfSigned") = true)
  /\ exists sent,
       requests_sent
         (events (snd (run one_job (Some https_body) (initial empty_store))))
       = (sent ++ requests_sent (events (initial empty_store)))%list
       /\ sent <> []
       /\ Forall (fun request => Http.agent request = agent https_target) sent.
Proof.
  assert (H : validate NumberToString https_body = Ok (inr https_target))
    by (vm_compute; reflexivity).
  split; [exact H|].
  destruct (certificate_verification NumberToString StringToNumber
              (JSON_parse known) JSON_stringify toISOString uuidv4
              one_job RaiseConflict
              https_body https_target (initial empty_store) H)
    as (_ & _ & _ & _ & _ & Hagent & Hsent).
  split; [exact Hagent | exact Hsent].
Defined.

(** A request without password. *)
Definition passwordless : jsval := Obj [("hostname", Str "backup.local")].

Lemma bad_request_only_from_checks_witness :
  run one_job (Some passwordless) (initial empty_store)
  = (BadRequest "Password is required", initial empty_store)
  /\ exists request_body,
       Some passwordless = Some request_body
       /\ nullish request_body = false.
Proof.
  assert (H : run one_job (Some passwordless) (initial empty_store)
              = (BadRequest "Password is required", initial empty_store))
    by (vm_compute; reflexivity).
  split; [exact H|].
  destruct (bad_request_only_from_checks NumberToString StringToNumber
              (JSON_parse known) JSON_stringify toISOString uuidv4
              one_job RaiseConflict
              (Some passwordless) (initial empty_store) (initial empty_store)
              "Password is required" H)
    as (_ & request_body & Hbody & Hn & _).
  exists request_body. split; [exact Hbody | exact Hn].
Defined.

(** The requests of an invocation against [second_job_unreachable]. *)
Lemma one_log_request_per_backup_witness :
  run second_job_unreachable (Some body) (initial empty_store)
  = (Stats 3 0 1,
     snd (run second_job_unreachable (Some body) (initial empty_store)))
  /\ exists t authToken listing backupIds,
       validate NumberToString body = Ok (inr t)
       /\ map_result backup_ID listing = Ok backupIds
       /\ rev (requests_sent
                 (events (snd (run second_job_unreachable (Some body)
                                 (initial empty_store)))))
          = (rev (requests_sent (events (initial empty_store)))
             ++ [login_request JSON_stringify (baseUrl t) (agent t) (password t);
                 systeminfo_request NumberToString (baseUrl t) (agent t) authToken;
                 backups_request NumberToString (baseUrl t) (agent t) authToken]
             ++ map (fun backupId =>
                       {| Http.url :=
                            (baseUrl t ++ "/api/v1/backup/"
                             ++ ToString NumberToString backupId
                             ++ "/log?pagesize=999")%string;
                          Http.method := None;
                          Http.headers :=
                            [("Content-Type", "application/json");
                             ("Accept", "application/json");
                             ("Authorization",
                              ("Bearer "
                               ++ ToString NumberToString authToken)%string)];
                          Http.agent := agent t;
                          Http.body := None |})
                  backupIds)%list.
Proof.
  assert (H : run second_job_unreachable (Some body) (initial empty_store)
              = (Stats 3 0 1,
                 snd (run second_job_unreachable (Some body)
                        (initial empty_store))))
    by (vm_compute; reflexivity).
  split; [exact H|].
  destruct (one_log_request_per_backup NumberToString StringToNumber
              (JSON_parse known) JSON_stringify toISOString uuidv4
              second_job_unreachable RaiseConflict
              (Some body) (initial empty_store)
              (snd (run second_job_unreachable (Some body) (initial empty_store)))
              3 0 1 H)
    as (request_body & t & authToken & machineId & machineName & st1 & listing
        & backupIds & Hbody & Hv & _ & _ & Hids & _ & Hrequests & _).
  injection Hbody as <-.
  exists t, authToken, listing, backupIds.
  split; [exact Hv|]. split; [exact Hids | exact Hrequests].
Defined.

(** The job of [second_job_unreachable] whose log cannot be fetched. *)
Lemma unusable_log_counts_one_error_witness :
  collect_backup_guarded NumberToString StringToNumber (JSON_parse known)
    JSON_stringify toISOString uuidv4 second_job_unreachable RaiseConflict
    base None token machine three_jobs (1, Str "2") (initial empty_store)
  = (Ok tt,
     {| db := db (initial empty_store);
        events := Requested (log_request NumberToString base None token (Str "2"))
                  :: events (initial empty_store);
        uuids := uuids (initial empty_store);
        processedCount := processedCount (initial empty_store);
        skippedCount := skippedCount (initial empty_store);
        errorCount := S (errorCount (initial empty_store)) |}).
Proof.
  apply (unusable_log_counts_one_error NumberToString StringToNumber
           (JSON_parse known) JSON_stringify toISOString uuidv4
           second_job_unreachable RaiseConflict
           base None token machine three_jobs 1 (Str "2") (initial empty_store)).
  vm_compute; reflexivity.
Defined.

(** The first record of the invocation against [one_job]. *)
Lemma rows_refer_to_machine_witness :
  exists row,
    hd_error sample_rows = Some row
    /\ In row (rows_inserted (events collected))
    /\ date row = begin_time row
    /\ exists machineName,
         machine_name (db collected) (machine_id row) = Some machineName.
Proof.
  eexists. split; [reflexivity|].
  match goal with
  | |- In ?row ?rows /\ _ =>
      assert (Hin : In row rows) by (vm_compute; left; reflexivity)
  end.
  split; [exact Hin|].
  destruct (rows_refer_to_machine _ _ _ _ _ _ _ _ _ _ _ Hin)
    as (_ & _ & Hdate & _ & Hmachine).
  split; [exact Hdate | exact Hmachine].
Defined.

Lemma stored_columns_are_defaulted_witness :
  exists row,
    hd_error sample_rows = Some row
    /\ In row (rows_inserted (events collected))
    /\ Forall (fun v => v = zero \/ v = one) (flag_columns row).
Proof.
  eexists. split; [reflexivity|].
  match goal with
  | |- In ?row ?rows /\ _ =>
      assert (Hin : In row rows) by (vm_compute; left; reflexivity)
  end.
  split; [exact Hin|].
  destruct (stored_columns_are_defaulted _ _ _ _ _ _ _ _ _ _ _ Hin)
    as (_ & Hflags & _).
  exact Hflags.
Defined.

Lemma backup_name_of_first_match_witness :
  find_backup_name ([job "1" "Documents"] ++ job "2" "Pictures" :: [job "3" "Music"])
    1 (Str "2")
  = Ok (field (field (job "2" "Pictures") "Backup") "Name").
Proof.
  apply (backup_name_of_first_match 1 "2" [job "1" "Documents"] [job "3" "Music"]
           (job "2" "Pictures")).
  - constructor; [|constructor].
    exists (Str "1"). split; [reflexivity | discriminate].
  - reflexivity.
Defined.

(** A listed backup without name. *)
Definition nameless : jsval := Obj [("Backup", Obj [("ID", Str "1")])].

Lemma nameless_backup_is_ignored_witness :
  collect_logs NumberToString StringToNumber (JSON_parse known)
    JSON_stringify toISOString uuidv4 RaiseConflict
    machine [nameless] 0 (Str "1")
    {| Http.ok := true; Http.status := 200; Http.statusText := "OK";
       Http.json := Arr documents_log |}
    (initial empty_store)
  = (Ok tt, initial empty_store).
Proof.
  apply (nameless_backup_is_ignored NumberToString StringToNumber
           (JSON_parse known) JSON_stringify toISOString uuidv4 RaiseConflict
           machine [nameless] 0 (Str "1") Undefined
           {| Http.ok := true; Http.status := 200; Http.statusText := "OK";
              Http.json := Arr documents_log |}
           documents_log (initial empty_store)).
  - reflexivity.
  - reflexivity.
  - reflexivity.
  - reflexivity.
  - apply Forall_forall. intros log Hin. vm_compute in Hin.
    destruct Hin as [<-|[<-|[]]]; intros message Hparse;
      vm_compute in Hparse; injection Hparse as <-; vm_compute; discriminate.
Defined.

(** The two runs of [documents_log], new to the empty store. *)
Lemma new_runs_inserted_in_order_witness :
  exists st',
    entries_of [entry run1; entry run2] (initial empty_store) = (Ok tt, st')
    /\ map key_of (backups (db st'))
       = (map key_of (backups (db (initial empty_store)))
          ++ [ (machine, Str "Documents", Str "2024-05-01T10:00:00.000Z");
               (machine, Str "Documents", Str "2024-05-02T10:00:00.000Z") ])%list.
Proof.
  destruct (new_runs_inserted_in_order NumberToString StringToNumber
              (JSON_parse known) JSON_stringify toISOString uuidv4 RaiseConflict
              machine [job "1" "Documents"] 0 (Str "1")
              [entry run1; entry run2]
              [ (machine, Str "Documents", Str "2024-05-01T10:00:00.000Z");
                (machine, Str "Documents", Str "2024-05-02T10:00:00.000Z") ]
              (initial empty_store))
    as (st' & Hrun & Hkeys & _).
  - constructor; [vm_compute; reflexivity|].
    constructor; [vm_compute; reflexivity|]. constructor.
  - constructor.
    + intros [H|[]]; discriminate H.
    + constructor; [intros [] | constructor].
  - intros k [<-|[<-|[]]]; reflexivity.
  - exists st'. split; [exact Hrun | exact Hkeys].
Defined.

(** The identifiers of the sample runtime are pairwise distinct. *)
Lemma uuidv4_injective (m n : nat) : uuidv4 m = uuidv4 n -> m = n.
Proof.
  unfold uuidv4, decimal. intros H. simpl in H. injection H as H.
  apply Nat2Z.inj. apply DecimalZ.to_int_inj.
  assert (Hi : forall z, (0 <= z)%Z ->
            NilZero.int_of_string (NilZero.string_of_int (Z.to_int z))
            = Some (Z.to_int z)).
  { intros z Hz. apply NilZero.isi.
    - destruct z; simpl; try discriminate.
      intros E. injection E as E.
      exact (DecimalPos.Unsigned.to_uint_nonnil _ E).
    - destruct z; simpl; try discriminate. lia. }
  apply (f_equal NilZero.int_of_string) in H.
  rewrite !Hi in H by lia. injection H as H. exact H.
Qed.

Lemma row_ids_are_distinct_witness :
  NoDup (map id (rows_inserted (events collected))).
Proof.
  apply (row_ids_are_distinct NumberToString StringToNumber (JSON_parse known)
           JSON_stringify toISOString uuidv4 one_job RaiseConflict
           (Some body) empty_store).
  exact uuidv4_injective.
Defined.

(** *** The maintenance menu *)

Definition deleted : jsval := Obj [("message", Str "Machine deleted")].

(** The server deletes the machine and lists the machines left. *)
Definition deleting (calls : list Menu.Call) (url : string)
  (method : option string) : Menu.Thrown + Menu.Answer :=
  match method with
  | Some _ => inr {| Menu.ok := true; Menu.json := inr deleted |}
  | None => inr {| Menu.ok := true; Menu.json := inr (Arr []) |}
  end.

(** The server answers every request with a status that is not a
    success. *)
Definition refusing (calls : list Menu.Call) (url : string)
  (method : option string) : Menu.Thrown + Menu.Answer :=
  inr {| Menu.ok := false; Menu.json := inl Menu.OtherValue |}.

(** The server deletes the machine and is unreachable afterwards. *)
Definition vanishing (calls : list Menu.Call) (url : string)
  (method : option string) : Menu.Thrown + Menu.Answer :=
  match method with
  | Some _ => inr {| Menu.ok := true; Menu.json := inr deleted |}
  | None => inl (Menu.ErrorObject "Failed to fetch")
  end.

Definition null_read_message : string :=
  "Cannot read properties of null (reading 'message')".

Lemma refused_deletion_reports_failure_witness :
  Menu.calls_of
    (Menu.handleDeleteMachine refusing null_read_message
       "machine-1" "/detail/machine-1")
  = [Menu.SetIsDeletingMachine true;
     Menu.Fetch "/api/machines/machine-1" (Some "DELETE");
     Menu.ConsoleError;
     Menu.Toast "Machine Deletion Failed" (Str "Failed to delete machine")
       "destructive" 10000;
     Menu.SetIsDeletingMachine false].
Proof.
  apply (Menu.refused_deletion_reports_failure refusing null_read_message
           "machine-1" "/detail/machine-1" "Failed to delete machine").
  - discriminate.
  - split; reflexivity.
Defined.

Lemma redirect_only_after_deletion_witness :
  In (Menu.RouterPush "/")
    (Menu.calls_of
       (Menu.handleDeleteMachine deleting null_read_message
          "machine-1" "/detail/machine-1"))
  /\ String.prefix ("/detail/" ++ "machine-1") "/detail/machine-1" = true
  /\ ~ In Menu.ConsoleError
         (Menu.calls_of
            (Menu.handleDeleteMachine deleting null_read_message
               "machine-1" "/detail/machine-1")).
Proof.
  assert (H : In (Menu.RouterPush "/")
                (Menu.calls_of
                   (Menu.handleDeleteMachine deleting null_read_message
                      "machine-1" "/detail/machine-1")))
    by (vm_compute; do 7 right; left; reflexivity).
  split; [exact H|].
  destruct (Menu.redirect_only_after_deletion deleting null_read_message
              "machine-1" "/detail/machine-1" "/" H)
    as (_ & _ & Hprefix & _ & _ & _ & Hquiet).
  split; [exact Hprefix | exact Hquiet].
Defined.

Lemma failed_reload_after_deletion_witness :
  Menu.calls_of
    (Menu.handleDeleteMachine vanishing null_read_message
       "machine-1" "/detail/machine-1")
  = [Menu.SetIsDeletingMachine true;
     Menu.Fetch "/api/machines/machine-1" (Some "DELETE");
     Menu.Toast "Machine deleted" (Str "Machine deleted") "default" 5000;
     Menu.SetSelectedMachine "";
     Menu.Fetch "/api/machines" None;
     Menu.ConsoleError;
     Menu.Toast "Machine Deletion Failed" (Str "Failed to fetch")
       "destructive" 10000;
     Menu.SetIsDeletingMachine false].
Proof.
  apply (Menu.failed_reload_after_deletion vanishing null_read_message
           "machine-1" "/detail/machine-1"
           {| Menu.ok := true; Menu.json := inr deleted |} deleted
           (Menu.ErrorObject "Failed to fetch")).
  - discriminate.
  - reflexivity.
  - reflexivity.
  - reflexivity.
  - reflexivity.
  - reflexivity.
Defined.

Lemma deletion_went_through_witness :
  Menu.calls_of
    (Menu.handleDeleteMachine deleting null_read_message
       "machine-1" "/detail/machine-1")
  = [Menu.SetIsDeletingMachine true;
     Menu.Fetch "/api/machines/machine-1" (Some "DELETE");
     Menu.Toast "Machine deleted" (Str "Machine deleted") "default" 5000;
     Menu.SetSelectedMachine "";
     Menu.Fetch "/api/machines" None;
     Menu.SetMachines (Arr []);
     Menu.RouterRefresh;
     Menu.RouterPush "/";
     Menu.SetIsDeletingMachine false]
  /\ Menu.returns
       (Menu.handleDeleteMachine deleting null_read_message
          "machine-1" "/detail/machine-1").
Proof.
  apply (Menu.deletion_went_through deleting null_read_message
           "machine-1" "/detail/machine-1"
           {| Menu.ok := true; Menu.json := inr deleted |}
           {| Menu.ok := true; Menu.json := inr (Arr []) |}
           deleted (Arr [])).
  - discriminate.
  - reflexivity.
  - reflexivity.
  - reflexivity.
  - reflexivity.
  - reflexivity.
  - reflexivity.
Defined.

End Further.
